(** * Impeller display-list dispatcher: a shallow embedding

    This development embeds [impeller/display_list/dl_dispatcher.cc] - the
    translator that replays a recorded stream of drawing directives against
    an Impeller canvas - and states its documented properties as theorems.

    Conventions.
    - [Scalar] (the C++ [float]) is IEEE-754 binary32, through the
      parametric operations of [SpecFloat] at precision 24 and maximal
      exponent 128.
    - Nullable pointers ([const T*], [sk_sp<T>], [std::shared_ptr<T>]) are
      [option]s; a parameter the source dereferences without a check has the
      pointee type itself.
    - An input object of the recording side (Skia and display-list classes)
      is the record of what the accessors called by the dispatcher return.
    - Values built by Impeller factories and handed to the canvas or stored
      in the paint (paths, color sources, filter nodes) are constructor
      terms named after the factory.
    - [FML_DCHECK]s are assertions of debug builds and are not embedded;
      [FML_LOG] and [FML_DLOG] append to the dispatcher's diagnostics. *)

From Stdlib Require Import ZArith List Bool String Lia.
From Stdlib Require Import Floats.SpecFloat.
Import ListNotations.

Set Implicit Arguments.
Set Warnings "-register-all,-notation-for-abbreviation".
Local Open Scope Z_scope.
Local Open Scope string_scope.
Local Open Scope list_scope.

(* ===================================================================== *)
(** * Scalars *)
(* ===================================================================== *)

Module Scalar.

Definition prec : Z := 24.
Definition emax : Z := 128.

Notation t := spec_float (only parsing).

(** An [int] converted to [float]. *)
Definition of_Z (n : Z) : t := binary_normalize prec emax n 0 false.

Definition zero : t := S754_zero false.
Definition one : t := of_Z 1.

Definition add : t -> t -> t := SFadd prec emax.
Definition sub : t -> t -> t := SFsub prec emax.
Definition mul : t -> t -> t := SFmul prec emax.
Definition div : t -> t -> t := SFdiv prec emax.
Definition sqrt : t -> t := SFsqrt prec emax.
Definition opp : t -> t := SFopp.

(** The decimal literal [n/d] rounded to the nearest binary32 value; [n]
    and [d] are integers below [2^24], so the quotient is rounded once. *)
Definition ratio (n d : Z) : t := div (of_Z n) (of_Z d).

(** C++ [==], [!=], [<], [>]: every comparison with a NaN is false except
    [!=]. *)
Definition eqb : t -> t -> bool := SFeqb.
Definition neqb (x y : t) : bool := negb (SFeqb x y).
Definition ltb : t -> t -> bool := SFltb.
Definition gtb (x y : t) : bool := SFltb y x.

(** [std::max(a, b)] is [(a < b) ? b : a]; [std::min(a, b)] is
    [(b < a) ? b : a]; [std::clamp(v, lo, hi)] is
    [(v < lo) ? lo : (hi < v) ? hi : v]. *)
Definition max (a b : t) : t := if ltb a b then b else a.
Definition min (a b : t) : t := if ltb b a then b else a.
Definition clamp (v lo hi : t) : t :=
  if ltb v lo then lo else if ltb hi v then hi else v.

(** A finite binary32 number in canonical form, or positive zero. *)
Definition regular (x : t) : bool :=
  match x with
  | S754_zero s => negb s
  | S754_finite _ m e => bounded prec emax m e
  | _ => false
  end.

Definition is_zero (x : t) : bool :=
  match x with S754_zero _ => true | _ => false end.

Definition is_nan (x : t) : bool :=
  match x with S754_nan => true | _ => false end.

End Scalar.

Notation Scalar := spec_float (only parsing).

Declare Scope scalar_scope.
Delimit Scope scalar_scope with S.
Infix "+" := Scalar.add : scalar_scope.
Infix "-" := Scalar.sub : scalar_scope.
Infix "*" := Scalar.mul : scalar_scope.
Infix "/" := Scalar.div : scalar_scope.
Notation "- x" := (Scalar.opp x) : scalar_scope.
Notation "0" := Scalar.zero : scalar_scope.
Notation "1" := Scalar.one : scalar_scope.

(* ===================================================================== *)
(** * Geometry *)
(* ===================================================================== *)

(** ** Skia value types, as read by the dispatcher *)

Record SkPoint := { fX : Scalar; fY : Scalar }.

Record SkRect :=
  { fLeft : Scalar; fTop : Scalar; fRight : Scalar; fBottom : Scalar }.

Definition SkRect_width (r : SkRect) : Scalar := (fRight r - fLeft r)%S.
Definition SkRect_height (r : SkRect) : Scalar := (fBottom r - fTop r)%S.

(** [SkRect::center()]: each coordinate is the sum of the halved edges. *)
Definition SkRect_center (r : SkRect) : SkPoint :=
  {| fX := (fLeft r * Scalar.ratio 1 2 + fRight r * Scalar.ratio 1 2)%S;
     fY := (fTop r * Scalar.ratio 1 2 + fBottom r * Scalar.ratio 1 2)%S |}.

Definition SkRect_MakeLTRB (l t r b : Scalar) : SkRect :=
  {| fLeft := l; fTop := t; fRight := r; fBottom := b |}.
Definition SkRect_MakeWH (w h : Scalar) : SkRect :=
  SkRect_MakeLTRB 0%S 0%S w h.
Definition SkRect_MakeXYWH (x y w h : Scalar) : SkRect :=
  SkRect_MakeLTRB x y (x + w)%S (y + h)%S.

Record SkIRect :=
  { iLeft : Z; iTop : Z; iRight : Z; iBottom : Z }.

(** [SkRRect]: its bounds, whether all corners share one radius pair, and
    that pair. [rrect_id] stands for the remaining corner data. *)
Record SkRRect :=
  { rrect_rect : SkRect;
    rrect_isSimple : bool;
    rrect_getSimpleRadii : SkPoint;
    rrect_id : nat }.

(** [SkPath]: the answers of the three shape recognisers ([isRect],
    [isRRect], [isOval] fill their out-parameter when they return true);
    [path_id] stands for the verbs and points. *)
Record SkPath :=
  { path_isRect : option SkRect;
    path_isRRect : option SkRRect;
    path_isOval : option SkRect;
    path_id : nat }.

(** [SkMatrix]: nine scalars read with [operator[]]. *)
Record SkMatrix :=
  { sk0 : Scalar; sk1 : Scalar; sk2 : Scalar;
    sk3 : Scalar; sk4 : Scalar; sk5 : Scalar;
    sk6 : Scalar; sk7 : Scalar; sk8 : Scalar }.

Record SkRSXform :=
  { fSCos : Scalar; fSSin : Scalar; fTx : Scalar; fTy : Scalar }.

(** ** Impeller value types *)

(** Modelled from the spec: the value types of [impeller/geometry], which
    is not part of the sources at hand - points, vectors, sizes and
    rectangles by their coordinates, colors as un-premultiplied RGBA. *)
Record Point := { px : Scalar; py : Scalar }.
Definition Vector2 : Type := Point.
Record Vector3 := { vx : Scalar; vy : Scalar; vz : Scalar }.
Record ISize := { width : Z; height : Z }.

Record Rect :=
  { GetLeft : Scalar; GetTop : Scalar; GetRight : Scalar; GetBottom : Scalar }.
Definition Rect_MakeLTRB (l t r b : Scalar) : Rect :=
  {| GetLeft := l; GetTop := t; GetRight := r; GetBottom := b |}.

(** Modelled from the spec: [Color] of [impeller/geometry/color.h], an
    RGBA float color, un-premultiplied. *)
Record Color :=
  { red : Scalar; green : Scalar; blue : Scalar; alpha : Scalar }.

Definition Color_Black : Color :=
  {| red := 0%S; green := 0%S; blue := 0%S; alpha := 1%S |}.

Record Sigma := { sigma : Scalar }.
Record Radius := { radius : Scalar }.
Record Degrees := { degrees : Scalar }.

(** Modelled from the spec: [impeller/geometry/sigma.h] is not part of the
    sources at hand. A [Radius] assigned to a [Sigma] field goes through
    [Radius::operator Sigma], kept as a constructor term: the blur's
    standard deviation is given by the radius it was built from. *)
Inductive MaskSigma :=
| Sigma_exact (s : Sigma)
| Sigma_of_Radius (r : Radius).

(** ** Matrices *)

(** Modelled from the spec: [Matrix] of [impeller/geometry/matrix.h],
    which is not part of the sources at hand - sixteen scalars in
    column-major order, [m[4*c + r]], as the source lists them when it
    builds one. *)
Record Matrix :=
  { m0 : Scalar; m1 : Scalar; m2 : Scalar; m3 : Scalar;
    m4 : Scalar; m5 : Scalar; m6 : Scalar; m7 : Scalar;
    m8 : Scalar; m9 : Scalar; m10 : Scalar; m11 : Scalar;
    m12 : Scalar; m13 : Scalar; m14 : Scalar; m15 : Scalar }.

Module Mat.

(** Modelled from the spec: [impeller/geometry/matrix.h] is not part of
    the sources at hand; transforms are column-major 4x4 matrices, a
    default-constructed one is the identity, and concatenation is the
    matrix product. *)
Definition Identity : Matrix :=
  Build_Matrix 1%S 0%S 0%S 0%S
               0%S 1%S 0%S 0%S
               0%S 0%S 1%S 0%S
               0%S 0%S 0%S 1%S.

(** Modelled from the spec: one entry of the 4x4 product - row [a b c d]
    of the left factor against a column [x y z w] of the right factor,
    summed left to right. *)
Definition dot (a b c d x y z w : Scalar) : Scalar :=
  (a * x + b * y + c * z + d * w)%S.

(** Modelled from the spec: [Matrix::Multiply], the column-major product
    [a * o] used to concatenate transforms. *)
Definition Multiply (a o : Matrix) : Matrix :=
  Build_Matrix
    (dot (m0 a) (m4 a) (m8 a) (m12 a) (m0 o) (m1 o) (m2 o) (m3 o))
    (dot (m1 a) (m5 a) (m9 a) (m13 a) (m0 o) (m1 o) (m2 o) (m3 o))
    (dot (m2 a) (m6 a) (m10 a) (m14 a) (m0 o) (m1 o) (m2 o) (m3 o))
    (dot (m3 a) (m7 a) (m11 a) (m15 a) (m0 o) (m1 o) (m2 o) (m3 o))
    (dot (m0 a) (m4 a) (m8 a) (m12 a) (m4 o) (m5 o) (m6 o) (m7 o))
    (dot (m1 a) (m5 a) (m9 a) (m13 a) (m4 o) (m5 o) (m6 o) (m7 o))
    (dot (m2 a) (m6 a) (m10 a) (m14 a) (m4 o) (m5 o) (m6 o) (m7 o))
    (dot (m3 a) (m7 a) (m11 a) (m15 a) (m4 o) (m5 o) (m6 o) (m7 o))
    (dot (m0 a) (m4 a) (m8 a) (m12 a) (m8 o) (m9 o) (m10 o) (m11 o))
    (dot (m1 a) (m5 a) (m9 a) (m13 a) (m8 o) (m9 o) (m10 o) (m11 o))
    (dot (m2 a) (m6 a) (m10 a) (m14 a) (m8 o) (m9 o) (m10 o) (m11 o))
    (dot (m3 a) (m7 a) (m11 a) (m15 a) (m8 o) (m9 o) (m10 o) (m11 o))
    (dot (m0 a) (m4 a) (m8 a) (m12 a) (m12 o) (m13 o) (m14 o) (m15 o))
    (dot (m1 a) (m5 a) (m9 a) (m13 a) (m12 o) (m13 o) (m14 o) (m15 o))
    (dot (m2 a) (m6 a) (m10 a) (m14 a) (m12 o) (m13 o) (m14 o) (m15 o))
    (dot (m3 a) (m7 a) (m11 a) (m15 a) (m12 o) (m13 o) (m14 o) (m15 o)).

(** Modelled from the spec: [Matrix::MakeTranslation]. *)
Definition MakeTranslation (t : Vector3) : Matrix :=
  Build_Matrix 1%S 0%S 0%S 0%S
               0%S 1%S 0%S 0%S
               0%S 0%S 1%S 0%S
               (vx t) (vy t) (vz t) 1%S.

(** Modelled from the spec: [Matrix::MakeScale]. *)
Definition MakeScale (s : Vector3) : Matrix :=
  Build_Matrix (vx s) 0%S 0%S 0%S
               0%S (vy s) 0%S 0%S
               0%S 0%S (vz s) 0%S
               0%S 0%S 0%S 1%S.

(** Modelled from the spec: [Matrix::MakeSkew]. *)
Definition MakeSkew (sx sy : Scalar) : Matrix :=
  Build_Matrix 1%S sy 0%S 0%S
               sx 1%S 0%S 0%S
               0%S 0%S 1%S 0%S
               0%S 0%S 0%S 1%S.

(** Modelled from the spec: [Matrix::HasPerspective] - the bottom row is
    not [0 0 0 1]. *)
Definition HasPerspective (m : Matrix) : bool :=
  Scalar.neqb (m3 m) 0%S || Scalar.neqb (m7 m) 0%S
  || Scalar.neqb (m11 m) 0%S || Scalar.neqb (m15 m) 1%S.

(** Modelled from the spec: [Vector3::Length]. *)
Definition Length (v : Vector3) : Scalar :=
  Scalar.sqrt (vx v * vx v + vy v * vy v + vz v * vz v)%S.

(** Modelled from the spec: [Matrix::GetScale], the scale factors of the
    transform along its three axes - the lengths of the basis vectors; its
    [y] is the canvas's current vertical scale factor. *)
Definition GetScale (m : Matrix) : Vector3 :=
  {| vx := Length {| vx := m0 m; vy := m1 m; vz := m2 m |};
     vy := Length {| vx := m4 m; vy := m5 m; vz := m6 m |};
     vz := Length {| vx := m8 m; vy := m9 m; vz := m10 m |} |}.

(** Every entry is a canonical finite number or positive zero. *)
Definition regular (m : Matrix) : bool :=
  Scalar.regular (m0 m) && Scalar.regular (m1 m) && Scalar.regular (m2 m)
  && Scalar.regular (m3 m) && Scalar.regular (m4 m) && Scalar.regular (m5 m)
  && Scalar.regular (m6 m) && Scalar.regular (m7 m) && Scalar.regular (m8 m)
  && Scalar.regular (m9 m) && Scalar.regular (m10 m)
  && Scalar.regular (m11 m) && Scalar.regular (m12 m)
  && Scalar.regular (m13 m) && Scalar.regular (m14 m)
  && Scalar.regular (m15 m).

End Mat.

(** ** [skia_conversions] *)

(** Modelled from the spec: [impeller/display_list/skia_conversions.cc] is
    not part of the sources at hand; these conversions carry coordinates
    over unchanged. *)
Definition ToRect (r : SkRect) : Rect :=
  Rect_MakeLTRB (fLeft r) (fTop r) (fRight r) (fBottom r).
Definition ToRect_opt (r : option SkRect) : option Rect := option_map ToRect r.
Definition ToPoint (p : SkPoint) : Point := {| px := fX p; py := fY p |}.
Definition ToPoints (points : list SkPoint) (count : nat) : list Point :=
  map ToPoint (firstn count points).
Definition ToRects (tex : list SkRect) (count : nat) : list Rect :=
  map ToRect (firstn count tex).

(** [ToMatrix]: a 3x3 row-major [SkMatrix] to a column-major [Matrix]. *)
Definition ToMatrix (m : SkMatrix) : Matrix :=
  Build_Matrix
    (sk0 m) (sk3 m) 0%S (sk6 m)
    (sk1 m) (sk4 m) 0%S (sk7 m)
    0%S     0%S     1%S 0%S
    (sk2 m) (sk5 m) 0%S (sk8 m).

(* ===================================================================== *)
(** * Sampling and style mapper *)
(* ===================================================================== *)

Inductive DlBlendMode :=
| Dl_kClear | Dl_kSrc | Dl_kDst | Dl_kSrcOver | Dl_kDstOver | Dl_kSrcIn
| Dl_kDstIn | Dl_kSrcOut | Dl_kDstOut | Dl_kSrcATop | Dl_kDstATop | Dl_kXor
| Dl_kPlus | Dl_kModulate | Dl_kScreen | Dl_kOverlay | Dl_kDarken
| Dl_kLighten | Dl_kColorDodge | Dl_kColorBurn | Dl_kHardLight
| Dl_kSoftLight | Dl_kDifference | Dl_kExclusion | Dl_kMultiply | Dl_kHue
| Dl_kSaturation | Dl_kColor | Dl_kLuminosity.

Inductive BlendMode :=
| kClear | kSource | kDestination | kSourceOver | kDestinationOver
| kSourceIn | kDestinationIn | kSourceOut | kDestinationOut | kSourceATop
| kDestinationATop | kXor | kPlus | kModulate | kScreen | kOverlay | kDarken
| kLighten | kColorDodge | kColorBurn | kHardLight | kSoftLight
| kDifference | kExclusion | kMultiply | kHue | kSaturation | kColor
| kLuminosity.

Definition ToBlendMode (mode : DlBlendMode) : BlendMode :=
  match mode with
  | Dl_kClear => kClear
  | Dl_kSrc => kSource
  | Dl_kDst => kDestination
  | Dl_kSrcOver => kSourceOver
  | Dl_kDstOver => kDestinationOver
  | Dl_kSrcIn => kSourceIn
  | Dl_kDstIn => kDestinationIn
  | Dl_kSrcOut => kSourceOut
  | Dl_kDstOut => kDestinationOut
  | Dl_kSrcATop => kSourceATop
  | Dl_kDstATop => kDestinationATop
  | Dl_kXor => kXor
  | Dl_kPlus => kPlus
  | Dl_kModulate => kModulate
  | Dl_kScreen => kScreen
  | Dl_kOverlay => kOverlay
  | Dl_kDarken => kDarken
  | Dl_kLighten => kLighten
  | Dl_kColorDodge => kColorDodge
  | Dl_kColorBurn => kColorBurn
  | Dl_kHardLight => kHardLight
  | Dl_kSoftLight => kSoftLight
  | Dl_kDifference => kDifference
  | Dl_kExclusion => kExclusion
  | Dl_kMultiply => kMultiply
  | Dl_kHue => kHue
  | Dl_kSaturation => kSaturation
  | Dl_kColor => kColor
  | Dl_kLuminosity => kLuminosity
  end.

Inductive DlTileMode := DlTile_kClamp | DlTile_kRepeat | DlTile_kMirror | DlTile_kDecal.
Inductive TileMode := Tile_kClamp | Tile_kRepeat | Tile_kMirror | Tile_kDecal.

Definition ToTileMode (tile_mode : DlTileMode) : TileMode :=
  match tile_mode with
  | DlTile_kClamp => Tile_kClamp
  | DlTile_kRepeat => Tile_kRepeat
  | DlTile_kMirror => Tile_kMirror
  | DlTile_kDecal => Tile_kDecal
  end.

Inductive DlImageSampling :=
| kNearestNeighbor | Sampling_kLinear | kMipmapLinear | kCubic.
Inductive DlFilterMode := Filter_kNearest | Filter_kLinear.

Inductive MinMagFilter := MinMag_kNearest | MinMag_kLinear.
Inductive MipFilter := Mip_kNearest | Mip_kLinear.

Record SamplerDescriptor :=
  { min_filter : MinMagFilter;
    mag_filter : MinMagFilter;
    mip_filter : MipFilter;
    label : string }.

(** Modelled from the spec: the default-constructed [SamplerDescriptor] of
    [impeller/core/sampler_descriptor.h], which is not part of the sources
    at hand: nearest filtering on all three axes. *)
Definition SamplerDescriptor_default : SamplerDescriptor :=
  {| min_filter := MinMag_kNearest;
     mag_filter := MinMag_kNearest;
     mip_filter := Mip_kNearest;
     label := "NN Clamp Sampler" |}.

Definition ToSamplerDescriptor (options : DlImageSampling) : SamplerDescriptor :=
  let desc := SamplerDescriptor_default in
  match options with
  | kNearestNeighbor =>
      {| min_filter := MinMag_kNearest; mag_filter := MinMag_kNearest;
         mip_filter := mip_filter desc; label := "Nearest Sampler" |}
  | Sampling_kLinear | kCubic =>
      {| min_filter := MinMag_kLinear; mag_filter := MinMag_kLinear;
         mip_filter := mip_filter desc; label := "Linear Sampler" |}
  | kMipmapLinear =>
      {| min_filter := MinMag_kLinear; mag_filter := MinMag_kLinear;
         mip_filter := Mip_kLinear; label := "Mipmap Linear Sampler" |}
  end.

Definition ToSamplerDescriptor_FilterMode (options : DlFilterMode)
  : SamplerDescriptor :=
  let desc := SamplerDescriptor_default in
  match options with
  | Filter_kNearest =>
      {| min_filter := MinMag_kNearest; mag_filter := MinMag_kNearest;
         mip_filter := mip_filter desc; label := "Nearest Sampler" |}
  | Filter_kLinear =>
      {| min_filter := MinMag_kLinear; mag_filter := MinMag_kLinear;
         mip_filter := mip_filter desc; label := "Linear Sampler" |}
  end.

Inductive DlDrawStyle := DlStyle_kFill | DlStyle_kStroke | kStrokeAndFill.
Inductive Style := kFill | kStroke.

Inductive DlStrokeCap := DlCap_kButt | DlCap_kRound | DlCap_kSquare.
Inductive Cap := kButt | Cap_kRound | kSquare.
Inductive DlStrokeJoin := DlJoin_kMiter | DlJoin_kRound | DlJoin_kBevel.
Inductive Join := kMiter | Join_kRound | kBevel.

Inductive ClipOp := ClipOp_kDifference | ClipOp_kIntersect.
Inductive ClipOperation := Clip_kDifference | Clip_kIntersect.

Definition ToClipOperation (clip_op : ClipOp) : ClipOperation :=
  match clip_op with
  | ClipOp_kDifference => Clip_kDifference
  | ClipOp_kIntersect => Clip_kIntersect
  end.

Inductive DlBlurStyle := DlBlur_kNormal | DlBlur_kSolid | DlBlur_kOuter | DlBlur_kInner.
Inductive BlurStyle := Blur_kNormal | Blur_kSolid | Blur_kOuter | Blur_kInner.

Definition ToBlurStyle (blur_style : DlBlurStyle) : BlurStyle :=
  match blur_style with
  | DlBlur_kNormal => Blur_kNormal
  | DlBlur_kSolid => Blur_kSolid
  | DlBlur_kOuter => Blur_kOuter
  | DlBlur_kInner => Blur_kInner
  end.

Inductive PointMode := kPoints | kLines | kPolygon.
Inductive PointStyle := Point_kRound | Point_kSquare.
Inductive MorphType := kDilate | kErode.
Inductive FillType := kNonZero | kOdd.
Inductive Convexity := kUnknown | kConvex.
Inductive SrcRectConstraint := kStrict | kFast.

(** A diagnostic written through [FML_LOG(ERROR)] or [FML_DLOG(ERROR)]. *)
Definition Diagnostic : Type := string.

(** The [UNIMPLEMENTED] macro, expanded in the function [fn]. *)
Definition UNIMPLEMENTED (fn : string) : Diagnostic :=
  ("Unimplemented detail in " ++ fn)%string.

(** The line a failed [FML_DCHECK(condition)] writes. *)
Definition CHECK_FAILED (condition : string) : Diagnostic :=
  ("Check failed: " ++ condition ++ ".")%string.

(** The log of a debug build in the course of one call: the lines it has
    written, and whether a failed [FML_DCHECK] has stopped the process.
    [FML_DLOG] and [FML_DCHECK] are compiled into debug builds only; a
    release build writes none of these lines and evaluates no check. *)
Record DebugLog :=
  { lines : list Diagnostic;
    stopped : bool }.

Definition DebugLog_empty : DebugLog := {| lines := []; stopped := false |}.

(** [FML_DLOG(ERROR) << msg]: a line of the log, unless the process has
    been stopped before. *)
Definition FML_DLOG (msg : Diagnostic) (l : DebugLog) : DebugLog :=
  if stopped l then l
  else {| lines := lines l ++ [msg]; stopped := false |}.

(** [FML_DCHECK(condition)]: nothing when the condition holds; otherwise the
    debug build writes the failed condition and stops the process there. *)
Definition FML_DCHECK (condition : bool) (text : string) (l : DebugLog)
  : DebugLog :=
  if stopped l || condition then l
  else {| lines := lines l ++ [CHECK_FAILED text]; stopped := true |}.

(** [ToStyle] returns the style together with what it logs. *)
Definition ToStyle (style : DlDrawStyle) : Style * list Diagnostic :=
  match style with
  | DlStyle_kFill => (kFill, [])
  | DlStyle_kStroke => (kStroke, [])
  | kStrokeAndFill => (kFill, [UNIMPLEMENTED "ToStyle"])
  end.

(* ===================================================================== *)
(** * Colors, gradients and color sources *)
(* ===================================================================== *)

(** Modelled from the spec: [flutter::DlColor] of [display_list/], which
    is not part of the sources at hand, through the four float accessors
    the dispatcher calls. *)
Record DlColor :=
  { getRedF : Scalar; getGreenF : Scalar; getBlueF : Scalar;
    getAlphaF : Scalar }.

(** Modelled from the spec: [skia_conversions::ToColor] is not part of the
    sources at hand; it yields the RGBA float color of a [DlColor]. *)
Definition ToColor (color : DlColor) : Color :=
  {| red := getRedF color; green := getGreenF color;
     blue := getBlueF color; alpha := getAlphaF color |}.

Definition ToColors (colors : option (list DlColor)) (count : nat) : list Color :=
  match colors with
  | None => []
  | Some colors => map ToColor (firstn count colors)
  end.

(** Modelled from the spec: the part shared by the four gradient
    descriptors of [display_list/] - [stop_count()] and the two arrays
    behind [colors()] and [stops()]. *)
Record DlGradient :=
  { stop_count : nat;
    dl_colors : list DlColor;
    dl_stops : list Scalar }.

Definition DlColor_none : DlColor :=
  {| getRedF := 0%S; getGreenF := 0%S; getBlueF := 0%S; getAlphaF := 0%S |}.

(** [vector::back()]. *)
Definition back {A} (d : A) (v : list A) : A := last v d.

(** [ConvertStops] appends to the two vectors it is handed; [colors] and
    [stops] are their contents on entry and the result is their contents on
    return. Array reads are [nth]; the arrays hold [stop_count] elements. *)
Definition ConvertStops (gradient : DlGradient)
  (colors : list Color) (stops : list Scalar) : list Color * list Scalar :=
  let dl_colors := dl_colors gradient in
  let dl_stops := dl_stops gradient in
  let '(colors, stops) :=
    if Scalar.neqb (nth 0 dl_stops S754_nan) 0%S
    then (colors ++ [ToColor (nth 0 dl_colors DlColor_none)], stops ++ [0%S])
    else (colors, stops) in
  let '(colors, stops) :=
    fold_left
      (fun '(colors, stops) i =>
         (colors ++ [ToColor (nth i dl_colors DlColor_none)],
          stops ++ [nth i dl_stops S754_nan]))
      (seq 0 (stop_count gradient)) (colors, stops) in
  if Scalar.neqb (back S754_nan stops) 1%S
  then (colors ++ [back Color_Black colors], stops ++ [1%S])
  else (colors, stops).

(** Modelled from the spec: textures and images, which the dispatcher
    receives as opaque handles. A [DlImage] answers [impeller_texture()]
    with a texture or with null. *)
Record Texture := { texture_id : nat; GetSize : ISize }.
Record DlImage := { impeller_texture : option Texture }.

(** [std::make_shared<Image>(texture)]. *)
Record Image := { image_texture : option Texture }.

Definition RuntimeStage : Type := nat.
Record DlRuntimeEffect := { runtime_stage : RuntimeStage }.
Definition UniformData : Type := list Byte.byte.

(** Modelled from the spec: [flutter::DlColorSource], the tagged variant
    of color-source descriptors; [type()] is the constructor and each
    [asX()] downcast is the match on it. [DlColorSourceType::kScene] exists only
    when [IMPELLER_ENABLE_3D] is defined; the build embedded here does not
    define it. *)
Inductive DlColorSource :=
| DlColorColorSource (color : DlColor)
| DlLinearGradientColorSource (start_point end_point : SkPoint)
    (gradient : DlGradient) (tile_mode : DlTileMode) (matrix : SkMatrix)
| DlRadialGradientColorSource (center : SkPoint) (radius : Scalar)
    (gradient : DlGradient) (tile_mode : DlTileMode) (matrix : SkMatrix)
| DlConicalGradientColorSource (start_center : SkPoint) (start_radius : Scalar)
    (end_center : SkPoint) (end_radius : Scalar)
    (gradient : DlGradient) (tile_mode : DlTileMode) (matrix : SkMatrix)
| DlSweepGradientColorSource (center : SkPoint) (start end_ : Scalar)
    (gradient : DlGradient) (tile_mode : DlTileMode) (matrix : SkMatrix)
| DlImageColorSource (image : DlImage)
    (horizontal_tile_mode vertical_tile_mode : DlTileMode)
    (sampling : DlImageSampling) (matrix : SkMatrix)
| DlRuntimeEffectColorSource (runtime_effect : DlRuntimeEffect)
    (uniform_data : UniformData) (samplers : list (option DlColorSource)).

Inductive DlColorSourceType :=
| DlType_kColor | DlType_kImage | DlType_kLinearGradient
| DlType_kRadialGradient | DlType_kConicalGradient | DlType_kSweepGradient
| DlType_kRuntimeEffect.

Inductive ColorSourceType :=
| Type_kColor | Type_kImage | Type_kLinearGradient | Type_kRadialGradient
| Type_kConicalGradient | Type_kSweepGradient | Type_kRuntimeEffect
| Type_kScene.

Definition DlColorSource_type (source : DlColorSource) : DlColorSourceType :=
  match source with
  | DlColorColorSource _ => DlType_kColor
  | DlLinearGradientColorSource _ _ _ _ _ => DlType_kLinearGradient
  | DlRadialGradientColorSource _ _ _ _ _ => DlType_kRadialGradient
  | DlConicalGradientColorSource _ _ _ _ _ _ _ => DlType_kConicalGradient
  | DlSweepGradientColorSource _ _ _ _ _ _ => DlType_kSweepGradient
  | DlImageColorSource _ _ _ _ _ => DlType_kImage
  | DlRuntimeEffectColorSource _ _ _ => DlType_kRuntimeEffect
  end.

(** [DlColorSource::asImage()]: null unless the source is an image. *)
Definition asImage (source : DlColorSource)
  : option (DlImage * DlTileMode * DlTileMode * DlImageSampling * SkMatrix) :=
  match source with
  | DlImageColorSource image h v sampling matrix =>
      Some (image, h, v, sampling, matrix)
  | _ => None
  end.

Record TextureInput :=
  { sampler_descriptor : SamplerDescriptor;
    texture : option Texture }.

(** Modelled from the spec: [ColorSource] of [impeller/aiks], the tagged
    variant of color sources; one constructor per factory the dispatcher
    calls. *)
Inductive ColorSource :=
| MakeColor
| MakeLinearGradient (start_point end_point : Point)
    (colors : list Color) (stops : list Scalar)
    (tile_mode : TileMode) (effect_transform : Matrix)
| MakeConicalGradient (center : Point) (radius : Scalar)
    (colors : list Color) (stops : list Scalar)
    (focus_center : Point) (focus_radius : Scalar)
    (tile_mode : TileMode) (effect_transform : Matrix)
| MakeRadialGradient (center : Point) (radius : Scalar)
    (colors : list Color) (stops : list Scalar)
    (tile_mode : TileMode) (effect_transform : Matrix)
| MakeSweepGradient (center : Point) (start_angle end_angle : Degrees)
    (colors : list Color) (stops : list Scalar)
    (tile_mode : TileMode) (effect_transform : Matrix)
| MakeImage (texture : option Texture) (x_tile_mode y_tile_mode : TileMode)
    (desc : SamplerDescriptor) (effect_transform : Matrix)
| MakeRuntimeEffect (runtime_stage : RuntimeStage)
    (uniform_data : UniformData) (texture_inputs : list TextureInput).

Definition ColorSource_GetType (s : ColorSource) : ColorSourceType :=
  match s with
  | MakeColor => Type_kColor
  | MakeLinearGradient _ _ _ _ _ _ => Type_kLinearGradient
  | MakeConicalGradient _ _ _ _ _ _ _ _ => Type_kConicalGradient
  | MakeRadialGradient _ _ _ _ _ _ => Type_kRadialGradient
  | MakeSweepGradient _ _ _ _ _ _ _ => Type_kSweepGradient
  | MakeImage _ _ _ _ _ => Type_kImage
  | MakeRuntimeEffect _ _ _ => Type_kRuntimeEffect
  end.

Definition ColorSourceType_eqb (a b : ColorSourceType) : bool :=
  match a, b with
  | Type_kColor, Type_kColor | Type_kImage, Type_kImage
  | Type_kLinearGradient, Type_kLinearGradient
  | Type_kRadialGradient, Type_kRadialGradient
  | Type_kConicalGradient, Type_kConicalGradient
  | Type_kSweepGradient, Type_kSweepGradient
  | Type_kRuntimeEffect, Type_kRuntimeEffect
  | Type_kScene, Type_kScene => true
  | _, _ => false
  end.

Definition ToColorSourceType (type : DlColorSourceType)
  : option ColorSourceType :=
  match type with
  | DlType_kColor => Some Type_kColor
  | DlType_kImage => Some Type_kImage
  | DlType_kLinearGradient => Some Type_kLinearGradient
  | DlType_kRadialGradient => Some Type_kRadialGradient
  | DlType_kConicalGradient => Some Type_kConicalGradient
  | DlType_kSweepGradient => Some Type_kSweepGradient
  | DlType_kRuntimeEffect => Some Type_kRuntimeEffect
  end.

(* ===================================================================== *)
(** * Filter composer *)
(* ===================================================================== *)

(** Modelled from the spec: the color filter descriptors of
    [display_list/] and the color filter values of [impeller/aiks], four
    kinds each. *)
Inductive DlColorFilter :=
| DlBlendColorFilter (mode : DlBlendMode) (color : DlColor)
| DlMatrixColorFilter (matrix : list Scalar)
| DlSrgbToLinearGammaColorFilter
| DlLinearToSrgbGammaColorFilter.

Inductive ColorFilter :=
| MakeBlend (blend_mode : BlendMode) (color : Color)
| MakeMatrix (color_matrix : list Scalar)
| MakeSrgbToLinear
| MakeLinearToSrgb.

Definition ToColorFilter (filter : option DlColorFilter) : option ColorFilter :=
  match filter with
  | None => None
  | Some filter =>
      match filter with
      | DlBlendColorFilter mode color =>
          let blend_mode := ToBlendMode mode in
          let color := ToColor color in
          Some (MakeBlend blend_mode color)
      | DlMatrixColorFilter matrix => Some (MakeMatrix matrix)
      | DlSrgbToLinearGammaColorFilter => Some MakeSrgbToLinear
      | DlLinearToSrgbGammaColorFilter => Some MakeLinearToSrgb
      end
  end.

Inductive DlMaskFilter :=
| DlBlurMaskFilter (style : DlBlurStyle) (sigma : Scalar).

(** Modelled from the spec: [flutter::DlImageFilter], the image filter
    descriptors of [display_list/]; the sub-filters are shared pointers
    and may be null. *)
Inductive DlImageFilter :=
| DlBlurImageFilter (sigma_x sigma_y : Scalar) (tile_mode : DlTileMode)
| DlDilateImageFilter (radius_x radius_y : Scalar)
| DlErodeImageFilter (radius_x radius_y : Scalar)
| DlMatrixImageFilter (matrix : SkMatrix) (sampling : DlImageSampling)
| DlComposeImageFilter (outer inner : option DlImageFilter)
| DlColorFilterImageFilter (color_filter : option DlColorFilter)
| DlLocalMatrixImageFilter (matrix : SkMatrix)
    (image_filter : option DlImageFilter).

(** Modelled from the spec: the filter graph of
    [impeller/entity/contents/filters] - a node per [FilterContents]
    factory, and the inputs of a node. [FilterInput_Make] wraps a node as the input of another one;
    [FilterInput_Snapshot] is an input supplied by the rendering backend. *)
Inductive FilterContents :=
| MakeGaussianBlur (input : FilterInput) (sigma_x sigma_y : Sigma)
    (blur_style : BlurStyle) (tile_mode : TileMode) (effect_transform : Matrix)
| MakeMorphology (input : FilterInput) (radius_x radius_y : Radius)
    (morph_type : MorphType) (effect_transform : Matrix)
| MakeMatrixFilter (input : FilterInput) (matrix : Matrix)
    (desc : SamplerDescriptor) (effect_transform : Matrix) (is_subpass : bool)
| MakeLocalMatrixFilter (input : FilterInput) (matrix : Matrix)
| WrapWithGPUColorFilter (filter : ColorFilter) (input : FilterInput)
    (absorb_opacity : bool)
with FilterInput :=
| FilterInput_Snapshot (id : nat)
| FilterInput_Make (contents : FilterContents).

(** [Paint::ImageFilterProc], a [std::function]; a null one is [None]. *)
Definition ImageFilterProc : Type :=
  FilterInput -> Matrix -> bool -> FilterContents.

Fixpoint ToImageFilterProc_at (filter : DlImageFilter) : option ImageFilterProc :=
  match filter with
  | DlBlurImageFilter sx sy tm =>
      let sigma_x := {| sigma := sx |} in
      let sigma_y := {| sigma := sy |} in
      let tile_mode := ToTileMode tm in
      Some (fun input effect_transform is_subpass =>
              MakeGaussianBlur input sigma_x sigma_y Blur_kNormal tile_mode
                effect_transform)
  | DlDilateImageFilter rx ry =>
      if Scalar.ltb rx 0%S || Scalar.ltb ry 0%S then None
      else
        let radius_x := {| radius := rx |} in
        let radius_y := {| radius := ry |} in
        Some (fun input effect_transform is_subpass =>
                MakeMorphology input radius_x radius_y kDilate effect_transform)
  | DlErodeImageFilter rx ry =>
      if Scalar.ltb rx 0%S || Scalar.ltb ry 0%S then None
      else
        let radius_x := {| radius := rx |} in
        let radius_y := {| radius := ry |} in
        Some (fun input effect_transform is_subpass =>
                MakeMorphology input radius_x radius_y kErode effect_transform)
  | DlMatrixImageFilter m sampling =>
      let matrix := ToMatrix m in
      let desc := ToSamplerDescriptor sampling in
      Some (fun input effect_transform is_subpass =>
              MakeMatrixFilter input matrix desc effect_transform is_subpass)
  | DlComposeImageFilter outer inner =>
      let outer_proc :=
        match outer with Some f => ToImageFilterProc_at f | None => None end in
      let inner_proc :=
        match inner with Some f => ToImageFilterProc_at f | None => None end in
      match outer_proc with
      | None => inner_proc
      | Some outer_filter =>
          match inner_proc with
          | None => outer_proc
          | Some inner_filter =>
              Some (fun input effect_transform is_subpass =>
                      let contents :=
                        inner_filter input effect_transform is_subpass in
                      let contents :=
                        outer_filter (FilterInput_Make contents)
                          effect_transform is_subpass in
                      contents)
          end
      end
  | DlColorFilterImageFilter cf =>
      let color_filter := ToColorFilter cf in
      match color_filter with
      | None => None
      | Some filter =>
          Some (fun input effect_transform is_subpass =>
                  WrapWithGPUColorFilter filter input false)
      end
  | DlLocalMatrixImageFilter m internal_filter =>
      let image_filter_proc :=
        match internal_filter with
        | Some f => ToImageFilterProc_at f
        | None => None
        end in
      match image_filter_proc with
      | None => None
      | Some filter_proc =>
          let matrix := ToMatrix m in
          Some (fun input effect_transform is_subpass =>
                  let filter := filter_proc input effect_transform is_subpass in
                  MakeLocalMatrixFilter (FilterInput_Make filter) matrix)
      end
  end.

(** [ToImageFilterProc]: the null check on the filter pointer, then the
    switch on the filter's type. *)
Definition ToImageFilterProc (filter : option DlImageFilter)
  : option ImageFilterProc :=
  match filter with
  | None => None
  | Some filter => ToImageFilterProc_at filter
  end.

(* ===================================================================== *)
(** * Paint state *)
(* ===================================================================== *)

Record MaskBlurDescriptor :=
  { blur_style : BlurStyle;
    blur_sigma : MaskSigma }.

(** Modelled from the spec: [Paint] of [impeller/aiks/paint.h], the
    attribute bag, with the members the dispatcher reads and writes. *)
Record Paint :=
  { color : Color;
    color_source : ColorSource;
    dither : bool;
    stroke_width : Scalar;
    stroke_cap : Cap;
    stroke_join : Join;
    stroke_miter : Scalar;
    style : Style;
    blend_mode : BlendMode;
    invert_colors : bool;
    image_filter : option ImageFilterProc;
    color_filter : option ColorFilter;
    mask_blur_descriptor : option MaskBlurDescriptor }.

(** Modelled from the spec: the default-constructed [Paint] of
    [impeller/aiks/paint.h], which is not part of the sources at hand:
    filled, solid color source, no filter of any kind. *)
Definition Paint_default : Paint :=
  {| color := Color_Black;
     color_source := MakeColor;
     dither := false;
     stroke_width := 0%S;
     stroke_cap := kButt;
     stroke_join := kMiter;
     stroke_miter := Scalar.of_Z 4;
     style := kFill;
     blend_mode := kSourceOver;
     invert_colors := false;
     image_filter := None;
     color_filter := None;
     mask_blur_descriptor := None |}.

Definition Paint_with_color (v : Color) (p : Paint) : Paint :=
  {| color := v; color_source := color_source p; dither := dither p;
     stroke_width := stroke_width p; stroke_cap := stroke_cap p;
     stroke_join := stroke_join p; stroke_miter := stroke_miter p;
     style := style p; blend_mode := blend_mode p;
     invert_colors := invert_colors p; image_filter := image_filter p;
     color_filter := color_filter p;
     mask_blur_descriptor := mask_blur_descriptor p |}.

Definition Paint_with_color_source (v : ColorSource) (p : Paint) : Paint :=
  {| color := color p; color_source := v; dither := dither p;
     stroke_width := stroke_width p; stroke_cap := stroke_cap p;
     stroke_join := stroke_join p; stroke_miter := stroke_miter p;
     style := style p; blend_mode := blend_mode p;
     invert_colors := invert_colors p; image_filter := image_filter p;
     color_filter := color_filter p;
     mask_blur_descriptor := mask_blur_descriptor p |}.

Definition Paint_with_dither (v : bool) (p : Paint) : Paint :=
  {| color := color p; color_source := color_source p; dither := v;
     stroke_width := stroke_width p; stroke_cap := stroke_cap p;
     stroke_join := stroke_join p; stroke_miter := stroke_miter p;
     style := style p; blend_mode := blend_mode p;
     invert_colors := invert_colors p; image_filter := image_filter p;
     color_filter := color_filter p;
     mask_blur_descriptor := mask_blur_descriptor p |}.

Definition Paint_with_stroke_width (v : Scalar) (p : Paint) : Paint :=
  {| color := color p; color_source := color_source p; dither := dither p;
     stroke_width := v; stroke_cap := stroke_cap p;
     stroke_join := stroke_join p; stroke_miter := stroke_miter p;
     style := style p; blend_mode := blend_mode p;
     invert_colors := invert_colors p; image_filter := image_filter p;
     color_filter := color_filter p;
     mask_blur_descriptor := mask_blur_descriptor p |}.

Definition Paint_with_stroke_cap (v : Cap) (p : Paint) : Paint :=
  {| color := color p; color_source := color_source p; dither := dither p;
     stroke_width := stroke_width p; stroke_cap := v;
     stroke_join := stroke_join p; stroke_miter := stroke_miter p;
     style := style p; blend_mode := blend_mode p;
     invert_colors := invert_colors p; image_filter := image_filter p;
     color_filter := color_filter p;
     mask_blur_descriptor := mask_blur_descriptor p |}.

Definition Paint_with_stroke_join (v : Join) (p : Paint) : Paint :=
  {| color := color p; color_source := color_source p; dither := dither p;
     stroke_width := stroke_width p; stroke_cap := stroke_cap p;
     stroke_join := v; stroke_miter := stroke_miter p;
     style := style p; blend_mode := blend_mode p;
     invert_colors := invert_colors p; image_filter := image_filter p;
     color_filter := color_filter p;
     mask_blur_descriptor := mask_blur_descriptor p |}.

Definition Paint_with_stroke_miter (v : Scalar) (p : Paint) : Paint :=
  {| color := color p; color_source := color_source p; dither := dither p;
     stroke_width := stroke_width p; stroke_cap := stroke_cap p;
     stroke_join := stroke_join p; stroke_miter := v;
     style := style p; blend_mode := blend_mode p;
     invert_colors := invert_colors p; image_filter := image_filter p;
     color_filter := color_filter p;
     mask_blur_descriptor := mask_blur_descriptor p |}.

Definition Paint_with_style (v : Style) (p : Paint) : Paint :=
  {| color := color p; color_source := color_source p; dither := dither p;
     stroke_width := stroke_width p; stroke_cap := stroke_cap p;
     stroke_join := stroke_join p; stroke_miter := stroke_miter p;
     style := v; blend_mode := blend_mode p;
     invert_colors := invert_colors p; image_filter := image_filter p;
     color_filter := color_filter p;
     mask_blur_descriptor := mask_blur_descriptor p |}.

Definition Paint_with_blend_mode (v : BlendMode) (p : Paint) : Paint :=
  {| color := color p; color_source := color_source p; dither := dither p;
     stroke_width := stroke_width p; stroke_cap := stroke_cap p;
     stroke_join := stroke_join p; stroke_miter := stroke_miter p;
     style := style p; blend_mode := v;
     invert_colors := invert_colors p; image_filter := image_filter p;
     color_filter := color_filter p;
     mask_blur_descriptor := mask_blur_descriptor p |}.

Definition Paint_with_invert_colors (v : bool) (p : Paint) : Paint :=
  {| color := color p; color_source := color_source p; dither := dither p;
     stroke_width := stroke_width p; stroke_cap := stroke_cap p;
     stroke_join := stroke_join p; stroke_miter := stroke_miter p;
     style := style p; blend_mode := blend_mode p;
     invert_colors := v; image_filter := image_filter p;
     color_filter := color_filter p;
     mask_blur_descriptor := mask_blur_descriptor p |}.

Definition Paint_with_image_filter (v : option ImageFilterProc) (p : Paint)
  : Paint :=
  {| color := color p; color_source := color_source p; dither := dither p;
     stroke_width := stroke_width p; stroke_cap := stroke_cap p;
     stroke_join := stroke_join p; stroke_miter := stroke_miter p;
     style := style p; blend_mode := blend_mode p;
     invert_colors := invert_colors p; image_filter := v;
     color_filter := color_filter p;
     mask_blur_descriptor := mask_blur_descriptor p |}.

Definition Paint_with_color_filter (v : option ColorFilter) (p : Paint) : Paint :=
  {| color := color p; color_source := color_source p; dither := dither p;
     stroke_width := stroke_width p; stroke_cap := stroke_cap p;
     stroke_join := stroke_join p; stroke_miter := stroke_miter p;
     style := style p; blend_mode := blend_mode p;
     invert_colors := invert_colors p; image_filter := image_filter p;
     color_filter := v;
     mask_blur_descriptor := mask_blur_descriptor p |}.

Definition Paint_with_mask_blur_descriptor (v : option MaskBlurDescriptor)
  (p : Paint) : Paint :=
  {| color := color p; color_source := color_source p; dither := dither p;
     stroke_width := stroke_width p; stroke_cap := stroke_cap p;
     stroke_join := stroke_join p; stroke_miter := stroke_miter p;
     style := style p; blend_mode := blend_mode p;
     invert_colors := invert_colors p; image_filter := image_filter p;
     color_filter := color_filter p;
     mask_blur_descriptor := v |}.

(* ===================================================================== *)
(** * The canvas *)
(* ===================================================================== *)

Record SkTextBlob :=
  { blob_id : nat;
    blob_bounds : SkRect;
    (** what [MakeTextFrameFromTextBlobSkia] answers for this blob *)
    blob_text_frame : option nat }.

Record DlVertices := { vertices_id : nat }.

(** Modelled from the spec: the paths handed to the canvas - the
    conversions of [skia_conversions] and what a [PathBuilder] of
    [impeller/geometry] was asked to add before [TakePath]. *)
Inductive Path :=
| ToPath (path : SkPath)
| ToPath_RRect (rrect : SkRRect)
| PathDataFromTextBlob (blob : SkTextBlob) (offset : Point)
| TakePath (components : list PathComponent) (convexity : Convexity)
    (fill : FillType)
with PathComponent :=
| AddLine (p0 p1 : Point)
| AddOval (bounds : Rect)
| AddArc (oval_bounds : Rect) (start sweep : Degrees) (use_center : bool)
| AddPath (path : Path).

Inductive VerticesGeometry := MakeVertices (vertices : DlVertices).

(** Modelled from the spec: the interface of the canvas - every call the
    dispatcher makes on it, with its arguments. *)
Inductive CanvasCall :=
| Call_Save
| Call_SaveLayer (paint : Paint) (bounds : option Rect)
    (backdrop_filter : option ImageFilterProc)
| Call_Restore
| Call_ResetTransform
| Call_Concat (xformation : Matrix)
| Call_PreConcat (xformation : Matrix)
| Call_ClipRect (rect : Rect) (clip_op : ClipOperation)
| Call_ClipRRect (rect : Rect) (corner_radius : Scalar) (clip_op : ClipOperation)
| Call_ClipPath (path : Path) (clip_op : ClipOperation)
| Call_DrawPaint (paint : Paint)
| Call_DrawPath (path : Path) (paint : Paint)
| Call_DrawRect (rect : Rect) (paint : Paint)
| Call_DrawRRect (rect : Rect) (corner_radius : Scalar) (paint : Paint)
| Call_DrawCircle (center : Point) (radius : Scalar) (paint : Paint)
| Call_DrawPoints (points : list Point) (radius : Scalar) (paint : Paint)
    (point_style : PointStyle)
| Call_DrawVertices (vertices : VerticesGeometry) (blend_mode : BlendMode)
    (paint : Paint)
| Call_DrawImageRect (image : Image) (source dest : Rect) (paint : Paint)
    (sampler : SamplerDescriptor)
| Call_DrawAtlas (atlas : Image) (transforms : list Matrix)
    (texture_coordinates : list Rect) (colors : list Color)
    (blend_mode : BlendMode) (sampler : SamplerDescriptor)
    (cull_rect : option Rect) (paint : Paint)
| Call_DrawTextFrame (text_frame : nat) (position : Point) (paint : Paint).

(** Whether a call issues a draw. *)
Definition is_draw_call (c : CanvasCall) : bool :=
  match c with
  | Call_DrawPaint _ | Call_DrawPath _ _ | Call_DrawRect _ _
  | Call_DrawRRect _ _ _ | Call_DrawCircle _ _ _ | Call_DrawPoints _ _ _ _
  | Call_DrawVertices _ _ _ | Call_DrawImageRect _ _ _ _ _
  | Call_DrawAtlas _ _ _ _ _ _ _ _ | Call_DrawTextFrame _ _ _ => true
  | _ => false
  end.

Record CanvasStackEntry :=
  { xformation : Matrix;
    is_subpass : bool }.

(** Modelled from the spec: the canvas of [impeller/aiks/canvas.cc], which
    is not part of the sources at hand. It owns the save stack - the
    [current] scope and the scopes saved [below] it, so that the save count
    is one more than the length of [below] - with the accumulated transform
    of each scope, and it records, oldest first, every call made on it. *)
Record Canvas :=
  { current : CanvasStackEntry;
    below : list CanvasStackEntry;
    initial_cull_rect : option Rect;
    recorded : list CanvasCall }.

(** The numeric kernels of the canvas and of the nine-patch converter,
    taken as parameters: the rotation matrix of an angle (sine and cosine);
    the culling bounds of the current scope in local coordinates (the clip
    history taken through the inverse of the current transform); and the
    patches into which an image is cut for a center rectangle and a
    destination - the (source, destination) rectangle pairs, none to nine
    of them, that [NinePatchConverter] computes. *)
Class CanvasKernels :=
  { MakeRotationZ : Degrees -> Matrix;
    LocalCullingBounds : Canvas -> option Rect;
    NinePatchPatches : Image -> Rect -> Rect -> list (Rect * Rect) }.

Module Canvas.

(** Modelled from the spec: a new canvas - one scope, identity transform,
    nothing recorded. *)
Definition Make (cull_rect : option Rect) : Canvas :=
  {| current := {| xformation := Mat.Identity; is_subpass := false |};
     below := [];
     initial_cull_rect := cull_rect;
     recorded := [] |}.

Definition record (call : CanvasCall) (c : Canvas) : Canvas :=
  {| current := current c; below := below c;
     initial_cull_rect := initial_cull_rect c;
     recorded := recorded c ++ [call] |}.

Definition set_xformation (m : Matrix) (c : Canvas) : Canvas :=
  {| current := {| xformation := m; is_subpass := is_subpass (current c) |};
     below := below c;
     initial_cull_rect := initial_cull_rect c;
     recorded := recorded c |}.

Definition push (subpass : bool) (c : Canvas) : Canvas :=
  {| current := {| xformation := xformation (current c);
                   is_subpass := subpass |};
     below := current c :: below c;
     initial_cull_rect := initial_cull_rect c;
     recorded := recorded c |}.

(** Modelled from the spec: [Canvas::GetSaveCount], the depth of the save
    stack. *)
Definition GetSaveCount (c : Canvas) : nat := S (List.length (below c)).

(** Modelled from the spec: [Canvas::GetCurrentTransformation], the
    accumulated transform of the current scope. *)
Definition GetCurrentTransformation (c : Canvas) : Matrix :=
  xformation (current c).

Definition GetCurrentLocalCullingBounds `{CanvasKernels} (c : Canvas)
  : option Rect := LocalCullingBounds c.

(** Modelled from the spec: [Canvas::Save] opens a scope that starts with
    the current transform. *)
Definition Save (c : Canvas) : Canvas := push false (record Call_Save c).

(** Modelled from the spec: [Canvas::SaveLayer] opens a scope rendered as
    an offscreen layer. *)
Definition SaveLayer (paint : Paint) (bounds : option Rect)
  (backdrop_filter : option ImageFilterProc) (c : Canvas) : Canvas :=
  push true (record (Call_SaveLayer paint bounds backdrop_filter) c).

(** Modelled from the spec: [Canvas::Restore] closes the current scope and
    answers whether there was one to close - the base scope stays. *)
Definition Restore (c : Canvas) : bool * Canvas :=
  let c := record Call_Restore c in
  match below c with
  | [] => (false, c)
  | e :: rest =>
      (true, {| current := e; below := rest;
                initial_cull_rect := initial_cull_rect c;
                recorded := recorded c |})
  end.

(** Modelled from the spec: [Canvas::RestoreToCount] restores the save
    stack to a depth, [while (GetSaveCount() > count) if (!Restore())
    return;], unrolled [fuel] times. *)
Fixpoint RestoreToCount_loop (fuel : nat) (count : nat) (c : Canvas)
  : Canvas :=
  match fuel with
  | O => c
  | S fuel =>
      if Nat.ltb count (GetSaveCount c) then
        let '(ok, c) := Restore c in
        if ok then RestoreToCount_loop fuel count c else c
      else c
  end.

Definition RestoreToCount (count : nat) (c : Canvas) : Canvas :=
  RestoreToCount_loop (GetSaveCount c) count c.

(** Modelled from the spec: [Canvas::ResetTransform] sets the current
    transform to the identity; [Concat] and [Transform] multiply a matrix
    onto it from the right, [PreConcat] from the left; [Translate],
    [Scale], [Skew] and [Rotate] concatenate the matrix of that name. *)
Definition ResetTransform (c : Canvas) : Canvas :=
  set_xformation Mat.Identity (record Call_ResetTransform c).

Definition Concat (m : Matrix) (c : Canvas) : Canvas :=
  set_xformation (Mat.Multiply (GetCurrentTransformation c) m)
    (record (Call_Concat m) c).

Definition PreConcat (m : Matrix) (c : Canvas) : Canvas :=
  set_xformation (Mat.Multiply m (GetCurrentTransformation c))
    (record (Call_PreConcat m) c).

Definition Transform (m : Matrix) (c : Canvas) : Canvas := Concat m c.

Definition Translate (offset : Vector3) (c : Canvas) : Canvas :=
  Concat (Mat.MakeTranslation offset) c.

Definition Scale (scale : Vector3) (c : Canvas) : Canvas :=
  Concat (Mat.MakeScale scale) c.

Definition Skew (sx sy : Scalar) (c : Canvas) : Canvas :=
  Concat (Mat.MakeSkew sx sy) c.

Definition Rotate `{CanvasKernels} (angle : Degrees) (c : Canvas) : Canvas :=
  Concat (MakeRotationZ angle) c.

Definition ClipRect rect clip_op := record (Call_ClipRect rect clip_op).
Definition ClipRRect rect corner_radius clip_op :=
  record (Call_ClipRRect rect corner_radius clip_op).
Definition ClipPath path clip_op := record (Call_ClipPath path clip_op).
Definition DrawPaint paint := record (Call_DrawPaint paint).
Definition DrawPath path paint := record (Call_DrawPath path paint).
Definition DrawRect rect paint := record (Call_DrawRect rect paint).
Definition DrawRRect rect corner_radius paint :=
  record (Call_DrawRRect rect corner_radius paint).
Definition DrawCircle center radius paint :=
  record (Call_DrawCircle center radius paint).
Definition DrawPoints points radius paint point_style :=
  record (Call_DrawPoints points radius paint point_style).
Definition DrawVertices vertices blend_mode paint :=
  record (Call_DrawVertices vertices blend_mode paint).
Definition DrawImageRect image source dest paint sampler :=
  record (Call_DrawImageRect image source dest paint sampler).
Definition DrawAtlas atlas transforms texture_coordinates colors blend_mode
  sampler cull_rect paint :=
  record (Call_DrawAtlas atlas transforms texture_coordinates colors
            blend_mode sampler cull_rect paint).
Definition DrawTextFrame text_frame position paint :=
  record (Call_DrawTextFrame text_frame position paint).

Definition draw_calls (c : Canvas) : list CanvasCall :=
  filter is_draw_call (recorded c).

End Canvas.

Module NinePatchConverter.

(** Modelled from the spec: [NinePatchConverter::DrawNinePatch] of
    [impeller/display_list/nine_patch_converter.cc], which is not part of
    the sources at hand. It is handed the canvas and the paint, and draws
    the stretched image on that canvas with that paint: one
    [DrawImageRect] call per patch, in the order of the patches. It reads
    the paint and does not write it. *)
Definition DrawNinePatch `{CanvasKernels} (image : Image) (center dst : Rect)
  (sampler : SamplerDescriptor) (canvas : Canvas) (paint : Paint) : Canvas :=
  fold_left
    (fun canvas '(source, dest) =>
       Canvas.DrawImageRect image source dest paint sampler canvas)
    (NinePatchPatches image center dst) canvas.

End NinePatchConverter.

(* ===================================================================== *)
(** * The dispatcher *)
(* ===================================================================== *)

(** The state of a [DlDispatcher]: its three members, and the diagnostics
    written so far (oldest first) - the lines of [FML_LOG] and, as a debug
    build writes them, of [FML_DLOG] and of a failed [FML_DCHECK]. A debug
    build stops at a failed check; the members are then those of a release
    build, which goes on. *)
Record DlDispatcher :=
  { paint_ : Paint;
    canvas_ : Canvas;
    initial_matrix_ : Matrix;
    diagnostics : list Diagnostic }.

Definition with_paint (p : Paint) (d : DlDispatcher) : DlDispatcher :=
  {| paint_ := p; canvas_ := canvas_ d;
     initial_matrix_ := initial_matrix_ d; diagnostics := diagnostics d |}.

Definition with_canvas (c : Canvas) (d : DlDispatcher) : DlDispatcher :=
  {| paint_ := paint_ d; canvas_ := c;
     initial_matrix_ := initial_matrix_ d; diagnostics := diagnostics d |}.

Definition with_initial_matrix (m : Matrix) (d : DlDispatcher) : DlDispatcher :=
  {| paint_ := paint_ d; canvas_ := canvas_ d;
     initial_matrix_ := m; diagnostics := diagnostics d |}.

Definition log (msgs : list Diagnostic) (d : DlDispatcher) : DlDispatcher :=
  {| paint_ := paint_ d; canvas_ := canvas_ d;
     initial_matrix_ := initial_matrix_ d;
     diagnostics := diagnostics d ++ msgs |}.

(** [DlDispatcher::DlDispatcher()] and [DlDispatcher(Rect cull_rect)]. *)
Definition DlDispatcher_new (cull_rect : option Rect) : DlDispatcher :=
  {| paint_ := Paint_default;
     canvas_ := Canvas.Make cull_rect;
     initial_matrix_ := Mat.Identity;
     diagnostics := [] |}.

Record SaveLayerOptions := { renders_with_attributes : bool }.

(** Modelled from the spec: the precomputed culling bounds of a display
    list ([display_list/] is not part of the sources at hand) - for a cull
    rectangle, which directives (by position) a culled replay delivers. *)
Definition RTree : Type := SkRect -> nat -> bool.

(** Modelled from the spec: the directive stream. One constructor per
    [DlOpReceiver] method the source overrides, with that method's
    parameters; a [DisplayList] is its directives and, when it was built
    with one, its culling index. *)
Inductive DlOp :=
| Op_setAntiAlias (aa : bool)
| Op_setDither (dither : bool)
| Op_setDrawStyle (style : DlDrawStyle)
| Op_setColor (color : DlColor)
| Op_setStrokeWidth (width : Scalar)
| Op_setStrokeMiter (limit : Scalar)
| Op_setStrokeCap (cap : DlStrokeCap)
| Op_setStrokeJoin (join : DlStrokeJoin)
| Op_setColorSource (source : option DlColorSource)
| Op_setColorFilter (filter : option DlColorFilter)
| Op_setInvertColors (invert : bool)
| Op_setBlendMode (dl_mode : DlBlendMode)
| Op_setPathEffect (effect : option nat)
| Op_setMaskFilter (filter : option DlMaskFilter)
| Op_setImageFilter (filter : option DlImageFilter)
| Op_save
| Op_saveLayer (bounds : option SkRect) (options : SaveLayerOptions)
    (backdrop : option DlImageFilter)
| Op_restore
| Op_translate (tx ty : Scalar)
| Op_scale (sx sy : Scalar)
| Op_rotate (degrees : Scalar)
| Op_skew (sx sy : Scalar)
| Op_transform2DAffine (mxx mxy mxt myx myy myt : Scalar)
| Op_transformFullPerspective
    (mxx mxy mxz mxt myx myy myz myt mzx mzy mzz mzt mwx mwy mwz mwt : Scalar)
| Op_transformReset
| Op_clipRect (rect : SkRect) (clip_op : ClipOp) (is_aa : bool)
| Op_clipRRect (rrect : SkRRect) (clip_op : ClipOp) (is_aa : bool)
| Op_clipPath (path : SkPath) (clip_op : ClipOp) (is_aa : bool)
| Op_drawColor (color : DlColor) (dl_mode : DlBlendMode)
| Op_drawPaint
| Op_drawLine (p0 p1 : SkPoint)
| Op_drawRect (rect : SkRect)
| Op_drawOval (bounds : SkRect)
| Op_drawCircle (center : SkPoint) (radius : Scalar)
| Op_drawRRect (rrect : SkRRect)
| Op_drawDRRect (outer inner : SkRRect)
| Op_drawPath (path : SkPath)
| Op_drawArc (oval_bounds : SkRect) (start_degrees sweep_degrees : Scalar)
    (use_center : bool)
| Op_drawPoints (mode : PointMode) (count : nat) (points : list SkPoint)
| Op_drawVertices (vertices : DlVertices) (dl_mode : DlBlendMode)
| Op_drawImage (image : option DlImage) (point : SkPoint)
    (sampling : DlImageSampling) (render_with_attributes : bool)
| Op_drawImageRect (image : DlImage) (src dst : SkRect)
    (sampling : DlImageSampling) (render_with_attributes : bool)
    (constraint : SrcRectConstraint)
| Op_drawImageNine (image : DlImage) (center : SkIRect) (dst : SkRect)
    (filter : DlFilterMode) (render_with_attributes : bool)
| Op_drawAtlas (atlas : DlImage) (xform : list SkRSXform) (tex : list SkRect)
    (colors : option (list DlColor)) (count : nat) (mode : DlBlendMode)
    (sampling : DlImageSampling) (cull_rect : option SkRect)
    (render_with_attributes : bool)
| Op_drawDisplayList (display_list : DisplayList) (opacity : Scalar)
| Op_drawTextBlob (blob : SkTextBlob) (x y : Scalar)
| Op_drawShadow (path : SkPath) (color : DlColor) (elevation : Scalar)
    (transparent_occluder : bool) (dpr : Scalar)
with DisplayList :=
| MakeDisplayList (ops : list DlOp) (rtree : option RTree).

Definition DisplayList_ops (dl : DisplayList) : list DlOp :=
  match dl with MakeDisplayList ops _ => ops end.
Definition DisplayList_rtree (dl : DisplayList) : option RTree :=
  match dl with MakeDisplayList _ rtree => rtree end.
Definition has_rtree (dl : DisplayList) : bool :=
  match DisplayList_rtree dl with Some _ => true | None => false end.

(** Modelled from the spec: which directives a replay delivers - all of
    them without a cull rectangle (or without an index), the indexed ones
    with one. *)
Definition delivered (rtree : option RTree) (cull_rect : option SkRect)
  (i : nat) : bool :=
  match rtree, cull_rect with
  | Some index, Some cull => index cull i
  | _, _ => true
  end.

Section Dispatcher.

Context `{CanvasKernels}.

Definition setAntiAlias (aa : bool) (d : DlDispatcher) : DlDispatcher := d.

Definition setDither (dither : bool) (d : DlDispatcher) : DlDispatcher :=
  with_paint (Paint_with_dither dither (paint_ d)) d.

Definition setDrawStyle (style : DlDrawStyle) (d : DlDispatcher)
  : DlDispatcher :=
  let '(s, msgs) := ToStyle style in
  with_paint (Paint_with_style s (paint_ d)) (log msgs d).

Definition setColor (color : DlColor) (d : DlDispatcher) : DlDispatcher :=
  with_paint
    (Paint_with_color
       {| red := getRedF color; green := getGreenF color;
          blue := getBlueF color; alpha := getAlphaF color |} (paint_ d)) d.

Definition setStrokeWidth (width : Scalar) (d : DlDispatcher) : DlDispatcher :=
  with_paint (Paint_with_stroke_width width (paint_ d)) d.

Definition setStrokeMiter (limit : Scalar) (d : DlDispatcher) : DlDispatcher :=
  with_paint (Paint_with_stroke_miter limit (paint_ d)) d.

Definition setStrokeCap (cap : DlStrokeCap) (d : DlDispatcher) : DlDispatcher :=
  match cap with
  | DlCap_kButt => with_paint (Paint_with_stroke_cap kButt (paint_ d)) d
  | DlCap_kRound => with_paint (Paint_with_stroke_cap Cap_kRound (paint_ d)) d
  | DlCap_kSquare => with_paint (Paint_with_stroke_cap kSquare (paint_ d)) d
  end.

Definition setStrokeJoin (join : DlStrokeJoin) (d : DlDispatcher)
  : DlDispatcher :=
  match join with
  | DlJoin_kMiter => with_paint (Paint_with_stroke_join kMiter (paint_ d)) d
  | DlJoin_kRound => with_paint (Paint_with_stroke_join Join_kRound (paint_ d)) d
  | DlJoin_kBevel => with_paint (Paint_with_stroke_join kBevel (paint_ d)) d
  end.

Definition set_color_source (s : ColorSource) (d : DlDispatcher)
  : DlDispatcher :=
  with_paint (Paint_with_color_source s (paint_ d)) d.

(** The sampler loop of the runtime-effect case. The second component is
    the vector of texture inputs when the loop runs to its end, and [None]
    for an early [return]: this is the course of a release build, and of a
    debug build as long as no check fails. The first component is the log
    of a debug build: the [UNIMPLEMENTED] line of a sampler that is not an
    image, and the failed [FML_DCHECK] of an image sampler without texture,
    at which the debug build stops. *)
Fixpoint runtime_effect_texture_inputs (samplers : list (option DlColorSource))
  (texture_inputs : list TextureInput) (logged : DebugLog)
  : DebugLog * option (list TextureInput) :=
  match samplers with
  | [] => (logged, Some texture_inputs)
  | sampler :: rest =>
      match sampler with
      | None => (logged, None)
      | Some sampler =>
          match asImage sampler with
          | None => (FML_DLOG (UNIMPLEMENTED "setColorSource") logged, None)
          | Some (image, _, _, sampling, _) =>
              let logged :=
                FML_DCHECK
                  (match impeller_texture image with
                   | Some _ => true
                   | None => false
                   end)
                  "image->image()->impeller_texture()" logged in
              runtime_effect_texture_inputs rest
                (texture_inputs ++
                   [{| sampler_descriptor := ToSamplerDescriptor sampling;
                       texture := impeller_texture image |}])
                logged
          end
      end
  end.

Definition setColorSource (source : option DlColorSource) (d : DlDispatcher)
  : DlDispatcher :=
  match source with
  | None => set_color_source MakeColor d
  | Some source =>
      match ToColorSourceType (DlColorSource_type source) with
      | None =>
          set_color_source MakeColor
            (log ["Requested ColorSourceType::kUnknown"] d)
      | Some _ =>
          match source with
          | DlColorColorSource color =>
              setColor color (set_color_source MakeColor d)
          | DlLinearGradientColorSource start_point end_point linear tm m =>
              let start_point := ToPoint start_point in
              let end_point := ToPoint end_point in
              let '(colors, stops) := ConvertStops linear [] [] in
              let tile_mode := ToTileMode tm in
              let matrix := ToMatrix m in
              set_color_source
                (MakeLinearGradient start_point end_point colors stops
                   tile_mode matrix) d
          | DlConicalGradientColorSource start_center start_radius
              end_center end_radius conical_gradient tm m =>
              let center := ToPoint end_center in
              let radius := end_radius in
              let focus_center := ToPoint start_center in
              let focus_radius := start_radius in
              let '(colors, stops) := ConvertStops conical_gradient [] [] in
              let tile_mode := ToTileMode tm in
              let matrix := ToMatrix m in
              set_color_source
                (MakeConicalGradient center radius colors stops focus_center
                   focus_radius tile_mode matrix) d
          | DlRadialGradientColorSource center radius radialGradient tm m =>
              let center := ToPoint center in
              let '(colors, stops) := ConvertStops radialGradient [] [] in
              let tile_mode := ToTileMode tm in
              let matrix := ToMatrix m in
              set_color_source
                (MakeRadialGradient center radius colors stops tile_mode
                   matrix) d
          | DlSweepGradientColorSource center start end_ sweepGradient tm m =>
              let center := ToPoint center in
              let start_angle := {| degrees := start |} in
              let end_angle := {| degrees := end_ |} in
              let '(colors, stops) := ConvertStops sweepGradient [] [] in
              let tile_mode := ToTileMode tm in
              let matrix := ToMatrix m in
              set_color_source
                (MakeSweepGradient center start_angle end_angle colors stops
                   tile_mode matrix) d
          | DlImageColorSource image h v sampling m =>
              let texture := impeller_texture image in
              let x_tile_mode := ToTileMode h in
              let y_tile_mode := ToTileMode v in
              let desc := ToSamplerDescriptor sampling in
              let matrix := ToMatrix m in
              set_color_source
                (MakeImage texture x_tile_mode y_tile_mode desc matrix) d
          | DlRuntimeEffectColorSource runtime_effect uniform_data samplers =>
              let runtime_stage := runtime_stage runtime_effect in
              let '(logged, texture_inputs) :=
                runtime_effect_texture_inputs samplers [] DebugLog_empty in
              let d := log (lines logged) d in
              match texture_inputs with
              | None => d
              | Some texture_inputs =>
                  set_color_source
                    (MakeRuntimeEffect runtime_stage uniform_data
                       texture_inputs) d
              end
          end
      end
  end.

Definition setColorFilter (filter : option DlColorFilter) (d : DlDispatcher)
  : DlDispatcher :=
  with_paint (Paint_with_color_filter (ToColorFilter filter) (paint_ d)) d.

Definition setInvertColors (invert : bool) (d : DlDispatcher) : DlDispatcher :=
  with_paint (Paint_with_invert_colors invert (paint_ d)) d.

Definition setBlendMode (dl_mode : DlBlendMode) (d : DlDispatcher)
  : DlDispatcher :=
  with_paint (Paint_with_blend_mode (ToBlendMode dl_mode) (paint_ d)) d.

Definition setPathEffect (effect : option nat) (d : DlDispatcher)
  : DlDispatcher :=
  log [UNIMPLEMENTED "setPathEffect"] d.

Definition setMaskFilter (filter : option DlMaskFilter) (d : DlDispatcher)
  : DlDispatcher :=
  match filter with
  | None => with_paint (Paint_with_mask_blur_descriptor None (paint_ d)) d
  | Some (DlBlurMaskFilter style s) =>
      with_paint
        (Paint_with_mask_blur_descriptor
           (Some {| blur_style := ToBlurStyle style;
                    blur_sigma := Sigma_exact {| sigma := s |} |})
           (paint_ d)) d
  end.

Definition setImageFilter (filter : option DlImageFilter) (d : DlDispatcher)
  : DlDispatcher :=
  with_paint (Paint_with_image_filter (ToImageFilterProc filter) (paint_ d)) d.

Definition save (d : DlDispatcher) : DlDispatcher :=
  with_canvas (Canvas.Save (canvas_ d)) d.

Definition saveLayer (bounds : option SkRect) (options : SaveLayerOptions)
  (backdrop : option DlImageFilter) (d : DlDispatcher) : DlDispatcher :=
  let paint :=
    if renders_with_attributes options then paint_ d else Paint_default in
  with_canvas
    (Canvas.SaveLayer paint (ToRect_opt bounds) (ToImageFilterProc backdrop)
       (canvas_ d)) d.

Definition restore (d : DlDispatcher) : DlDispatcher :=
  with_canvas (snd (Canvas.Restore (canvas_ d))) d.

Definition translate (tx ty : Scalar) (d : DlDispatcher) : DlDispatcher :=
  with_canvas
    (Canvas.Translate {| vx := tx; vy := ty; vz := 0%S |} (canvas_ d)) d.

Definition scale (sx sy : Scalar) (d : DlDispatcher) : DlDispatcher :=
  with_canvas (Canvas.Scale {| vx := sx; vy := sy; vz := 1%S |} (canvas_ d)) d.

Definition rotate (degrees : Scalar) (d : DlDispatcher) : DlDispatcher :=
  with_canvas (Canvas.Rotate {| degrees := degrees |} (canvas_ d)) d.

Definition skew (sx sy : Scalar) (d : DlDispatcher) : DlDispatcher :=
  with_canvas (Canvas.Skew sx sy (canvas_ d)) d.

(** The arguments are row-major; Impeller matrices are column-major. *)
Definition transformFullPerspective
  (mxx mxy mxz mxt myx myy myz myt mzx mzy mzz mzt mwx mwy mwz mwt : Scalar)
  (d : DlDispatcher) : DlDispatcher :=
  let xformation :=
    Build_Matrix
      mxx myx mzx mwx
      mxy myy mzy mwy
      mxz myz mzz mwz
      mxt myt mzt mwt in
  with_canvas (Canvas.Transform xformation (canvas_ d)) d.

Definition transform2DAffine (mxx mxy mxt myx myy myt : Scalar)
  (d : DlDispatcher) : DlDispatcher :=
  transformFullPerspective
    mxx mxy 0%S mxt
    myx myy 0%S myt
    0%S 0%S 1%S 0%S
    0%S 0%S 0%S 1%S d.

Definition transformReset (d : DlDispatcher) : DlDispatcher :=
  let d := with_canvas (Canvas.ResetTransform (canvas_ d)) d in
  with_canvas (Canvas.Transform (initial_matrix_ d) (canvas_ d)) d.

Definition clipRect (rect : SkRect) (clip_op : ClipOp) (is_aa : bool)
  (d : DlDispatcher) : DlDispatcher :=
  with_canvas
    (Canvas.ClipRect (ToRect rect) (ToClipOperation clip_op) (canvas_ d)) d.

Definition clipRRect (rrect : SkRRect) (clip_op : ClipOp) (is_aa : bool)
  (d : DlDispatcher) : DlDispatcher :=
  if rrect_isSimple rrect then
    with_canvas
      (Canvas.ClipRRect (ToRect (rrect_rect rrect))
         (fX (rrect_getSimpleRadii rrect)) (ToClipOperation clip_op)
         (canvas_ d)) d
  else
    with_canvas
      (Canvas.ClipPath (ToPath_RRect rrect) (ToClipOperation clip_op)
         (canvas_ d)) d.

Definition clipPath (path : SkPath) (clip_op : ClipOp) (is_aa : bool)
  (d : DlDispatcher) : DlDispatcher :=
  with_canvas
    (Canvas.ClipPath (ToPath path) (ToClipOperation clip_op) (canvas_ d)) d.

(** ** Draw directives *)

Definition on_canvas (f : Canvas -> Canvas) (d : DlDispatcher) : DlDispatcher :=
  with_canvas (f (canvas_ d)) d.

Definition drawColor (color : DlColor) (dl_mode : DlBlendMode)
  (d : DlDispatcher) : DlDispatcher :=
  let paint := Paint_default in
  let paint := Paint_with_color (ToColor color) paint in
  let paint := Paint_with_blend_mode (ToBlendMode dl_mode) paint in
  on_canvas (Canvas.DrawPaint paint) d.

Definition drawPaint (d : DlDispatcher) : DlDispatcher :=
  on_canvas (Canvas.DrawPaint (paint_ d)) d.

Definition drawLine (p0 p1 : SkPoint) (d : DlDispatcher) : DlDispatcher :=
  let path := TakePath [AddLine (ToPoint p0) (ToPoint p1)] kConvex kNonZero in
  let paint := paint_ d in
  let paint := Paint_with_style kStroke paint in
  on_canvas (Canvas.DrawPath path paint) d.

Definition drawRect (rect : SkRect) (d : DlDispatcher) : DlDispatcher :=
  on_canvas (Canvas.DrawRect (ToRect rect) (paint_ d)) d.

Definition drawOval (bounds : SkRect) (d : DlDispatcher) : DlDispatcher :=
  if Scalar.eqb (SkRect_width bounds) (SkRect_height bounds) then
    on_canvas
      (Canvas.DrawCircle (ToPoint (SkRect_center bounds))
         (SkRect_width bounds * Scalar.ratio 1 2)%S (paint_ d)) d
  else
    let path := TakePath [AddOval (ToRect bounds)] kConvex kNonZero in
    on_canvas (Canvas.DrawPath path (paint_ d)) d.

Definition drawCircle (center : SkPoint) (radius : Scalar) (d : DlDispatcher)
  : DlDispatcher :=
  on_canvas (Canvas.DrawCircle (ToPoint center) radius (paint_ d)) d.

Definition drawRRect (rrect : SkRRect) (d : DlDispatcher) : DlDispatcher :=
  if rrect_isSimple rrect then
    on_canvas
      (Canvas.DrawRRect (ToRect (rrect_rect rrect))
         (fX (rrect_getSimpleRadii rrect)) (paint_ d)) d
  else
    on_canvas (Canvas.DrawPath (ToPath_RRect rrect) (paint_ d)) d.

Definition drawDRRect (outer inner : SkRRect) (d : DlDispatcher)
  : DlDispatcher :=
  let builder := [AddPath (ToPath_RRect outer); AddPath (ToPath_RRect inner)] in
  on_canvas (Canvas.DrawPath (TakePath builder kUnknown kOdd) (paint_ d)) d.

(** [o] when it is there and passes [test]: the conjunction
    [path.isX(&out) && test(out)] of a recogniser and a check on what it
    found. *)
Definition and_then {A} (o : option A) (test : A -> bool) : option A :=
  match o with
  | Some a => if test a then Some a else None
  | None => None
  end.

Definition drawPath (path : SkPath) (d : DlDispatcher) : DlDispatcher :=
  match path_isRect path with
  | Some rect => on_canvas (Canvas.DrawRect (ToRect rect) (paint_ d)) d
  | None =>
      match and_then (path_isRRect path) rrect_isSimple with
      | Some rrect =>
          on_canvas
            (Canvas.DrawRRect (ToRect (rrect_rect rrect))
               (fX (rrect_getSimpleRadii rrect)) (paint_ d)) d
      | None =>
          match and_then (path_isOval path)
                  (fun oval =>
                     Scalar.eqb (SkRect_width oval) (SkRect_height oval)) with
          | Some oval =>
              on_canvas
                (Canvas.DrawCircle (ToPoint (SkRect_center oval))
                   (SkRect_width oval * Scalar.ratio 1 2)%S (paint_ d)) d
          | None => on_canvas (Canvas.DrawPath (ToPath path) (paint_ d)) d
          end
      end
  end.

Definition drawArc (oval_bounds : SkRect) (start_degrees sweep_degrees : Scalar)
  (use_center : bool) (d : DlDispatcher) : DlDispatcher :=
  let builder :=
    [AddArc (ToRect oval_bounds) {| degrees := start_degrees |}
       {| degrees := sweep_degrees |} use_center] in
  on_canvas (Canvas.DrawPath (TakePath builder kUnknown kNonZero) (paint_ d)) d.

(** [for (i = 1; i < count; i += 2)] over [points[i - 1]], [points[i]]. *)
Fixpoint draw_lines (points : list SkPoint) (paint : Paint) (c : Canvas)
  : Canvas :=
  match points with
  | sp0 :: sp1 :: rest =>
      let p0 := ToPoint sp0 in
      let p1 := ToPoint sp1 in
      let path := TakePath [AddLine p0 p1] kUnknown kNonZero in
      draw_lines rest paint (Canvas.DrawPath path paint c)
  | _ => c
  end.

(** [for (i = 1; i < count; i++)] with [p0] the previous point. *)
Fixpoint draw_polygon (p0 : Point) (points : list SkPoint) (paint : Paint)
  (c : Canvas) : Canvas :=
  match points with
  | [] => c
  | sp1 :: rest =>
      let p1 := ToPoint sp1 in
      let path := TakePath [AddLine p0 p1] kUnknown kNonZero in
      draw_polygon p1 rest paint (Canvas.DrawPath path paint c)
  end.

Definition Cap_is_round (c : Cap) : bool :=
  match c with Cap_kRound => true | _ => false end.

Definition drawPoints (mode : PointMode) (count : nat) (points : list SkPoint)
  (d : DlDispatcher) : DlDispatcher :=
  let paint := paint_ d in
  let paint := Paint_with_style kStroke paint in
  let points := firstn count points in
  match mode with
  | kPoints =>
      let point_style :=
        if Cap_is_round (stroke_cap paint) then Point_kRound else Point_kSquare in
      let radius := stroke_width paint in
      let radius :=
        if Scalar.gtb radius 0%S then (radius / Scalar.of_Z 2)%S else radius in
      on_canvas
        (Canvas.DrawPoints (map ToPoint points) radius paint point_style) d
  | kLines => on_canvas (draw_lines points paint) d
  | kPolygon =>
      if Nat.ltb 1 count then
        match points with
        | sp0 :: rest => on_canvas (draw_polygon (ToPoint sp0) rest paint) d
        | [] => d
        end
      else d
  end.

Definition drawVertices (vertices : DlVertices) (dl_mode : DlBlendMode)
  (d : DlDispatcher) : DlDispatcher :=
  on_canvas
    (Canvas.DrawVertices (MakeVertices vertices) (ToBlendMode dl_mode)
       (paint_ d)) d.

Definition drawImageRect (image : DlImage) (src dst : SkRect)
  (sampling : DlImageSampling) (render_with_attributes : bool)
  (constraint : SrcRectConstraint) (d : DlDispatcher) : DlDispatcher :=
  on_canvas
    (Canvas.DrawImageRect
       {| image_texture := impeller_texture image |}
       (ToRect src)
       (ToRect dst)
       (if render_with_attributes then paint_ d else Paint_default)
       (ToSamplerDescriptor sampling)) d.

Definition drawImage (image : option DlImage) (point : SkPoint)
  (sampling : DlImageSampling) (render_with_attributes : bool)
  (d : DlDispatcher) : DlDispatcher :=
  match image with
  | None => d
  | Some image =>
      match impeller_texture image with
      | None => d
      | Some texture =>
          let size := GetSize texture in
          let src :=
            SkRect_MakeWH (Scalar.of_Z (width size))
              (Scalar.of_Z (height size)) in
          let dest :=
            SkRect_MakeXYWH (fX point) (fY point) (Scalar.of_Z (width size))
              (Scalar.of_Z (height size)) in
          drawImageRect image src dest sampling render_with_attributes
            kStrict d
      end
  end.

(** [drawImageNine] makes no canvas call of its own: it hands [&canvas_]
    and [&paint_] to a converter, whatever [render_with_attributes] says.
    What the converter does with them is
    [NinePatchConverter.DrawNinePatch]. *)
Definition drawImageNine (image : DlImage) (center : SkIRect) (dst : SkRect)
  (filter : DlFilterMode) (render_with_attributes : bool) (d : DlDispatcher)
  : DlDispatcher :=
  on_canvas
    (fun canvas =>
       NinePatchConverter.DrawNinePatch
         {| image_texture := impeller_texture image |}
         (Rect_MakeLTRB (Scalar.of_Z (iLeft center))
            (Scalar.of_Z (iTop center)) (Scalar.of_Z (iRight center))
            (Scalar.of_Z (iBottom center)))
         (ToRect dst) (ToSamplerDescriptor_FilterMode filter) canvas
         (paint_ d)) d.

(** Modelled from the spec: [skia_conversions::ToRSXForms] is not part of
    the sources at hand; a rotation-scale-translation as a matrix. *)
Definition ToRSXForm (x : SkRSXform) : Matrix :=
  Build_Matrix (fSCos x) (fSSin x) 0%S 0%S
               (Scalar.opp (fSSin x)) (fSCos x) 0%S 0%S
               0%S 0%S 1%S 0%S
               (fTx x) (fTy x) 0%S 1%S.
Definition ToRSXForms (xform : list SkRSXform) (count : nat) : list Matrix :=
  map ToRSXForm (firstn count xform).

Definition drawAtlas (atlas : DlImage) (xform : list SkRSXform)
  (tex : list SkRect) (colors : option (list DlColor)) (count : nat)
  (mode : DlBlendMode) (sampling : DlImageSampling)
  (cull_rect : option SkRect) (render_with_attributes : bool)
  (d : DlDispatcher) : DlDispatcher :=
  on_canvas
    (Canvas.DrawAtlas {| image_texture := impeller_texture atlas |}
       (ToRSXForms xform count) (ToRects tex count) (ToColors colors count)
       (ToBlendMode mode) (ToSamplerDescriptor sampling) (ToRect_opt cull_rect)
       (paint_ d)) d.

Definition drawTextBlob (blob : SkTextBlob) (x y : Scalar) (d : DlDispatcher)
  : DlDispatcher :=
  match blob_text_frame blob with
  | None => d
  | Some text_frame =>
      if match style (paint_ d) with kStroke => true | kFill => false end
         || negb (ColorSourceType_eqb
                    (ColorSource_GetType (color_source (paint_ d)))
                    Type_kColor)
      then
        let bounds := blob_bounds blob in
        let path :=
          PathDataFromTextBlob blob
            {| px := (x + fLeft bounds)%S; py := (y + fTop bounds)%S |} in
        on_canvas (Canvas.DrawPath path (paint_ d)) d
      else
        on_canvas
          (Canvas.DrawTextFrame text_frame {| px := x; py := y |} (paint_ d)) d
  end.

(** ** Shadows *)

(** [constexpr Scalar kLightRadius = 800 / 600;] - both operands are [int]
    literals, so the quotient is the truncating integer division, converted
    to [Scalar] afterwards. *)
Definition kLightRadius : Scalar := Scalar.of_Z (Z.quot 800 600).

(** The block "Compute the spot color", ported in the source from
    [SkShadowUtils::ComputeTonalColors]; [spot_color] already has its alpha
    multiplied by 0.25. *)
Definition tonal_spot_color (spot_color : Color) : Color :=
  let max :=
    Scalar.max (Scalar.max (red spot_color) (green spot_color))
      (blue spot_color) in
  let min :=
    Scalar.min (Scalar.min (red spot_color) (green spot_color))
      (blue spot_color) in
  let luminance := ((min + max) * Scalar.ratio 1 2)%S in
  let alpha_adjust :=
    ((Scalar.ratio 26 10
      + (Scalar.opp (Scalar.ratio 266667 100000)
         + Scalar.ratio 106667 100000 * alpha spot_color)
        * alpha spot_color)
     * alpha spot_color)%S in
  let color_alpha :=
    ((Scalar.ratio 3544762 1000000
      + (Scalar.opp (Scalar.ratio 4891428 1000000)
         + Scalar.ratio 23466 10000 * luminance) * luminance)
     * luminance)%S in
  let color_alpha := Scalar.clamp (alpha_adjust * color_alpha)%S 0%S 1%S in
  let greyscale_alpha :=
    Scalar.clamp
      (alpha spot_color * (1 - Scalar.ratio 4 10 * luminance))%S 0%S 1%S in
  let color_scale := (color_alpha * (1 - greyscale_alpha))%S in
  let tonal_alpha := (color_scale + greyscale_alpha)%S in
  let unpremul_scale :=
    if Scalar.neqb tonal_alpha 0%S then (color_scale / tonal_alpha)%S
    else 0%S in
  {| red := (unpremul_scale * red spot_color)%S;
     green := (unpremul_scale * green spot_color)%S;
     blue := (unpremul_scale * blue spot_color)%S;
     alpha := tonal_alpha |}.

Definition light_position : Vector3 :=
  {| vx := 0%S; vy := Scalar.opp 1%S; vz := 1%S |}.

(** [Scalar occluder_z = dpr * elevation;] *)
Definition occluder_z (elevation dpr : Scalar) : Scalar := (dpr * elevation)%S.

(** The radius handed to the mask blur of the shadow paint. *)
Definition shadow_blur_radius (elevation dpr : Scalar) (c : Canvas) : Radius :=
  {| radius :=
       (kLightRadius * occluder_z elevation dpr
        / vy (Mat.GetScale (Canvas.GetCurrentTransformation c)))%S |}.

(** The translation pre-concatenated before the occluder is redrawn. *)
Definition shadow_offset (elevation dpr : Scalar) : Vector3 :=
  {| vx := 0%S;
     vy := (Scalar.opp (occluder_z elevation dpr) * vy light_position)%S;
     vz := 0%S |}.

Definition shadow_paint (color : DlColor) (elevation dpr : Scalar) (c : Canvas)
  : Paint :=
  let spot_color := ToColor color in
  let spot_color :=
    {| red := red spot_color; green := green spot_color;
       blue := blue spot_color;
       alpha := (alpha spot_color * Scalar.ratio 1 4)%S |} in
  let spot_color := tonal_spot_color spot_color in
  let paint := Paint_default in
  let paint := Paint_with_style kFill paint in
  let paint := Paint_with_color spot_color paint in
  Paint_with_mask_blur_descriptor
    (Some {| blur_style := Blur_kNormal;
             blur_sigma :=
               Sigma_of_Radius (shadow_blur_radius elevation dpr c) |})
    paint.

Definition drawShadow (path : SkPath) (color : DlColor) (elevation : Scalar)
  (transparent_occluder : bool) (dpr : Scalar) (d : DlDispatcher)
  : DlDispatcher :=
  let paint := shadow_paint color elevation dpr (canvas_ d) in
  let d := on_canvas Canvas.Save d in
  let d :=
    on_canvas
      (Canvas.PreConcat (Mat.MakeTranslation (shadow_offset elevation dpr))) d in
  let d :=
    match path_isRect path with
    | Some rect => on_canvas (Canvas.DrawRect (ToRect rect) paint) d
    | None =>
        match and_then (path_isRRect path) rrect_isSimple with
        | Some rrect =>
            on_canvas
              (Canvas.DrawRRect (ToRect (rrect_rect rrect))
                 (fX (rrect_getSimpleRadii rrect)) paint) d
        | None =>
            match and_then (path_isOval path)
                    (fun oval =>
                       Scalar.eqb (SkRect_width oval) (SkRect_height oval)) with
            | Some oval =>
                on_canvas
                  (Canvas.DrawCircle (ToPoint (SkRect_center oval))
                     (SkRect_width oval * Scalar.ratio 1 2)%S paint) d
            | None => on_canvas (Canvas.DrawPath (ToPath path) paint) d
            end
        end
    end in
  on_canvas (fun c => snd (Canvas.Restore c)) d.

(** ** Nested display lists *)

(** The opening of [drawDisplayList], up to the optional opacity layer: a
    save scope, the current transform as the new baseline, default paint. *)
Definition drawDisplayList_enter (opacity : Scalar) (d : DlDispatcher)
  : DlDispatcher :=
  let d := on_canvas Canvas.Save d in
  let d :=
    with_initial_matrix (Canvas.GetCurrentTransformation (canvas_ d)) d in
  let d := with_paint Paint_default d in
  if Scalar.ltb opacity 1%S then
    let save_paint := Paint_default in
    let save_paint :=
      Paint_with_color
        {| red := 0%S; green := 0%S; blue := 0%S; alpha := opacity |}
        save_paint in
    on_canvas (Canvas.SaveLayer save_paint None None) d
  else d.

(** The replay: [Dispatch cull_rect] stands for
    [display_list->Dispatch( *this, cull_rect)], or for the unconstrained
    [display_list->Dispatch( *this)] when [cull_rect] is [None]. *)
Definition drawDisplayList_replay
  (Dispatch : option SkRect -> DlDispatcher -> DlDispatcher)
  (has_rtree : bool) (d : DlDispatcher) : DlDispatcher :=
  if has_rtree && negb (Mat.HasPerspective (initial_matrix_ d)) then
    let cull_bounds := Canvas.GetCurrentLocalCullingBounds (canvas_ d) in
    match cull_bounds with
    | Some cull_rect =>
        Dispatch
          (Some (SkRect_MakeLTRB (GetLeft cull_rect) (GetTop cull_rect)
                   (GetRight cull_rect) (GetBottom cull_rect))) d
    | None => Dispatch None d
    end
  else Dispatch None d.

(** The closing: the save stack goes back to the recorded count, then the
    two saved members are put back. *)
Definition drawDisplayList_leave (restore_count : nat)
  (saved_initial_matrix : Matrix) (saved_paint : Paint) (d : DlDispatcher)
  : DlDispatcher :=
  let d := on_canvas (Canvas.RestoreToCount restore_count) d in
  let d := with_initial_matrix saved_initial_matrix d in
  with_paint saved_paint d.

Definition drawDisplayList_with
  (Dispatch : option SkRect -> DlDispatcher -> DlDispatcher)
  (has_rtree : bool) (opacity : Scalar) (d : DlDispatcher) : DlDispatcher :=
  let saved_paint := paint_ d in
  let saved_initial_matrix := initial_matrix_ d in
  let restore_count := Canvas.GetSaveCount (canvas_ d) in
  let d := drawDisplayList_enter opacity d in
  let d := drawDisplayList_replay Dispatch has_rtree d in
  drawDisplayList_leave restore_count saved_initial_matrix saved_paint d.

(** ** Replay *)

(** [dispatch op] delivers one directive to the receiver. A nested
    [drawDisplayList] replays the directives of the nested list through the
    same receiver: the inner [fix] is [DisplayList::Dispatch], which hands
    over, in order, the directives [delivered] for the cull rectangle. *)
Fixpoint dispatch (op : DlOp) (d : DlDispatcher) {struct op} : DlDispatcher :=
  match op with
  | Op_setAntiAlias aa => setAntiAlias aa d
  | Op_setDither dither => setDither dither d
  | Op_setDrawStyle style => setDrawStyle style d
  | Op_setColor color => setColor color d
  | Op_setStrokeWidth width => setStrokeWidth width d
  | Op_setStrokeMiter limit => setStrokeMiter limit d
  | Op_setStrokeCap cap => setStrokeCap cap d
  | Op_setStrokeJoin join => setStrokeJoin join d
  | Op_setColorSource source => setColorSource source d
  | Op_setColorFilter filter => setColorFilter filter d
  | Op_setInvertColors invert => setInvertColors invert d
  | Op_setBlendMode dl_mode => setBlendMode dl_mode d
  | Op_setPathEffect effect => setPathEffect effect d
  | Op_setMaskFilter filter => setMaskFilter filter d
  | Op_setImageFilter filter => setImageFilter filter d
  | Op_save => save d
  | Op_saveLayer bounds options backdrop => saveLayer bounds options backdrop d
  | Op_restore => restore d
  | Op_translate tx ty => translate tx ty d
  | Op_scale sx sy => scale sx sy d
  | Op_rotate degrees => rotate degrees d
  | Op_skew sx sy => skew sx sy d
  | Op_transform2DAffine mxx mxy mxt myx myy myt =>
      transform2DAffine mxx mxy mxt myx myy myt d
  | Op_transformFullPerspective mxx mxy mxz mxt myx myy myz myt
      mzx mzy mzz mzt mwx mwy mwz mwt =>
      transformFullPerspective mxx mxy mxz mxt myx myy myz myt
        mzx mzy mzz mzt mwx mwy mwz mwt d
  | Op_transformReset => transformReset d
  | Op_clipRect rect clip_op is_aa => clipRect rect clip_op is_aa d
  | Op_clipRRect rrect clip_op is_aa => clipRRect rrect clip_op is_aa d
  | Op_clipPath path clip_op is_aa => clipPath path clip_op is_aa d
  | Op_drawColor color dl_mode => drawColor color dl_mode d
  | Op_drawPaint => drawPaint d
  | Op_drawLine p0 p1 => drawLine p0 p1 d
  | Op_drawRect rect => drawRect rect d
  | Op_drawOval bounds => drawOval bounds d
  | Op_drawCircle center radius => drawCircle center radius d
  | Op_drawRRect rrect => drawRRect rrect d
  | Op_drawDRRect outer inner => drawDRRect outer inner d
  | Op_drawPath path => drawPath path d
  | Op_drawArc oval_bounds start_degrees sweep_degrees use_center =>
      drawArc oval_bounds start_degrees sweep_degrees use_center d
  | Op_drawPoints mode count points => drawPoints mode count points d
  | Op_drawVertices vertices dl_mode => drawVertices vertices dl_mode d
  | Op_drawImage image point sampling render_with_attributes =>
      drawImage image point sampling render_with_attributes d
  | Op_drawImageRect image src dst sampling render_with_attributes constraint =>
      drawImageRect image src dst sampling render_with_attributes constraint d
  | Op_drawImageNine image center dst filter render_with_attributes =>
      drawImageNine image center dst filter render_with_attributes d
  | Op_drawAtlas atlas xform tex colors count mode sampling cull_rect
      render_with_attributes =>
      drawAtlas atlas xform tex colors count mode sampling cull_rect
        render_with_attributes d
  | Op_drawDisplayList display_list opacity =>
      match display_list with
      | MakeDisplayList ops rtree =>
          drawDisplayList_with
            (fun cull_rect =>
               (fix Dispatch (ops : list DlOp) (i : nat) (d : DlDispatcher)
                  {struct ops} : DlDispatcher :=
                  match ops with
                  | [] => d
                  | op :: rest =>
                      Dispatch rest (S i)
                        (if delivered rtree cull_rect i then dispatch op d
                         else d)
                  end) ops O)
            (match rtree with Some _ => true | None => false end)
            opacity d
      end
  | Op_drawTextBlob blob x y => drawTextBlob blob x y d
  | Op_drawShadow path color elevation transparent_occluder dpr =>
      drawShadow path color elevation transparent_occluder dpr d
  end.

(** Modelled from the spec: [DisplayList::Dispatch] from directive number
    [i] on - the delivered directives, in order, through the receiver. *)
Definition Dispatch_from (rtree : option RTree) (cull_rect : option SkRect)
  : list DlOp -> nat -> DlDispatcher -> DlDispatcher :=
  fix Dispatch (ops : list DlOp) (i : nat) (d : DlDispatcher) {struct ops}
    : DlDispatcher :=
    match ops with
    | [] => d
    | op :: rest =>
        Dispatch rest (S i)
          (if delivered rtree cull_rect i then dispatch op d else d)
    end.

(** Modelled from the spec: [DisplayList::Dispatch], with a cull rectangle
    or, for [None], without one. *)
Definition Dispatch (display_list : DisplayList) (cull_rect : option SkRect)
  (d : DlDispatcher) : DlDispatcher :=
  Dispatch_from (DisplayList_rtree display_list) cull_rect
    (DisplayList_ops display_list) O d.

(** [DlDispatcher::drawDisplayList]. *)
Definition drawDisplayList (display_list : DisplayList) (opacity : Scalar)
  (d : DlDispatcher) : DlDispatcher :=
  drawDisplayList_with (Dispatch display_list) (has_rtree display_list)
    opacity d.

(** Replaying a whole stream on a dispatcher, as the host does. *)
Definition replay (ops : list DlOp) (d : DlDispatcher) : DlDispatcher :=
  fold_left (fun d op => dispatch op d) ops d.

(** [EndRecordingAsPicture]: the picture is what the canvas recorded. *)
Definition EndRecordingAsPicture (d : DlDispatcher) : list CanvasCall :=
  recorded (canvas_ d).

End Dispatcher.

(* ===================================================================== *)
(** * Vocabulary of the statements *)
(* ===================================================================== *)

(** ** Kernels for the examples *)

(** A kernel instance on which the examples are evaluated: any rotation is
    the identity, the culling bounds are the ones the canvas was made
    with, and an image is one patch, its center stretched over the whole
    destination. *)
Definition plain_kernels : CanvasKernels :=
  {| MakeRotationZ := fun _ => Mat.Identity;
     LocalCullingBounds := fun c => initial_cull_rect c;
     NinePatchPatches := fun _ center dst => [(center, dst)] |}.

(** The translation by (5, 7). *)
Definition translation_5_7 : Matrix :=
  Mat.MakeTranslation
    {| vx := Scalar.of_Z 5; vy := Scalar.of_Z 7; vz := 0%S |}.

(** ** Nested replay *)

(** The dispatcher at the moment the nested replay has stopped, before
    anything is put back. *)
Definition after_nested_replay `{CanvasKernels}
  (display_list : DisplayList) (opacity : Scalar)
  (d : DlDispatcher) : DlDispatcher :=
  drawDisplayList_replay (Dispatch display_list) (has_rtree display_list)
    (drawDisplayList_enter opacity d).

(** The save count after a directive, from the save count before it; a
    nested list without unmatched restore leaves it as it was. *)
Definition scope_effect (op : DlOp) (count : nat) : nat :=
  match op with
  | Op_save | Op_saveLayer _ _ _ => S count
  | Op_restore => Nat.max 1 (Nat.pred count)
  | _ => count
  end.

(** A directive has no unmatched restore: it is not a nested list, or in
    the nested list - whatever the cull rectangle of the replay - every
    delivered [restore] closes a scope that a delivered [save] or
    [saveLayer] of the same list opened before it, and every delivered
    directive has no unmatched restore itself. [opened] counts the scopes
    the list has opened and not yet closed. *)
Fixpoint restores_matched_op (op : DlOp) : Prop :=
  match op with
  | Op_drawDisplayList display_list _ =>
      match display_list with
      | MakeDisplayList ops rtree =>
          forall cull_rect : option SkRect,
            (fix matched (ops : list DlOp) (i opened : nat) {struct ops}
               : Prop :=
               match ops with
               | [] => True
               | op :: rest =>
                   if delivered rtree cull_rect i then
                     restores_matched_op op
                     /\ match op with
                        | Op_save | Op_saveLayer _ _ _ =>
                            matched rest (S i) (S opened)
                        | Op_restore =>
                            match opened with
                            | O => False
                            | S n => matched rest (S i) n
                            end
                        | _ => matched rest (S i) opened
                        end
                   else matched rest (S i) opened
               end) ops O O
      end
  | _ => True
  end.

(** The same along a list of directives, from directive number [i] on. *)
Definition restores_matched_from (rtree : option RTree)
  (cull_rect : option SkRect) : list DlOp -> nat -> nat -> Prop :=
  fix matched (ops : list DlOp) (i opened : nat) {struct ops} : Prop :=
    match ops with
    | [] => True
    | op :: rest =>
        if delivered rtree cull_rect i then
          restores_matched_op op
          /\ match op with
             | Op_save | Op_saveLayer _ _ _ => matched rest (S i) (S opened)
             | Op_restore =>
                 match opened with
                 | O => False
                 | S n => matched rest (S i) n
                 end
             | _ => matched rest (S i) opened
             end
        else matched rest (S i) opened
    end.

(** A display list has no unmatched restore. *)
Definition restores_matched (display_list : DisplayList) : Prop :=
  forall cull_rect,
    restores_matched_from (DisplayList_rtree display_list) cull_rect
      (DisplayList_ops display_list) O O.

(** The number of directives of a directive, nested lists included. *)
Fixpoint op_size (op : DlOp) : nat :=
  match op with
  | Op_drawDisplayList display_list _ =>
      match display_list with
      | MakeDisplayList ops _ =>
          S ((fix sizes (ops : list DlOp) : nat :=
                match ops with
                | [] => O
                | op :: rest => (op_size op + sizes rest)%nat
                end) ops)
      end
  | _ => 1%nat
  end.

(** The number of directives of a list, nested lists included. *)
Definition ops_size : list DlOp -> nat :=
  fix sizes (ops : list DlOp) : nat :=
    match ops with
    | [] => O
    | op :: rest => (op_size op + sizes rest)%nat
    end.

(** ** Gradient stops *)

(** The normalizer in the words of its description, on (color, stop)
    pairs: a synthetic first entry when the first stop is not 0.0, the
    pairs themselves, a synthetic last entry when the last stop is not
    1.0. *)
Definition normalized_stops (pairs : list (DlColor * Scalar))
  : list (Color * Scalar) :=
  let first := hd (DlColor_none, S754_nan) pairs in
  let final := last pairs (DlColor_none, S754_nan) in
  (if Scalar.neqb (snd first) 0%S then [(ToColor (fst first), 0%S)] else [])
  ++ map (fun p => (ToColor (fst p), snd p)) pairs
  ++ (if Scalar.neqb (snd final) 1%S then [(ToColor (fst final), 1%S)] else []).

(** The colors and stops a gradient color source ends up with. *)
Definition gradient_stops (s : ColorSource)
  : option (list Color * list Scalar) :=
  match s with
  | MakeLinearGradient _ _ colors stops _ _
  | MakeConicalGradient _ _ colors stops _ _ _ _
  | MakeRadialGradient _ _ colors stops _ _
  | MakeSweepGradient _ _ _ colors stops _ _ => Some (colors, stops)
  | _ => None
  end.

(** ** Image filters *)

(** Composition of two optional procedures in the words of its
    description: absence is the identity element; otherwise inner first,
    its result wrapped as the input of outer. *)
Definition compose_procs (outer inner : option ImageFilterProc)
  : option ImageFilterProc :=
  match outer, inner with
  | None, F => F
  | F, None => F
  | Some outer_filter, Some inner_filter =>
      Some (fun input effect_transform is_subpass =>
              outer_filter
                (FilterInput_Make
                   (inner_filter input effect_transform is_subpass))
                effect_transform is_subpass)
  end.

(** ** Runtime-effect samplers *)

(** A sampler the runtime-effect case accepts: not null, and an image. *)
Definition sampler_is_image (sampler : option DlColorSource) : bool :=
  match sampler with
  | Some source =>
      match asImage source with Some _ => true | None => false end
  | None => false
  end.

(** The first sampler of the list that is null or not an image. *)
Definition first_offender (samplers : list (option DlColorSource))
  : option (option DlColorSource) :=
  find (fun sampler => negb (sampler_is_image sampler)) samplers.

(** What the failure writes to the diagnostics: a line for a sampler that
    is not an image, nothing for a null one. *)
Definition offender_diagnostics (offender : option DlColorSource)
  : list Diagnostic :=
  match offender with
  | Some _ => [UNIMPLEMENTED "setColorSource"]
  | None => []
  end.

Definition texture_input_of (sampler : option DlColorSource)
  : list TextureInput :=
  match sampler with
  | Some (DlImageColorSource image _ _ sampling _) =>
      [{| sampler_descriptor := ToSamplerDescriptor sampling;
          texture := impeller_texture image |}]
  | _ => []
  end.

(** The samplers ahead of the first one that is null or not an image: the
    ones the loop takes a texture from. *)
Fixpoint samplers_before_offender (samplers : list (option DlColorSource))
  : list (option DlColorSource) :=
  match samplers with
  | [] => []
  | sampler :: rest =>
      if sampler_is_image sampler then sampler :: samplers_before_offender rest
      else []
  end.

(** An image sampler whose image has a backing texture. *)
Definition sampler_has_texture (sampler : option DlColorSource) : bool :=
  match sampler with
  | Some (DlImageColorSource image _ _ _ _) =>
      match impeller_texture image with Some _ => true | None => false end
  | _ => false
  end.

(** The assertion of the loop holds wherever the loop gets to: every image
    sampler ahead of the first offender has a texture. *)
Definition textures_present (samplers : list (option DlColorSource)) : bool :=
  forallb sampler_has_texture (samplers_before_offender samplers).

(** What a debug build writes in the loop: the failed check when the
    assertion fails ahead of the end of the loop - the build stops there -
    and otherwise what the exit of the loop writes. *)
Definition sampler_loop_log (samplers : list (option DlColorSource))
  (at_exit : list Diagnostic) : list Diagnostic :=
  if textures_present samplers then at_exit
  else [CHECK_FAILED "image->image()->impeller_texture()"].

(** ** Shapes *)

(** The recognised rounded rect and circle of a path, on the answers of
    the path itself: a rounded rect counts when [isRRect] finds one and it
    is simple, an oval when [isOval] finds one and it is as wide as it is
    high. *)
Definition simple_rrect (path : SkPath) : option SkRRect :=
  match path_isRRect path with
  | Some rrect => if rrect_isSimple rrect then Some rrect else None
  | None => None
  end.
Definition circle (path : SkPath) : option SkRect :=
  match path_isOval path with
  | Some oval =>
      if Scalar.eqb (SkRect_width oval) (SkRect_height oval) then Some oval
      else None
  | None => None
  end.

(** [call] is the primitive for [path] under the priority rect, simple
    rounded rect, circle, general path: each shape is drawn only when the
    ones before it were not recognised, the general path only when none
    was. *)
Definition cheapest_primitive (path : SkPath) (paint : Paint)
  (call : CanvasCall) : Prop :=
  (forall rect,
     path_isRect path = Some rect ->
     call = Call_DrawRect (ToRect rect) paint)
  /\ (forall rrect,
        path_isRect path = None ->
        simple_rrect path = Some rrect ->
        call = Call_DrawRRect (ToRect (rrect_rect rrect))
                 (fX (rrect_getSimpleRadii rrect)) paint)
  /\ (forall oval,
        path_isRect path = None ->
        simple_rrect path = None ->
        circle path = Some oval ->
        call = Call_DrawCircle (ToPoint (SkRect_center oval))
                 (SkRect_width oval * Scalar.ratio 1 2)%S paint)
  /\ (path_isRect path = None ->
      simple_rrect path = None ->
      circle path = None ->
      call = Call_DrawPath (ToPath path) paint).

(** ** Scalars *)

Definition Scalar_is_finite (x : Scalar) : bool :=
  match x with
  | S754_zero _ | S754_finite _ _ _ => true
  | _ => false
  end.

(** ** Directive classes *)

(** The attribute directives: the [set...] methods of the receiver. *)
Definition is_attribute_op (op : DlOp) : bool :=
  match op with
  | Op_setAntiAlias _ | Op_setDither _ | Op_setDrawStyle _ | Op_setColor _
  | Op_setStrokeWidth _ | Op_setStrokeMiter _ | Op_setStrokeCap _
  | Op_setStrokeJoin _ | Op_setColorSource _ | Op_setColorFilter _
  | Op_setInvertColors _ | Op_setBlendMode _ | Op_setPathEffect _
  | Op_setMaskFilter _ | Op_setImageFilter _ => true
  | _ => false
  end.

(** The directives that work on the save stack, the transform or the clip
    of the canvas. *)
Definition is_canvas_state_op (op : DlOp) : bool :=
  match op with
  | Op_save | Op_saveLayer _ _ _ | Op_restore
  | Op_translate _ _ | Op_scale _ _ | Op_rotate _ | Op_skew _ _
  | Op_transform2DAffine _ _ _ _ _ _
  | Op_transformFullPerspective _ _ _ _ _ _ _ _ _ _ _ _ _ _ _ _
  | Op_transformReset
  | Op_clipRect _ _ _ | Op_clipRRect _ _ _ | Op_clipPath _ _ _ => true
  | _ => false
  end.

(** The draw directives that stand for one shape, image or mesh and call
    the canvas themselves. *)
Definition is_single_draw_op (op : DlOp) : bool :=
  match op with
  | Op_drawColor _ _ | Op_drawPaint | Op_drawLine _ _ | Op_drawRect _
  | Op_drawOval _ | Op_drawCircle _ _ | Op_drawRRect _ | Op_drawDRRect _ _
  | Op_drawPath _ | Op_drawArc _ _ _ _ | Op_drawVertices _ _
  | Op_drawImageRect _ _ _ _ _ _
  | Op_drawAtlas _ _ _ _ _ _ _ _ _ | Op_drawShadow _ _ _ _ _ => true
  | _ => false
  end.

(** [l'] is [l] with something appended. *)
Definition extends {A} (l l' : list A) : Prop := exists t, l' = l ++ t.

(** The calls a canvas recorded after it had recorded those of [c]. *)
Definition calls_since (c c' : Canvas) : list CanvasCall :=
  skipn (List.length (recorded c)) (recorded c').

(** The paint a call draws with. *)
Definition call_paint (call : CanvasCall) : option Paint :=
  match call with
  | Call_DrawPaint paint | Call_DrawPath _ paint | Call_DrawRect _ paint
  | Call_DrawRRect _ _ paint | Call_DrawCircle _ _ paint
  | Call_DrawPoints _ _ paint _ | Call_DrawVertices _ _ paint
  | Call_DrawImageRect _ _ _ paint _
  | Call_DrawAtlas _ _ _ _ _ _ _ paint | Call_DrawTextFrame _ _ paint =>
      Some paint
  | Call_SaveLayer paint _ _ => Some paint
  | _ => None
  end.

(** The members of a paint other than its color and its color source. *)
Definition Paint_stroke_and_filters (p : Paint) :=
  (dither p, stroke_width p, stroke_cap p, stroke_join p, stroke_miter p,
   style p, blend_mode p, invert_colors p, image_filter p, color_filter p,
   mask_blur_descriptor p).

(** ** Blend modes *)

(** The display-list blend mode of an Impeller blend mode. *)
Definition FromBlendMode (mode : BlendMode) : DlBlendMode :=
  match mode with
  | kClear => Dl_kClear
  | kSource => Dl_kSrc
  | kDestination => Dl_kDst
  | kSourceOver => Dl_kSrcOver
  | kDestinationOver => Dl_kDstOver
  | kSourceIn => Dl_kSrcIn
  | kDestinationIn => Dl_kDstIn
  | kSourceOut => Dl_kSrcOut
  | kDestinationOut => Dl_kDstOut
  | kSourceATop => Dl_kSrcATop
  | kDestinationATop => Dl_kDstATop
  | kXor => Dl_kXor
  | kPlus => Dl_kPlus
  | kModulate => Dl_kModulate
  | kScreen => Dl_kScreen
  | kOverlay => Dl_kOverlay
  | kDarken => Dl_kDarken
  | kLighten => Dl_kLighten
  | kColorDodge => Dl_kColorDodge
  | kColorBurn => Dl_kColorBurn
  | kHardLight => Dl_kHardLight
  | kSoftLight => Dl_kSoftLight
  | kDifference => Dl_kDifference
  | kExclusion => Dl_kExclusion
  | kMultiply => Dl_kMultiply
  | kHue => Dl_kHue
  | kSaturation => Dl_kSaturation
  | kColor => Dl_kColor
  | kLuminosity => Dl_kLuminosity
  end.

(** ** Image filter descriptors *)

(** Whether a descriptor yields a procedure: a morphology needs radii that
    are not negative, a color filter a filter that is there, a local matrix
    an inner filter that yields one, a composition one side that does. *)
Fixpoint yields_procedure (filter : DlImageFilter) : bool :=
  match filter with
  | DlBlurImageFilter _ _ _ | DlMatrixImageFilter _ _ => true
  | DlDilateImageFilter rx ry | DlErodeImageFilter rx ry =>
      negb (Scalar.ltb rx 0%S || Scalar.ltb ry 0%S)
  | DlComposeImageFilter outer inner =>
      match outer with Some f => yields_procedure f | None => false end
      || match inner with Some f => yields_procedure f | None => false end
  | DlColorFilterImageFilter cf =>
      match cf with Some _ => true | None => false end
  | DlLocalMatrixImageFilter _ inner =>
      match inner with Some f => yields_procedure f | None => false end
  end.

(** Whether a matrix filter occurs in a descriptor. *)
Fixpoint mentions_matrix_filter (filter : DlImageFilter) : bool :=
  match filter with
  | DlMatrixImageFilter _ _ => true
  | DlComposeImageFilter outer inner =>
      match outer with Some f => mentions_matrix_filter f | None => false end
      || match inner with Some f => mentions_matrix_filter f | None => false end
  | DlLocalMatrixImageFilter _ inner =>
      match inner with Some f => mentions_matrix_filter f | None => false end
  | _ => false
  end.

(** Two optional procedures build the same node on every input. *)
Definition same_procedure (p q : option ImageFilterProc) : Prop :=
  match p, q with
  | None, None => True
  | Some f, Some g =>
      forall input effect_transform is_subpass,
        f input effect_transform is_subpass
        = g input effect_transform is_subpass
  | _, _ => False
  end.

(** ** The save stack as a whole *)

(** The scopes of a canvas, the current one first. *)
Definition save_stack (c : Canvas) : list CanvasStackEntry :=
  current c :: below c.

(** The saved scopes after a directive, from the canvas before it: a save
    puts the current scope on top of them, a restore takes the top one
    away, anything else - a nested list without unmatched restore
    included - leaves them. *)
Definition below_effect (op : DlOp) (c : Canvas) : list CanvasStackEntry :=
  match op with
  | Op_save | Op_saveLayer _ _ _ => current c :: below c
  | Op_restore => tl (below c)
  | _ => below c
  end.

(** The dispatcher has only added to what [d] had recorded and logged. *)
Definition continues (d d' : DlDispatcher) : Prop :=
  extends (recorded (canvas_ d)) (recorded (canvas_ d'))
  /\ extends (diagnostics d) (diagnostics d')
  /\ initial_cull_rect (canvas_ d') = initial_cull_rect (canvas_ d).

(** The opacity layer of a nested list: the [SaveLayer] call for an
    opacity below one, nothing otherwise. *)
Definition opacity_layer (opacity : Scalar) : list CanvasCall :=
  if Scalar.ltb opacity 1%S then
    [Call_SaveLayer
       (Paint_with_color
          {| red := 0%S; green := 0%S; blue := 0%S; alpha := opacity |}
          Paint_default) None None]
  else [].

(** A directive that neither opens nor closes a scope of its own: not a
    save, a layer or a restore, and - when it is a nested list - a list
    without unmatched restore. *)
Definition keeps_scopes (op : DlOp) : Prop :=
  match op with
  | Op_save | Op_saveLayer _ _ _ | Op_restore => False
  | _ => restores_matched_op op
  end.

(* ===================================================================== *)
(** * Properties *)
(* ===================================================================== *)

(** ** The save stack *)

Lemma GetSaveCount_pos (c : Canvas) : (1 <= Canvas.GetSaveCount c)%nat.
Proof. unfold Canvas.GetSaveCount. lia. Qed.

Lemma GetSaveCount_Save (c : Canvas) :
  Canvas.GetSaveCount (Canvas.Save c) = S (Canvas.GetSaveCount c).
Proof. reflexivity. Qed.

Lemma GetSaveCount_SaveLayer paint bounds backdrop (c : Canvas) :
  Canvas.GetSaveCount (Canvas.SaveLayer paint bounds backdrop c)
  = S (Canvas.GetSaveCount c).
Proof. reflexivity. Qed.

Lemma GetSaveCount_Restore (c : Canvas) :
  Canvas.GetSaveCount (snd (Canvas.Restore c))
  = Nat.max 1 (Nat.pred (Canvas.GetSaveCount c)).
Proof.
  unfold Canvas.Restore, Canvas.GetSaveCount.
  destruct c as [cur bel cull rec]; cbn.
  destruct bel as [|e rest]; cbn; lia.
Qed.

(** The loop of [RestoreToCount] runs to its exit when it is given as many
    rounds as there are scopes: it stops at [count] scopes, or at the base
    scope, or at once when the stack is not deeper than [count]. *)
Lemma GetSaveCount_RestoreToCount_loop (count fuel : nat) :
  forall c : Canvas,
    (List.length (below c) <= fuel)%nat ->
    Canvas.GetSaveCount (Canvas.RestoreToCount_loop fuel count c)
    = if Nat.ltb count (Canvas.GetSaveCount c) then Nat.max count 1
      else Canvas.GetSaveCount c.
Proof.
  induction fuel as [|fuel IH]; intros c Hfuel.
  - destruct c as [cur bel cull rec].
    destruct bel as [|e rest]; [|cbn in Hfuel; lia].
    destruct count; reflexivity.
  - cbn [Canvas.RestoreToCount_loop].
    destruct (Nat.ltb count (Canvas.GetSaveCount c)) eqn:Hlt; [|reflexivity].
    apply Nat.ltb_lt in Hlt.
    destruct c as [cur bel cull rec].
    destruct bel as [|e rest].
    + unfold Canvas.GetSaveCount in Hlt. cbn in Hlt.
      destruct count; [reflexivity|lia].
    + change (Canvas.Restore
                {| current := cur; below := e :: rest;
                   initial_cull_rect := cull; recorded := rec |})
        with (true,
              {| current := e; below := rest; initial_cull_rect := cull;
                 recorded := rec ++ [Call_Restore] |}).
      cbv iota beta.
      rewrite IH by (cbn in Hfuel |- *; lia).
      unfold Canvas.GetSaveCount in Hlt |- *. cbn [below] in Hlt |- *.
      cbn [List.length] in Hlt.
      destruct (Nat.ltb count (S (List.length rest))) eqn:Hlt'.
      * reflexivity.
      * apply Nat.ltb_ge in Hlt'. lia.
Qed.

Lemma GetSaveCount_RestoreToCount (count : nat) (c : Canvas) :
  (1 <= count)%nat ->
  Canvas.GetSaveCount (Canvas.RestoreToCount count c)
  = Nat.min count (Canvas.GetSaveCount c).
Proof.
  intros Hcount. unfold Canvas.RestoreToCount.
  rewrite GetSaveCount_RestoreToCount_loop
    by (unfold Canvas.GetSaveCount; lia).
  destruct (Nat.ltb count (Canvas.GetSaveCount c)) eqn:Hlt.
  - apply Nat.ltb_lt in Hlt. lia.
  - apply Nat.ltb_ge in Hlt. lia.
Qed.

(** ** Nested replay: what [drawDisplayList] puts back *)

Section SaveRestoreBalance.

Context `{CanvasKernels}.

(** A nested [drawDisplayList] directive is [drawDisplayList]. *)
Lemma dispatch_drawDisplayList display_list opacity d :
  dispatch (Op_drawDisplayList display_list opacity) d
  = drawDisplayList display_list opacity d.
Proof. destruct display_list as [ops rtree]. reflexivity. Qed.

(** What [drawDisplayList] puts back, whatever was replayed. *)
Lemma drawDisplayList_puts_back
  (display_list : DisplayList) (opacity : Scalar) (d : DlDispatcher) :
  paint_ (drawDisplayList display_list opacity d) = paint_ d
  /\ initial_matrix_ (drawDisplayList display_list opacity d)
     = initial_matrix_ d
  /\ canvas_ (drawDisplayList display_list opacity d)
     = Canvas.RestoreToCount (Canvas.GetSaveCount (canvas_ d))
         (canvas_ (after_nested_replay display_list opacity d))
  /\ Canvas.GetSaveCount (canvas_ (drawDisplayList display_list opacity d))
     = Nat.min (Canvas.GetSaveCount (canvas_ d))
         (Canvas.GetSaveCount
            (canvas_ (after_nested_replay display_list opacity d))).
Proof.
  assert (Hcanvas :
    canvas_ (drawDisplayList display_list opacity d)
    = Canvas.RestoreToCount (Canvas.GetSaveCount (canvas_ d))
        (canvas_ (after_nested_replay display_list opacity d)))
    by reflexivity.
  repeat split; try reflexivity.
  rewrite Hcanvas. apply GetSaveCount_RestoreToCount, GetSaveCount_pos.
Qed.

Ltac split_matches :=
  repeat match goal with
         | |- context [match ?x with _ => _ end] => destruct x
         end.

Notation count d := (Canvas.GetSaveCount (canvas_ d)).

Lemma count_setColorSource source d :
  count (setColorSource source d) = count d.
Proof.
  unfold setColorSource.
  destruct source as [source|]; [|reflexivity].
  destruct (ToColorSourceType (DlColorSource_type source)); [|reflexivity].
  destruct source; try reflexivity;
    try (destruct (ConvertStops _ _ _); reflexivity).
  destruct (runtime_effect_texture_inputs _ _ _) as [logged [texture_inputs|]]; reflexivity.
Qed.

(** The nine-patch converter draws and does nothing else: the save stack
    and the culling bounds of the canvas stay. *)
Lemma DrawNinePatch_keeps_the_stack image center dst sampler paint c :
  current (NinePatchConverter.DrawNinePatch image center dst sampler c paint)
  = current c
  /\ below (NinePatchConverter.DrawNinePatch image center dst sampler c paint)
     = below c
  /\ initial_cull_rect
       (NinePatchConverter.DrawNinePatch image center dst sampler c paint)
     = initial_cull_rect c.
Proof.
  unfold NinePatchConverter.DrawNinePatch.
  generalize (NinePatchPatches image center dst). intros patches.
  revert c. induction patches as [|[source dest] rest IH]; intros c.
  - repeat split.
  - cbn [fold_left]. destruct (IH (Canvas.DrawImageRect image source dest
                                       paint sampler c)) as (Hc & Hb & Hi).
    rewrite Hc, Hb, Hi. repeat split.
Qed.

Lemma below_draw_lines paint : forall n points c,
  (List.length points <= n)%nat ->
  below (draw_lines points paint c) = below c.
Proof.
  induction n as [|n IH]; intros points c Hn.
  - destruct points; [reflexivity|cbn in Hn; lia].
  - destruct points as [|p0 [|p1 rest]]; try reflexivity.
    cbn [draw_lines]. rewrite IH by (cbn in Hn; lia). reflexivity.
Qed.

Lemma below_draw_polygon paint : forall points p0 c,
  below (draw_polygon p0 points paint c) = below c.
Proof.
  induction points as [|p1 rest IH]; intros p0 c; [reflexivity|].
  cbn [draw_polygon]. rewrite IH. reflexivity.
Qed.

Lemma count_flat (op : DlOp) (d : DlDispatcher) :
  (forall dl o, op <> Op_drawDisplayList dl o) ->
  count (dispatch op d) = scope_effect op (count d).
Proof.
  intros Hflat.
  destruct op; cbn [dispatch scope_effect];
    try apply count_setColorSource;
    try exact (GetSaveCount_Restore (canvas_ d));
    try reflexivity.
  all: try (unfold setDrawStyle; destruct (ToStyle _); reflexivity).
  all: try (unfold setStrokeCap; destruct cap; reflexivity).
  all: try (unfold setStrokeJoin; destruct join; reflexivity).
  all: try (unfold setMaskFilter; destruct filter as [[]|]; reflexivity).
  all: try (unfold clipRRect; destruct (rrect_isSimple _); reflexivity).
  all: try (unfold drawOval; destruct (Scalar.eqb _ _); reflexivity).
  all: try (unfold drawRRect; destruct (rrect_isSimple _); reflexivity).
  - unfold drawPath. split_matches; reflexivity.
  - unfold drawPoints, Canvas.GetSaveCount. cbv zeta.
    destruct mode; [reflexivity| |].
    + cbn [on_canvas canvas_ with_canvas].
      now rewrite below_draw_lines
        with (n := List.length (firstn count points)) by lia.
    + destruct (Nat.ltb 1 count); [|reflexivity].
      destruct (firstn count points); [reflexivity|].
      cbn [on_canvas canvas_ with_canvas].
      now rewrite below_draw_polygon.
  - unfold drawImage. split_matches; reflexivity.
  - unfold drawImageNine, Canvas.GetSaveCount.
    cbn [on_canvas canvas_ with_canvas].
    now rewrite (proj1 (proj2 (DrawNinePatch_keeps_the_stack _ _ _ _ _ _))).
  - exfalso. eapply Hflat. reflexivity.
  - unfold drawTextBlob. split_matches; reflexivity.
  - unfold drawShadow. cbv zeta. split_matches; reflexivity.
Qed.

Lemma count_drawDisplayList_enter opacity d :
  (S (count d) <= count (drawDisplayList_enter opacity d))%nat.
Proof.
  unfold drawDisplayList_enter. cbv zeta.
  destruct (Scalar.ltb opacity 1%S);
    cbn [on_canvas with_canvas with_paint with_initial_matrix canvas_];
    rewrite ?GetSaveCount_SaveLayer, GetSaveCount_Save; lia.
Qed.

Lemma scope_effect_matched_list (n : nat) rtree cull_rect :
  (forall op d,
     (op_size op <= n)%nat -> restores_matched_op op ->
     count (dispatch op d) = scope_effect op (count d)) ->
  forall ops i opened d,
    (ops_size ops <= n)%nat ->
    restores_matched_from rtree cull_rect ops i opened ->
    (opened < count d)%nat ->
    (count d - opened <= count (Dispatch_from rtree cull_rect ops i d))%nat.
Proof.
  intros IHn.
  induction ops as [|op rest IH]; intros i opened d Hsize Hm Hopen.
  - cbn [Dispatch_from]. lia.
  - cbn [Dispatch_from]. fold (Dispatch_from rtree cull_rect).
    cbn [restores_matched_from] in Hm.
    fold (restores_matched_from rtree cull_rect) in Hm.
    cbn [ops_size] in Hsize. fold ops_size in Hsize.
    destruct (delivered rtree cull_rect i).
    + destruct Hm as [Hop Hrest].
      assert (Hcount := IHn op d ltac:(lia) Hop).
      destruct op; cbn [scope_effect] in Hcount;
        try (specialize (IH (S i) opened _ ltac:(lia) Hrest
                           ltac:(rewrite Hcount; exact Hopen));
             rewrite Hcount in IH; exact IH).
      * specialize (IH (S i) (S opened) _ ltac:(lia) Hrest
                      ltac:(rewrite Hcount; lia)).
        rewrite Hcount in IH. lia.
      * specialize (IH (S i) (S opened) _ ltac:(lia) Hrest
                      ltac:(rewrite Hcount; lia)).
        rewrite Hcount in IH. lia.
      * destruct opened as [|opened']; [contradiction|].
        specialize (IH (S i) opened' _ ltac:(lia) Hrest
                      ltac:(rewrite Hcount; lia)).
        rewrite Hcount in IH. lia.
    + apply IH; [lia|exact Hm|exact Hopen].
Qed.

Lemma op_size_pos (op : DlOp) : (1 <= op_size op)%nat.
Proof. destruct op; cbn; try lia. destruct display_list. lia. Qed.

Lemma scope_effect_matched (n : nat) :
  forall op d,
    (op_size op <= n)%nat -> restores_matched_op op ->
    count (dispatch op d) = scope_effect op (count d).
Proof.
  induction n as [|n IHn]; intros op d Hsize Hm.
  - pose proof (op_size_pos op). lia.
  - destruct op;
      try (apply count_flat; intros dl o; discriminate).
    destruct display_list as [ops rtree].
    change (dispatch (Op_drawDisplayList (MakeDisplayList ops rtree) opacity) d)
      with (drawDisplayList (MakeDisplayList ops rtree) opacity d).
    cbn [scope_effect].
    destruct (drawDisplayList_puts_back (MakeDisplayList ops rtree) opacity d)
      as (_ & _ & _ & Hcount).
    rewrite Hcount. apply Nat.min_l.
    assert (Hsize' : (ops_size ops <= n)%nat).
    { cbn [op_size] in Hsize. fold ops_size in Hsize. lia. }
    assert (Hinner : forall cull_rect,
      (S (count d)
       <= count (Dispatch (MakeDisplayList ops rtree) cull_rect
                   (drawDisplayList_enter opacity d)))%nat).
    { intros cull_rect.
      pose proof (count_drawDisplayList_enter opacity d) as Henter.
      pose proof (@scope_effect_matched_list n rtree cull_rect IHn ops O O
                    (drawDisplayList_enter opacity d) Hsize'
                    (Hm cull_rect) ltac:(lia)) as Hq.
      unfold Dispatch. cbn [DisplayList_rtree DisplayList_ops]. lia. }
    unfold after_nested_replay, drawDisplayList_replay.
    split_matches; (eapply Nat.le_trans; [|apply Hinner]); lia.
Qed.

(** A nested list without unmatched restore leaves the save count of its
    caller as it was. *)
Lemma restores_matched_save_count
  (display_list : DisplayList) (opacity : Scalar) (d : DlDispatcher) :
  restores_matched display_list ->
  count (drawDisplayList display_list opacity d) = count d.
Proof.
  intros Hm.
  rewrite <- dispatch_drawDisplayList.
  apply (@scope_effect_matched
           (op_size (Op_drawDisplayList display_list opacity))
           (Op_drawDisplayList display_list opacity) d (le_n _)).
  destruct display_list as [ops rtree]. exact Hm.
Qed.

End SaveRestoreBalance.

(** C1 at a failing input. The caller has opened a scope and translated by
    (5, 7) in it: save count 2. It calls [drawDisplayList] with the nested
    directives [restore; restore] and opacity 1. The first [restore] closes
    the scope that [drawDisplayList] opened itself, the second one closes
    the scope of the caller; [RestoreToCount], which only ever closes
    scopes, finds the save count 1 below the recorded 2 and does nothing.
    [drawDisplayList] returns at save count 1 and with the identity as the
    current transform: the save count is not the one before the call, and
    the scope of the caller and its translation are gone. The paint and the
    initial matrix are put back. *)
Theorem drawDisplayList_unmatched_restore_drops_caller_scope :
  let K := plain_kernels in
  let dl := MakeDisplayList [Op_restore; Op_restore] None in
  let d :=
    translate (Scalar.of_Z 5) (Scalar.of_Z 7) (save (DlDispatcher_new None)) in
  let d' := drawDisplayList dl 1%S d in
  Canvas.GetSaveCount (canvas_ d) = 2%nat
  /\ Canvas.GetCurrentTransformation (canvas_ d) = translation_5_7
  /\ Canvas.GetSaveCount (canvas_ (after_nested_replay dl 1%S d)) = 1%nat
  /\ Canvas.GetSaveCount (canvas_ d') = 1%nat
  /\ Canvas.GetSaveCount (canvas_ d') <> Canvas.GetSaveCount (canvas_ d)
  /\ Canvas.GetCurrentTransformation (canvas_ d') = Mat.Identity
  /\ save_stack (canvas_ d') <> save_stack (canvas_ d)
  /\ paint_ d' = paint_ d
  /\ initial_matrix_ d' = initial_matrix_ d.
Proof.
  cbv zeta.
  split; [reflexivity|]. split; [vm_compute; reflexivity|].
  split; [reflexivity|]. split; [reflexivity|].
  split; [vm_compute; congruence|]. split; [vm_compute; reflexivity|].
  split; [|split; reflexivity].
  intros E. apply (f_equal (@List.length _)) in E. vm_compute in E.
  discriminate E.
Qed.

(** An unmatched restore alone does not do it: a single [restore] closes
    the scope that [drawDisplayList] opened itself, and the caller keeps
    its own. *)
Example drawDisplayList_absorbs_one_unmatched_restore :
  let K := plain_kernels in
  let dl := MakeDisplayList [Op_restore] None in
  let d :=
    translate (Scalar.of_Z 5) (Scalar.of_Z 7) (save (DlDispatcher_new None)) in
  save_stack (canvas_ (drawDisplayList dl 1%S d)) = save_stack (canvas_ d).
Proof. cbv zeta. vm_compute. reflexivity. Qed.

(** ** Gradient stops *)

Lemma skipn_nth_cons {A} (d : A) :
  forall (l : list A) (i : nat),
    (i < List.length l)%nat -> skipn i l = nth i l d :: skipn (S i) l.
Proof.
  induction l as [|a l IH]; intros i Hi; cbn in Hi; [lia|].
  destruct i as [|i]; [reflexivity|].
  cbn [skipn nth]. apply IH. lia.
Qed.

(** The copying loop of [ConvertStops], from index [i] for [n] rounds. *)
Lemma ConvertStops_loop (dl_colors : list DlColor) (dl_stops : list Scalar) :
  forall (n i : nat) (colors : list Color) (stops : list Scalar),
    (i + n <= List.length dl_colors)%nat ->
    (i + n <= List.length dl_stops)%nat ->
    fold_left
      (fun '(colors, stops) i =>
         (colors ++ [ToColor (nth i dl_colors DlColor_none)],
          stops ++ [nth i dl_stops S754_nan]))
      (seq i n) (colors, stops)
    = (colors ++ map ToColor (firstn n (skipn i dl_colors)),
       stops ++ firstn n (skipn i dl_stops)).
Proof.
  induction n as [|n IH]; intros i colors stops Hc Hs.
  - cbn. now rewrite !app_nil_r.
  - cbn [seq fold_left].
    rewrite IH by lia.
    rewrite (skipn_nth_cons DlColor_none dl_colors (i := i)) by lia.
    rewrite (skipn_nth_cons S754_nan dl_stops (i := i)) by lia.
    cbn [firstn map]. now rewrite <- !app_assoc.
Qed.

Lemma last_map {A B} (f : A -> B) (d : A) :
  forall l : list A, l <> [] -> forall d', last (map f l) d' = f (last l d).
Proof.
  induction l as [|a l IH]; intros Hne d'; [congruence|].
  destruct l as [|b l]; [reflexivity|].
  change (last (map f (b :: l)) d' = f (last (b :: l) d)).
  apply IH. discriminate.
Qed.

Lemma last_app_nonempty {A} (l1 l2 : list A) (d : A) :
  l2 <> [] -> last (l1 ++ l2) d = last l2 d.
Proof.
  intros Hne. induction l1 as [|a l1 IH]; [reflexivity|].
  rewrite <- IH. cbn [app].
  destruct (l1 ++ l2) eqn:E; [|reflexivity].
  apply app_eq_nil in E. destruct E; congruence.
Qed.

(** [ConvertStops] on empty vectors, in closed form. *)
Lemma ConvertStops_closed_form (g : DlGradient) :
  (1 <= stop_count g)%nat ->
  List.length (dl_colors g) = stop_count g ->
  List.length (dl_stops g) = stop_count g ->
  ConvertStops g [] []
  = let pre := Scalar.neqb (nth 0 (dl_stops g) S754_nan) 0%S in
    let post := Scalar.neqb (last (dl_stops g) S754_nan) 1%S in
    ((if pre then [ToColor (nth 0 (dl_colors g) DlColor_none)] else [])
     ++ map ToColor (dl_colors g)
     ++ (if post then [ToColor (last (dl_colors g) DlColor_none)] else []),
     (if pre then [0%S] else []) ++ dl_stops g
     ++ (if post then [1%S] else [])).
Proof.
  intros Hn Hc Hs. unfold ConvertStops. cbv zeta.
  set (pre := Scalar.neqb (nth 0 (dl_stops g) S754_nan) 0%S).
  assert (Hloop : forall colors stops,
    fold_left
      (fun '(colors, stops) i =>
         (colors ++ [ToColor (nth i (dl_colors g) DlColor_none)],
          stops ++ [nth i (dl_stops g) S754_nan]))
      (seq 0 (stop_count g)) (colors, stops)
    = (colors ++ map ToColor (dl_colors g), stops ++ dl_stops g)).
  { intros colors stops.
    rewrite ConvertStops_loop by lia. cbn [skipn].
    rewrite <- Hc at 1. rewrite <- Hs at 1. now rewrite !firstn_all. }
  assert (Hsne : dl_stops g <> []).
  { intros E. rewrite E in Hs. cbn in Hs. lia. }
  assert (Hcne : dl_colors g <> []).
  { intros E. rewrite E in Hc. cbn in Hc. lia. }
  assert (Hmne : map ToColor (dl_colors g) <> []).
  { intros E. apply map_eq_nil in E. congruence. }
  destruct pre; rewrite Hloop; unfold back;
    rewrite !last_app_nonempty by assumption;
    rewrite (last_map ToColor DlColor_none Hcne);
    destruct (Scalar.neqb (last (dl_stops g) S754_nan) 1%S);
    cbn [app]; rewrite ?app_nil_r, <- ?app_assoc; reflexivity.
Qed.

Lemma combine_app {A B} :
  forall (l1 l1' : list A) (l2 l2' : list B),
    List.length l1 = List.length l2 ->
    combine (l1 ++ l1') (l2 ++ l2') = combine l1 l2 ++ combine l1' l2'.
Proof.
  induction l1 as [|a l1 IH]; intros l1' l2 l2' Hlen;
    destruct l2 as [|b l2]; cbn in Hlen; try discriminate; [reflexivity|].
  cbn. f_equal. apply IH. lia.
Qed.

Lemma combine_map_fst {A B C} (f : A -> C) :
  forall (l1 : list A) (l2 : list B),
    combine (map f l1) l2 = map (fun p => (f (fst p), snd p)) (combine l1 l2).
Proof.
  induction l1 as [|a l1 IH]; intros [|b l2]; cbn; try reflexivity.
  f_equal. apply IH.
Qed.

Lemma hd_combine {A B} (da : A) (db : B) :
  forall (l1 : list A) (l2 : list B),
    List.length l1 = List.length l2 ->
    hd (da, db) (combine l1 l2) = (nth 0 l1 da, nth 0 l2 db).
Proof. intros [|a l1] [|b l2] Hlen; cbn in *; congruence. Qed.

Lemma last_combine {A B} (da : A) (db : B) :
  forall (l1 : list A) (l2 : list B),
    List.length l1 = List.length l2 ->
    last (combine l1 l2) (da, db) = (last l1 da, last l2 db).
Proof.
  induction l1 as [|a l1 IH]; intros [|b l2] Hlen; cbn in Hlen;
    try discriminate; [reflexivity|].
  destruct l1 as [|a' l1], l2 as [|b' l2]; cbn in Hlen; try discriminate;
    [reflexivity|].
  change (last (combine (a' :: l1) (b' :: l2)) (da, db)
          = (last (a' :: l1) da, last (b' :: l2) db)).
  apply IH. cbn. lia.
Qed.

(** C2. For a gradient of at least two (color, stop) pairs, [ConvertStops]
    yields the normalized list: a synthetic (first color, 0.0) in front
    exactly when the first stop is not 0.0, every pair, a synthetic (last
    color, 1.0) at the end exactly when the last stop is not 1.0. The
    output starts at 0.0 and ends at 1.0, is at least as long as the
    input, is the input itself when that is normalized already, and is
    what [setColorSource] stores for each of the four gradient kinds. *)
Theorem ConvertStops_normalizes (g : DlGradient) :
  (2 <= stop_count g)%nat ->
  List.length (dl_colors g) = stop_count g ->
  List.length (dl_stops g) = stop_count g ->
  let colors := fst (ConvertStops g [] []) in
  let stops := snd (ConvertStops g [] []) in
  (* the algorithm *)
  List.length colors = List.length stops
  /\ combine colors stops
     = normalized_stops (combine (dl_colors g) (dl_stops g))
  (* starts at 0.0, ends at 1.0, no shorter than the input *)
  /\ Scalar.eqb (hd S754_nan stops) 0%S = true
  /\ Scalar.eqb (last stops S754_nan) 1%S = true
  /\ (stop_count g <= List.length stops)%nat
  (* already normalized: unchanged *)
  /\ (Scalar.eqb (nth 0 (dl_stops g) S754_nan) 0%S = true ->
      Scalar.eqb (last (dl_stops g) S754_nan) 1%S = true ->
      colors = map ToColor (dl_colors g) /\ stops = dl_stops g)
  (* the four gradient kinds *)
  /\ (forall d p0 p1 tm m,
        gradient_stops
          (color_source
             (paint_
                (setColorSource
                   (Some (DlLinearGradientColorSource p0 p1 g tm m)) d)))
        = Some (colors, stops))
  /\ (forall d c r tm m,
        gradient_stops
          (color_source
             (paint_
                (setColorSource
                   (Some (DlRadialGradientColorSource c r g tm m)) d)))
        = Some (colors, stops))
  /\ (forall d c0 r0 c1 r1 tm m,
        gradient_stops
          (color_source
             (paint_
                (setColorSource
                   (Some (DlConicalGradientColorSource c0 r0 c1 r1 g tm m))
                   d)))
        = Some (colors, stops))
  /\ (forall d c a0 a1 tm m,
        gradient_stops
          (color_source
             (paint_
                (setColorSource
                   (Some (DlSweepGradientColorSource c a0 a1 g tm m)) d)))
        = Some (colors, stops)).
Proof.
  intros Hn Hc Hs. cbv zeta.
  assert (Hsne : dl_stops g <> []).
  { intros E. rewrite E in Hs. cbn in Hs. lia. }
  assert (Hlen : List.length (dl_colors g) = List.length (dl_stops g))
    by congruence.
  rewrite (ConvertStops_closed_form g) by (try assumption; lia).
  cbv zeta. cbn [fst snd].
  set (pre := Scalar.neqb (nth 0 (dl_stops g) S754_nan) 0%S).
  set (post := Scalar.neqb (last (dl_stops g) S754_nan) 1%S).
  repeat match goal with |- _ /\ _ => split end.
  - rewrite !length_app, length_map, Hlen.
    destruct pre, post; reflexivity.
  - unfold normalized_stops. cbv zeta.
    rewrite (hd_combine DlColor_none S754_nan _ _ Hlen).
    rewrite (last_combine DlColor_none S754_nan _ _ Hlen).
    cbn [fst snd]. fold pre post.
    rewrite combine_app by (destruct pre; reflexivity).
    rewrite combine_app by (rewrite length_map; exact Hlen).
    rewrite combine_map_fst.
    destruct pre, post; reflexivity.
  - unfold pre. destruct (dl_stops g) as [|s0 rest]; [congruence|].
    cbn [nth]. unfold Scalar.neqb.
    destruct (SFeqb s0 0%S) eqn:E; cbn; [exact E|reflexivity].
  - rewrite app_assoc.
    unfold post, Scalar.neqb.
    destruct (SFeqb (last (dl_stops g) S754_nan) 1%S) eqn:E; cbn [negb].
    + rewrite app_nil_r. rewrite last_app_nonempty by assumption. exact E.
    + rewrite last_app_nonempty by discriminate. reflexivity.
  - rewrite !length_app, Hs. lia.
  - intros H0 H1. unfold pre, post, Scalar.neqb, Scalar.eqb in *.
    rewrite H0, H1. cbn. now rewrite !app_nil_r.
  - intros. cbn.
    rewrite (ConvertStops_closed_form g) by (try assumption; lia).
    reflexivity.
  - intros. cbn.
    rewrite (ConvertStops_closed_form g) by (try assumption; lia).
    reflexivity.
  - intros. cbn.
    rewrite (ConvertStops_closed_form g) by (try assumption; lia).
    reflexivity.
  - intros. cbn.
    rewrite (ConvertStops_closed_form g) by (try assumption; lia).
    reflexivity.
Qed.

Lemma ConvertStops_normalizes_witness :
  let g :=
    {| stop_count := 2;
       dl_colors := [DlColor_none; DlColor_none];
       dl_stops := [Scalar.ratio 1 4; Scalar.ratio 1 2] |} in
  ((2 <= stop_count g)%nat
   /\ List.length (dl_colors g) = stop_count g
   /\ List.length (dl_stops g) = stop_count g)
  /\ Scalar.eqb (hd S754_nan (snd (ConvertStops g [] []))) 0%S = true
  /\ Scalar.eqb (last (snd (ConvertStops g [] [])) S754_nan) 1%S = true
  /\ (stop_count g <= List.length (snd (ConvertStops g [] [])))%nat.
Proof.
  cbv zeta.
  set (g := {| stop_count := 2;
               dl_colors := [DlColor_none; DlColor_none];
               dl_stops := [Scalar.ratio 1 4; Scalar.ratio 1 2] |}).
  assert (H1 : (2 <= stop_count g)%nat) by (cbn; lia).
  assert (H2 : List.length (dl_colors g) = stop_count g) by reflexivity.
  assert (H3 : List.length (dl_stops g) = stop_count g) by reflexivity.
  destruct (@ConvertStops_normalizes g H1 H2 H3)
    as (_ & _ & Hhd & Hlast & Hlen & _).
  repeat split; assumption.
Defined.

(** A gradient from 0.25 to 0.5 gains both synthetic entries. *)
Example ConvertStops_pads_both_ends :
  snd (ConvertStops
         {| stop_count := 2;
            dl_colors := [DlColor_none; DlColor_none];
            dl_stops := [Scalar.ratio 1 4; Scalar.ratio 1 2] |} [] [])
  = [0%S; Scalar.ratio 1 4; Scalar.ratio 1 2; 1%S].
Proof. vm_compute. reflexivity. Qed.

(** ** Image filters *)

(** C3. The Compose builder is the composition of what its two sides build
    to: it degenerates to the other side when one side is absent - also
    when both are - and otherwise evaluates inner on the input, wraps the
    result as the input of outer, and returns outer's result. *)
Theorem compose_builds_composition (outer inner : option DlImageFilter) :
  ToImageFilterProc (Some (DlComposeImageFilter outer inner))
  = compose_procs (ToImageFilterProc outer) (ToImageFilterProc inner)
  /\ (forall F, compose_procs None F = F)
  /\ (forall F, compose_procs F None = F)
  /\ (forall outer_filter inner_filter,
        exists proc,
          compose_procs (Some outer_filter) (Some inner_filter) = Some proc
          /\ forall input effect_transform is_subpass,
               proc input effect_transform is_subpass
               = outer_filter
                   (FilterInput_Make
                      (inner_filter input effect_transform is_subpass))
                   effect_transform is_subpass).
Proof.
  split; [|split; [|split]].
  - change (ToImageFilterProc (Some (DlComposeImageFilter outer inner)))
      with (match ToImageFilterProc outer with
            | None => ToImageFilterProc inner
            | Some outer_filter =>
                match ToImageFilterProc inner with
                | None => ToImageFilterProc outer
                | Some inner_filter =>
                    Some (fun input effect_transform is_subpass =>
                            outer_filter
                              (FilterInput_Make
                                 (inner_filter input effect_transform
                                    is_subpass))
                              effect_transform is_subpass)
                end
            end).
    destruct (ToImageFilterProc outer), (ToImageFilterProc inner); reflexivity.
  - reflexivity.
  - intros [F|]; reflexivity.
  - intros outer_filter inner_filter. eexists. split; reflexivity.
Qed.

(** A matrix filter composed over a blur: the blur node is the input of the
    matrix node. *)
Example compose_matrix_over_blur :
  let m := {| sk0 := 1%S; sk1 := 0%S; sk2 := 0%S; sk3 := 0%S; sk4 := 1%S;
              sk5 := 0%S; sk6 := 0%S; sk7 := 0%S; sk8 := 1%S |} in
  option_map (fun proc => proc (FilterInput_Snapshot 0) Mat.Identity false)
    (ToImageFilterProc
       (Some (DlComposeImageFilter
                (Some (DlMatrixImageFilter m kNearestNeighbor))
                (Some (DlBlurImageFilter 1%S 1%S DlTile_kClamp)))))
  = Some
      (MakeMatrixFilter
         (FilterInput_Make
            (MakeGaussianBlur (FilterInput_Snapshot 0) {| sigma := 1%S |}
               {| sigma := 1%S |} Blur_kNormal Tile_kClamp Mat.Identity))
         (ToMatrix m) (ToSamplerDescriptor kNearestNeighbor) Mat.Identity
         false).
Proof. reflexivity. Qed.

(** C4. With either radius negative, a Dilate and an Erode image filter
    build to no procedure; setting such a filter sets the paint's image
    filter to none and logs nothing. *)
Theorem negative_radius_morphology_is_absent
  (radius_x radius_y : Scalar) (d : DlDispatcher) :
  Scalar.ltb radius_x 0%S = true \/ Scalar.ltb radius_y 0%S = true ->
  ToImageFilterProc (Some (DlDilateImageFilter radius_x radius_y)) = None
  /\ ToImageFilterProc (Some (DlErodeImageFilter radius_x radius_y)) = None
  /\ (forall filter,
        filter = DlDilateImageFilter radius_x radius_y
        \/ filter = DlErodeImageFilter radius_x radius_y ->
        image_filter (paint_ (setImageFilter (Some filter) d)) = None
        /\ diagnostics (setImageFilter (Some filter) d) = diagnostics d).
Proof.
  intros Hneg.
  assert (Hor : Scalar.ltb radius_x 0%S || Scalar.ltb radius_y 0%S = true).
  { apply orb_true_iff. exact Hneg. }
  assert (Hd :
    ToImageFilterProc (Some (DlDilateImageFilter radius_x radius_y)) = None).
  { cbn. now rewrite Hor. }
  assert (He :
    ToImageFilterProc (Some (DlErodeImageFilter radius_x radius_y)) = None).
  { cbn. now rewrite Hor. }
  split; [exact Hd|]. split; [exact He|].
  intros filter [-> | ->]; (split; [|reflexivity]);
    unfold setImageFilter;
    cbn [paint_ with_paint image_filter Paint_with_image_filter];
    assumption.
Qed.

Lemma negative_radius_morphology_is_absent_witness :
  let radius_x := Scalar.opp 1%S in
  let radius_y := Scalar.of_Z 2 in
  (Scalar.ltb radius_x 0%S = true \/ Scalar.ltb radius_y 0%S = true)
  /\ ToImageFilterProc (Some (DlDilateImageFilter radius_x radius_y)) = None
  /\ ToImageFilterProc (Some (DlErodeImageFilter radius_x radius_y)) = None.
Proof.
  cbv zeta.
  assert (Hneg :
    Scalar.ltb (Scalar.opp 1%S) 0%S = true
    \/ Scalar.ltb (Scalar.of_Z 2) 0%S = true) by (left; reflexivity).
  split; [exact Hneg|].
  destruct (@negative_radius_morphology_is_absent
              (Scalar.opp 1%S) (Scalar.of_Z 2) (DlDispatcher_new None) Hneg)
    as (Hd & He & _).
  split; assumption.
Defined.

(** Radii that are not negative - zero of either sign included - build a
    morphology procedure. *)
Lemma nonnegative_radius_morphology_is_present (radius_x radius_y : Scalar) :
  Scalar.ltb radius_x 0%S = false ->
  Scalar.ltb radius_y 0%S = false ->
  exists proc,
    ToImageFilterProc (Some (DlDilateImageFilter radius_x radius_y))
    = Some proc
    /\ forall input effect_transform is_subpass,
         proc input effect_transform is_subpass
         = MakeMorphology input {| radius := radius_x |}
             {| radius := radius_y |} kDilate effect_transform.
Proof.
  intros Hx Hy. cbn. rewrite Hx, Hy. cbn.
  eexists. split; reflexivity.
Qed.

(** C5. Whatever the color filter, the image-filter procedure built from
    it wraps its input with the opacity-absorption flag false. *)
Theorem color_filter_as_image_filter_defers_opacity
  (color_filter : DlColorFilter) :
  exists filter proc,
    ToColorFilter (Some color_filter) = Some filter
    /\ ToImageFilterProc
         (Some (DlColorFilterImageFilter (Some color_filter)))
       = Some proc
    /\ forall input effect_transform is_subpass,
         proc input effect_transform is_subpass
         = WrapWithGPUColorFilter filter input false.
Proof.
  destruct color_filter; cbn; do 2 eexists; repeat split.
Qed.

(** Without a color filter there is nothing to wrap: no procedure. *)
Lemma null_color_filter_as_image_filter_is_absent :
  ToImageFilterProc (Some (DlColorFilterImageFilter None)) = None.
Proof. reflexivity. Qed.

(** ** Runtime-effect samplers *)

(** Once a failed check has stopped the debug build, the loop writes
    nothing more. *)
Lemma runtime_effect_texture_inputs_stopped :
  forall samplers texture_inputs logged,
    stopped logged = true ->
    fst (runtime_effect_texture_inputs samplers texture_inputs logged)
    = logged.
Proof.
  induction samplers as [|sampler rest IH]; intros texture_inputs logged Hs.
  - reflexivity.
  - destruct sampler as [source|]; [|reflexivity].
    destruct source; cbn [runtime_effect_texture_inputs asImage fst];
      try (unfold FML_DLOG; now rewrite Hs).
    assert (Hcheck : forall condition text,
              FML_DCHECK condition text logged = logged)
      by (intros; unfold FML_DCHECK; now rewrite Hs).
    rewrite Hcheck. apply IH. exact Hs.
Qed.

(** The exit of the loop: an early return at the first sampler that is
    null or not an image, and otherwise one texture input per sampler. *)
Lemma runtime_effect_texture_inputs_spec :
  forall samplers texture_inputs logged,
    snd (runtime_effect_texture_inputs samplers texture_inputs logged)
    = match first_offender samplers with
      | Some _ => None
      | None => Some (texture_inputs ++ flat_map texture_input_of samplers)
      end.
Proof.
  induction samplers as [|sampler rest IH]; intros texture_inputs logged.
  - cbn. now rewrite app_nil_r.
  - destruct sampler as [source|]; [|reflexivity].
    destruct source; try reflexivity.
    cbn [runtime_effect_texture_inputs asImage].
    rewrite IH.
    unfold first_offender. cbn [find sampler_is_image asImage negb].
    fold (first_offender rest).
    destruct (first_offender rest); [reflexivity|].
    cbn [flat_map texture_input_of]. now rewrite <- app_assoc.
Qed.

(** The log of the loop, as a debug build writes it. *)
Lemma runtime_effect_texture_inputs_log :
  forall samplers texture_inputs logged,
    stopped logged = false ->
    lines (fst (runtime_effect_texture_inputs samplers texture_inputs logged))
    = lines logged
      ++ sampler_loop_log samplers
           (match first_offender samplers with
            | Some offender => offender_diagnostics offender
            | None => []
            end).
Proof.
  induction samplers as [|sampler rest IH]; intros texture_inputs logged Hs.
  - cbn. now rewrite app_nil_r.
  - destruct sampler as [source|];
      [|cbn [runtime_effect_texture_inputs fst]; symmetry; apply app_nil_r].
    destruct source;
      try (cbn [runtime_effect_texture_inputs asImage fst];
           unfold FML_DLOG; rewrite Hs; reflexivity).
    cbn [runtime_effect_texture_inputs asImage].
    unfold sampler_loop_log, textures_present, first_offender.
    cbn [samplers_before_offender sampler_is_image asImage forallb
         sampler_has_texture find negb].
    fold (first_offender rest). fold (textures_present rest).
    unfold FML_DCHECK. rewrite Hs. cbn [orb].
    destruct (impeller_texture image) as [texture|]; cbn [andb].
    + now rewrite IH.
    + now rewrite runtime_effect_texture_inputs_stopped.
Qed.

(** The runtime-effect case of [setColorSource], in one piece. *)
Lemma setColorSource_runtime_effect
  (runtime_effect : DlRuntimeEffect) (uniform_data : UniformData)
  (samplers : list (option DlColorSource)) (d : DlDispatcher) :
  setColorSource
    (Some (DlRuntimeEffectColorSource runtime_effect uniform_data samplers)) d
  = match first_offender samplers with
    | Some offender =>
        log (sampler_loop_log samplers (offender_diagnostics offender)) d
    | None =>
        set_color_source
          (MakeRuntimeEffect (runtime_stage runtime_effect) uniform_data
             (flat_map texture_input_of samplers))
          (log (sampler_loop_log samplers []) d)
    end.
Proof.
  unfold setColorSource. cbn [DlColorSource_type ToColorSourceType].
  pose proof (runtime_effect_texture_inputs_spec samplers [] DebugLog_empty)
    as Hexit.
  pose proof (runtime_effect_texture_inputs_log samplers [] DebugLog_empty
                eq_refl) as Hlog.
  destruct (runtime_effect_texture_inputs samplers [] DebugLog_empty)
    as [logged texture_inputs].
  cbn [fst snd lines DebugLog_empty app] in Hexit, Hlog.
  rewrite Hexit, Hlog.
  destruct (first_offender samplers); reflexivity.
Qed.




(** An image without texture ahead of the offender: the assertion fails,
    and the failed check is all a debug build writes. *)
Example textureless_sampler_fails_the_check :
  let image := DlImageColorSource {| impeller_texture := None |}
                 DlTile_kClamp DlTile_kClamp kNearestNeighbor
                 {| sk0 := 1%S; sk1 := 0%S; sk2 := 0%S; sk3 := 0%S;
                    sk4 := 1%S; sk5 := 0%S; sk6 := 0%S; sk7 := 0%S;
                    sk8 := 1%S |} in
  let solid := DlColorColorSource DlColor_none in
  let d := DlDispatcher_new None in
  let d' :=
    setColorSource
      (Some (DlRuntimeEffectColorSource {| runtime_stage := 0%nat |} []
               [Some image; Some solid])) d in
  paint_ d' = paint_ d
  /\ diagnostics d' = [CHECK_FAILED "image->image()->impeller_texture()"].
Proof. cbv zeta. split; reflexivity. Qed.

(** A sampler list of images only is assigned, one texture input per
    sampler; a debug build writes nothing when every image has a
    texture. *)
Lemma wellformed_runtime_effect_is_assigned
  (runtime_effect : DlRuntimeEffect) (uniform_data : UniformData)
  (samplers : list (option DlColorSource)) (d : DlDispatcher) :
  first_offender samplers = None ->
  let d' :=
    setColorSource
      (Some (DlRuntimeEffectColorSource runtime_effect uniform_data samplers))
      d in
  paint_ d'
  = Paint_with_color_source
      (MakeRuntimeEffect (runtime_stage runtime_effect) uniform_data
         (flat_map texture_input_of samplers)) (paint_ d)
  /\ canvas_ d' = canvas_ d
  /\ initial_matrix_ d' = initial_matrix_ d
  /\ (textures_present samplers = true -> diagnostics d' = diagnostics d).
Proof.
  intros Hoff. cbv zeta.
  rewrite setColorSource_runtime_effect, Hoff.
  repeat split. intros Hpresent.
  unfold sampler_loop_log. rewrite Hpresent.
  cbn. apply app_nil_r.
Qed.

(** ** Images without a texture *)

(** C8 as stated fails for [drawImageRect]: an image without a backing
    texture is wrapped and handed to the canvas all the same. *)
Lemma drawImageRect_without_texture_is_forwarded :
  let d := DlDispatcher_new None in
  let image := {| impeller_texture := None |} in
  let unit_rect := SkRect_MakeWH 1%S 1%S in
  Canvas.draw_calls
    (canvas_ (drawImageRect image unit_rect unit_rect kNearestNeighbor false
                kFast d))
  = [Call_DrawImageRect {| image_texture := None |} (ToRect unit_rect)
       (ToRect unit_rect) Paint_default
       (ToSamplerDescriptor kNearestNeighbor)]
  /\ drawImageRect image unit_rect unit_rect kNearestNeighbor false kFast d
     <> d.
Proof.
  cbv zeta. split; [reflexivity|].
  intros E. apply (f_equal (fun d => List.length (recorded (canvas_ d)))) in E.
  discriminate E.
Qed.

(** C8, as the code has it. [drawImage] with a null image, or with an image
    that has no backing texture, is a no-op: the dispatcher - canvas
    included - is returned as it was. The check is [drawImage]'s own:
    [drawImageRect] hands every image to the canvas, in exactly one
    [DrawImageRect] call that carries the image's texture, present or
    not. *)
Theorem drawImage_without_texture_is_noop
  (image : option DlImage) (point : SkPoint) (sampling : DlImageSampling)
  (render_with_attributes : bool) (d : DlDispatcher) :
  image = None
  \/ (exists dl_image, image = Some dl_image
                       /\ impeller_texture dl_image = None) ->
  drawImage image point sampling render_with_attributes d = d
  /\ Canvas.draw_calls
       (canvas_ (drawImage image point sampling render_with_attributes d))
     = Canvas.draw_calls (canvas_ d)
  /\ forall dl_image src dst constraint,
       recorded
         (canvas_
            (drawImageRect dl_image src dst sampling render_with_attributes
               constraint d))
       = recorded (canvas_ d)
         ++ [Call_DrawImageRect
               {| image_texture := impeller_texture dl_image |}
               (ToRect src) (ToRect dst)
               (if render_with_attributes then paint_ d else Paint_default)
               (ToSamplerDescriptor sampling)].
Proof.
  intros Hno.
  assert (Hnoop :
    drawImage image point sampling render_with_attributes d = d).
  { destruct Hno as [-> | (dl_image & -> & Htex)]; [reflexivity|].
    unfold drawImage. now rewrite Htex. }
  split; [exact Hnoop|]. split; [now rewrite Hnoop|].
  reflexivity.
Qed.

Lemma drawImage_without_texture_is_noop_witness :
  let d := DlDispatcher_new None in
  let image := Some {| impeller_texture := None |} in
  let point := {| fX := 0%S; fY := 0%S |} in
  (image = None
   \/ exists dl_image, image = Some dl_image
                       /\ impeller_texture dl_image = None)
  /\ drawImage image point Sampling_kLinear true d = d.
Proof.
  cbv zeta.
  match goal with
  | |- ?hyp /\ _ =>
      assert (Hno : hyp)
        by (right; exists {| impeller_texture := None |}; split; reflexivity)
  end.
  split; [exact Hno|].
  exact (proj1 (@drawImage_without_texture_is_noop _
                  {| fX := 0%S; fY := 0%S |} Sampling_kLinear true
                  (DlDispatcher_new None) Hno)).
Defined.

(** The atlas directive hands its image to the canvas unchecked as well,
    and the nine-patch directive hands its image to the converter
    unchecked. *)
Lemma image_directives_forward_the_image `{CanvasKernels}
  (image : DlImage) (d : DlDispatcher) :
  (forall center dst filter render_with_attributes,
     canvas_ (drawImageNine image center dst filter render_with_attributes d)
     = NinePatchConverter.DrawNinePatch
         {| image_texture := impeller_texture image |}
         (Rect_MakeLTRB (Scalar.of_Z (iLeft center))
            (Scalar.of_Z (iTop center)) (Scalar.of_Z (iRight center))
            (Scalar.of_Z (iBottom center)))
         (ToRect dst) (ToSamplerDescriptor_FilterMode filter) (canvas_ d)
         (paint_ d))
  /\ (forall xform tex colors count mode sampling cull_rect
        render_with_attributes,
        exists call,
          recorded
            (canvas_ (drawAtlas image xform tex colors count mode sampling
                        cull_rect render_with_attributes d))
          = recorded (canvas_ d) ++ [call]
          /\ is_draw_call call = true).
Proof. split; intros; [reflexivity|]. eexists; split; reflexivity. Qed.

(** An image with a texture is drawn at its own size. *)
Example drawImage_with_texture_draws :
  let texture := {| texture_id := 7; GetSize := {| width := 4; height := 3 |} |} in
  Canvas.draw_calls
    (canvas_
       (drawImage (Some {| impeller_texture := Some texture |})
          {| fX := Scalar.of_Z 10; fY := Scalar.of_Z 20 |} kNearestNeighbor
          false (DlDispatcher_new None)))
  = [Call_DrawImageRect {| image_texture := Some texture |}
       (Rect_MakeLTRB 0%S 0%S (Scalar.of_Z 4) (Scalar.of_Z 3))
       (Rect_MakeLTRB (Scalar.of_Z 10) (Scalar.of_Z 20) (Scalar.of_Z 14)
          (Scalar.of_Z 23))
       Paint_default (ToSamplerDescriptor kNearestNeighbor)].
Proof. vm_compute. reflexivity. Qed.

(** ** Shape recognition *)

Lemma simple_rrect_spec (path : SkPath) (rrect : SkRRect) :
  simple_rrect path = Some rrect
  <-> path_isRRect path = Some rrect /\ rrect_isSimple rrect = true.
Proof.
  unfold simple_rrect, and_then.
  destruct (path_isRRect path) as [r|]; [|split; [|intros []]; discriminate].
  destruct (rrect_isSimple r) eqn:E; split.
  - intros [= ->]. split; [reflexivity|exact E].
  - intros [[= ->] _]. reflexivity.
  - discriminate.
  - intros [[= ->] E']. congruence.
Qed.

Lemma circle_spec (path : SkPath) (oval : SkRect) :
  circle path = Some oval
  <-> path_isOval path = Some oval
      /\ Scalar.eqb (SkRect_width oval) (SkRect_height oval) = true.
Proof.
  unfold circle, and_then.
  destruct (path_isOval path) as [o|]; [|split; [|intros []]; discriminate].
  destruct (Scalar.eqb (SkRect_width o) (SkRect_height o)) eqn:E; split.
  - intros [= ->]. split; [reflexivity|exact E].
  - intros [[= ->] _]. reflexivity.
  - discriminate.
  - intros [[= ->] E']. congruence.
Qed.

Lemma recorded_Restore (f : DlDispatcher) :
  recorded (canvas_ (on_canvas (fun c => snd (Canvas.Restore c)) f))
  = recorded (canvas_ f) ++ [Call_Restore].
Proof.
  unfold on_canvas, Canvas.Restore. cbn [canvas_ with_canvas].
  destruct (below (Canvas.record Call_Restore (canvas_ f))); reflexivity.
Qed.

(** C9. [drawPath] issues exactly one canvas call, with the current paint,
    and [drawShadow] exactly one draw call, with the shadow paint, between
    its save, its translation and its restore; in both the call is the
    cheapest primitive in the order rect, simple rounded rect, circle,
    general path. *)
Theorem shape_recognition_priority (path : SkPath) (d : DlDispatcher) :
  (exists call,
     recorded (canvas_ (drawPath path d)) = recorded (canvas_ d) ++ [call]
     /\ cheapest_primitive path (paint_ d) call)
  /\ (forall color elevation transparent_occluder dpr,
        exists call,
          recorded
            (canvas_
               (drawShadow path color elevation transparent_occluder dpr d))
          = recorded (canvas_ d)
            ++ [Call_Save;
                Call_PreConcat
                  (Mat.MakeTranslation (shadow_offset elevation dpr));
                call;
                Call_Restore]
          /\ cheapest_primitive path
               (shadow_paint color elevation dpr (canvas_ d)) call).
Proof.
  assert (Hpick : forall paint,
    exists call,
      cheapest_primitive path paint call
      /\ forall c,
           recorded
             (match path_isRect path with
              | Some rect => Canvas.DrawRect (ToRect rect) paint c
              | None =>
                  match simple_rrect path with
                  | Some rrect =>
                      Canvas.DrawRRect (ToRect (rrect_rect rrect))
                        (fX (rrect_getSimpleRadii rrect)) paint c
                  | None =>
                      match circle path with
                      | Some oval =>
                          Canvas.DrawCircle (ToPoint (SkRect_center oval))
                            (SkRect_width oval * Scalar.ratio 1 2)%S paint c
                      | None => Canvas.DrawPath (ToPath path) paint c
                      end
                  end
              end)
           = recorded c ++ [call]).
  { intros paint. unfold cheapest_primitive.
    destruct (path_isRect path) as [rect|].
    { eexists; split; [|reflexivity].
      repeat split; intros; congruence. }
    destruct (simple_rrect path) as [rrect|].
    { eexists; split; [|reflexivity].
      repeat split; intros; congruence. }
    destruct (circle path) as [oval|].
    { eexists; split; [|reflexivity].
      repeat split; intros; congruence. }
    eexists; split; [|reflexivity].
    repeat split; intros; congruence. }
  split.
  - destruct (Hpick (paint_ d)) as (call & Hcheap & Hrec).
    exists call. split; [|exact Hcheap].
    rewrite <- Hrec. unfold drawPath.
    change (and_then (path_isRRect path) rrect_isSimple)
      with (simple_rrect path).
    change (and_then (path_isOval path)
              (fun oval =>
                 Scalar.eqb (SkRect_width oval) (SkRect_height oval)))
      with (circle path).
    destruct (path_isRect path); [reflexivity|].
    destruct (simple_rrect path); [reflexivity|].
    destruct (circle path); reflexivity.
  - intros color elevation transparent_occluder dpr.
    destruct (Hpick (shadow_paint color elevation dpr (canvas_ d)))
      as (call & Hcheap & Hrec).
    exists call. split; [|exact Hcheap].
    unfold drawShadow. cbv zeta.
    set (paint := shadow_paint color elevation dpr (canvas_ d)) in *.
    set (d1 := on_canvas
                 (Canvas.PreConcat
                    (Mat.MakeTranslation (shadow_offset elevation dpr)))
                 (on_canvas Canvas.Save d)).
    assert (Hd1 : recorded (canvas_ d1)
                  = recorded (canvas_ d)
                    ++ [Call_Save;
                        Call_PreConcat
                          (Mat.MakeTranslation (shadow_offset elevation dpr))]).
    { cbn. now rewrite <- app_assoc. }
    specialize (Hrec (canvas_ d1)). rewrite Hd1 in Hrec.
    rewrite <- app_assoc in Hrec. cbn [app] in Hrec.
    rewrite recorded_Restore.
    match goal with
    | |- recorded (canvas_ ?d2) ++ _ = _ =>
        assert (Hd2 : recorded (canvas_ d2)
                      = recorded (canvas_ d)
                        ++ [Call_Save;
                            Call_PreConcat
                              (Mat.MakeTranslation
                                 (shadow_offset elevation dpr));
                            call])
    end.
    { rewrite <- Hrec.
      change (and_then (path_isRRect path) rrect_isSimple)
        with (simple_rrect path).
      change (and_then (path_isOval path)
                (fun oval =>
                   Scalar.eqb (SkRect_width oval) (SkRect_height oval)))
        with (circle path).
      destruct (path_isRect path); [reflexivity|].
      destruct (simple_rrect path); [reflexivity|].
      destruct (circle path); reflexivity. }
    rewrite Hd2, <- app_assoc. reflexivity.
Qed.

(** Three paths over the same square bounds. The first is a rect and an
    oval: it is drawn as a rect. The second is a simple rounded rect and an
    oval: it is drawn as a rounded rect, by [drawPath] and by [drawShadow].
    The third is a rounded rect that is not simple and an oval as wide as
    it is high: it is drawn as a circle. *)
Lemma shape_recognition_priority_witness :
  let square := SkRect_MakeLTRB 0%S 0%S (Scalar.of_Z 2) (Scalar.of_Z 2) in
  let corners := {| fX := 1%S; fY := 1%S |} in
  let simple :=
    {| rrect_rect := square; rrect_isSimple := true;
       rrect_getSimpleRadii := corners; rrect_id := 0 |} in
  let complex :=
    {| rrect_rect := square; rrect_isSimple := false;
       rrect_getSimpleRadii := corners; rrect_id := 1 |} in
  let rect_path :=
    {| path_isRect := Some square; path_isRRect := None;
       path_isOval := Some square; path_id := 0 |} in
  let rrect_path :=
    {| path_isRect := None; path_isRRect := Some simple;
       path_isOval := Some square; path_id := 1 |} in
  let oval_path :=
    {| path_isRect := None; path_isRRect := Some complex;
       path_isOval := Some square; path_id := 2 |} in
  let d := DlDispatcher_new None in
  recorded (canvas_ (drawPath rect_path d))
  = recorded (canvas_ d) ++ [Call_DrawRect (ToRect square) (paint_ d)]
  /\ recorded (canvas_ (drawPath rrect_path d))
     = recorded (canvas_ d)
       ++ [Call_DrawRRect (ToRect square) 1%S (paint_ d)]
  /\ recorded (canvas_ (drawPath oval_path d))
     = recorded (canvas_ d)
       ++ [Call_DrawCircle (ToPoint (SkRect_center square))
             (SkRect_width square * Scalar.ratio 1 2)%S (paint_ d)]
  /\ recorded
       (canvas_ (drawShadow rrect_path DlColor_none 1%S false 1%S d))
     = recorded (canvas_ d)
       ++ [Call_Save;
           Call_PreConcat (Mat.MakeTranslation (shadow_offset 1%S 1%S));
           Call_DrawRRect (ToRect square) 1%S
             (shadow_paint DlColor_none 1%S 1%S (canvas_ d));
           Call_Restore].
Proof.
  cbv zeta.
  split; [|split; [|split]].
  - destruct (proj1 (shape_recognition_priority
                       {| path_isRect :=
                            Some (SkRect_MakeLTRB 0%S 0%S (Scalar.of_Z 2)
                                    (Scalar.of_Z 2));
                          path_isRRect := None;
                          path_isOval :=
                            Some (SkRect_MakeLTRB 0%S 0%S (Scalar.of_Z 2)
                                    (Scalar.of_Z 2));
                          path_id := 0 |} (DlDispatcher_new None)))
      as (call & Hrec & Hcheap).
    rewrite Hrec. destruct Hcheap as (Hrect & _).
    rewrite (Hrect _ eq_refl). reflexivity.
  - destruct (proj1 (shape_recognition_priority
                       {| path_isRect := None;
                          path_isRRect :=
                            Some {| rrect_rect :=
                                      SkRect_MakeLTRB 0%S 0%S (Scalar.of_Z 2)
                                        (Scalar.of_Z 2);
                                    rrect_isSimple := true;
                                    rrect_getSimpleRadii :=
                                      {| fX := 1%S; fY := 1%S |};
                                    rrect_id := 0 |};
                          path_isOval :=
                            Some (SkRect_MakeLTRB 0%S 0%S (Scalar.of_Z 2)
                                    (Scalar.of_Z 2));
                          path_id := 1 |} (DlDispatcher_new None)))
      as (call & Hrec & Hcheap).
    rewrite Hrec. destruct Hcheap as (_ & Hrrect & _).
    rewrite (Hrrect _ eq_refl eq_refl). reflexivity.
  - destruct (proj1 (shape_recognition_priority
                       {| path_isRect := None;
                          path_isRRect :=
                            Some {| rrect_rect :=
                                      SkRect_MakeLTRB 0%S 0%S (Scalar.of_Z 2)
                                        (Scalar.of_Z 2);
                                    rrect_isSimple := false;
                                    rrect_getSimpleRadii :=
                                      {| fX := 1%S; fY := 1%S |};
                                    rrect_id := 1 |};
                          path_isOval :=
                            Some (SkRect_MakeLTRB 0%S 0%S (Scalar.of_Z 2)
                                    (Scalar.of_Z 2));
                          path_id := 2 |} (DlDispatcher_new None)))
      as (call & Hrec & Hcheap).
    rewrite Hrec. destruct Hcheap as (_ & _ & Hcircle & _).
    rewrite (Hcircle _ eq_refl eq_refl eq_refl). reflexivity.
  - destruct (proj2 (shape_recognition_priority
                       {| path_isRect := None;
                          path_isRRect :=
                            Some {| rrect_rect :=
                                      SkRect_MakeLTRB 0%S 0%S (Scalar.of_Z 2)
                                        (Scalar.of_Z 2);
                                    rrect_isSimple := true;
                                    rrect_getSimpleRadii :=
                                      {| fX := 1%S; fY := 1%S |};
                                    rrect_id := 0 |};
                          path_isOval :=
                            Some (SkRect_MakeLTRB 0%S 0%S (Scalar.of_Z 2)
                                    (Scalar.of_Z 2));
                          path_id := 1 |} (DlDispatcher_new None))
                DlColor_none 1%S false 1%S)
      as (call & Hrec & Hcheap).
    rewrite Hrec. destruct Hcheap as (_ & Hrrect & _).
    rewrite (Hrrect _ eq_refl eq_refl). reflexivity.
Defined.

(** A path that is both a rect and an oval of equal sides is drawn as a
    rect: the rect recogniser is asked first. *)
Example rect_is_recognised_before_circle :
  let square :=
    SkRect_MakeLTRB 0%S 0%S (Scalar.of_Z 2) (Scalar.of_Z 2) in
  let path :=
    {| path_isRect := Some square; path_isRRect := None;
       path_isOval := Some square; path_id := 0 |} in
  recorded (canvas_ (drawPath path (DlDispatcher_new None)))
  = [Call_DrawRect (ToRect square) Paint_default].
Proof. reflexivity. Qed.

(** A rounded rect that is not simple falls through to the oval check and
    then to the general path. *)
Example complex_rrect_is_drawn_as_path :
  let bounds := SkRect_MakeLTRB 0%S 0%S (Scalar.of_Z 4) (Scalar.of_Z 2) in
  let rrect :=
    {| rrect_rect := bounds; rrect_isSimple := false;
       rrect_getSimpleRadii := {| fX := 1%S; fY := 1%S |}; rrect_id := 0 |} in
  let path :=
    {| path_isRect := None; path_isRRect := Some rrect;
       path_isOval := None; path_id := 1 |} in
  recorded (canvas_ (drawPath path (DlDispatcher_new None)))
  = [Call_DrawPath (ToPath path) Paint_default].
Proof. reflexivity. Qed.

(** ** Arithmetic of regular scalars *)

Lemma digits2_pos_shift23 (m : positive) :
  Zpos (digits2_pos (Pos.mul 8388608 m)) = (Zpos (digits2_pos m) + 23)%Z.
Proof. cbn [Pos.mul digits2_pos]. rewrite !Pos2Z.inj_succ. lia. Qed.

Lemma iter_shr_23 (m : positive) :
  iter_pos shr_1 23
    {| shr_m := Zpos (Pos.mul 8388608 m); shr_r := false; shr_s := false |}
  = {| shr_m := Zpos m; shr_r := false; shr_s := false |}.
Proof. reflexivity. Qed.

(** The product of 1.0 and a canonical finite number is rounded to that
    number: the 23 bits the mantissa of 1.0 adds are shifted out again,
    all of them zero. *)
Lemma Scalar_mul_one_finite (s : bool) (m : positive) (e : Z) :
  bounded Scalar.prec Scalar.emax m e = true ->
  Scalar.mul 1%S (S754_finite s m e) = S754_finite s m e.
Proof.
  intros Hb. unfold bounded, canonical_mantissa in Hb.
  apply andb_true_iff in Hb. destruct Hb as [Hc He].
  apply Z.eqb_eq in Hc.
  change (Scalar.mul 1%S (S754_finite s m e))
    with (binary_round_aux Scalar.prec Scalar.emax (xorb false s)
            (Zpos (Pos.mul 8388608 m)) (-23 + e) loc_Exact).
  unfold binary_round_aux, shr_fexp.
  unfold Zdigits2 at 1. rewrite digits2_pos_shift23.
  replace (Z.pos (digits2_pos m) + 23 + (-23 + e))%Z
    with (Z.pos (digits2_pos m) + e)%Z by lia.
  rewrite Hc.
  replace (e - (-23 + e))%Z with 23%Z by lia.
  cbn [shr shr_record_of_loc]. rewrite iter_shr_23.
  cbn [shr_m loc_of_shr_record round_nearest_even shr_r shr_s].
  unfold Zdigits2.
  replace (-23 + e + 23)%Z with e by lia.
  rewrite Hc. rewrite Z.sub_diag. cbn [shr shr_m]. rewrite He.
  destruct s; reflexivity.
Qed.

Lemma Scalar_mul_one_l (x : Scalar) :
  Scalar.regular x = true -> (1 * x)%S = x.
Proof.
  destruct x as [s| | |s m e]; cbn [Scalar.regular]; intros Hx;
    try discriminate.
  - destruct s; [discriminate|reflexivity].
  - apply Scalar_mul_one_finite. exact Hx.
Qed.

Lemma Scalar_mul_zero_l (x : Scalar) :
  Scalar.regular x = true -> Scalar.is_zero (0 * x)%S = true.
Proof. destruct x; cbn; intros Hx; try discriminate; reflexivity. Qed.

Lemma Scalar_add_zero_l (z x : Scalar) :
  Scalar.is_zero z = true -> Scalar.regular x = true -> (z + x)%S = x.
Proof.
  destruct z as [sz| | |]; try discriminate. intros _.
  destruct x as [s| | |s m e]; cbn; intros Hx; try discriminate;
    [|reflexivity].
  destruct s; [discriminate|]. destruct sz; reflexivity.
Qed.

Lemma Scalar_add_zero_r (x z : Scalar) :
  Scalar.is_zero z = true -> Scalar.regular x = true -> (x + z)%S = x.
Proof.
  destruct z as [sz| | |]; try discriminate. intros _.
  destruct x as [s| | |s m e]; cbn; intros Hx; try discriminate;
    [|reflexivity].
  destruct s; [discriminate|]. destruct sz; reflexivity.
Qed.

Lemma Scalar_add_zero_zero (a b : Scalar) :
  Scalar.is_zero a = true -> Scalar.is_zero b = true ->
  Scalar.is_zero (a + b)%S = true.
Proof.
  destruct a as [sa| | |], b as [sb| | |]; try discriminate.
  intros _ _. destruct sa, sb; reflexivity.
Qed.

Section IdentityRow.

Variables x y z w : Scalar.
Hypothesis Hx : Scalar.regular x = true.
Hypothesis Hy : Scalar.regular y = true.
Hypothesis Hz : Scalar.regular z = true.
Hypothesis Hw : Scalar.regular w = true.

Lemma dot_e0 : Mat.dot 1%S 0%S 0%S 0%S x y z w = x.
Proof.
  unfold Mat.dot. rewrite (Scalar_mul_one_l x Hx).
  rewrite (Scalar_add_zero_r x _ (Scalar_mul_zero_l y Hy) Hx).
  rewrite (Scalar_add_zero_r x _ (Scalar_mul_zero_l z Hz) Hx).
  exact (Scalar_add_zero_r x _ (Scalar_mul_zero_l w Hw) Hx).
Qed.

Lemma dot_e1 : Mat.dot 0%S 1%S 0%S 0%S x y z w = y.
Proof.
  unfold Mat.dot. rewrite (Scalar_mul_one_l y Hy).
  rewrite (Scalar_add_zero_l _ y (Scalar_mul_zero_l x Hx) Hy).
  rewrite (Scalar_add_zero_r y _ (Scalar_mul_zero_l z Hz) Hy).
  exact (Scalar_add_zero_r y _ (Scalar_mul_zero_l w Hw) Hy).
Qed.

Lemma dot_e2 : Mat.dot 0%S 0%S 1%S 0%S x y z w = z.
Proof.
  unfold Mat.dot. rewrite (Scalar_mul_one_l z Hz).
  rewrite (Scalar_add_zero_l _ z
             (Scalar_add_zero_zero _ _ (Scalar_mul_zero_l x Hx)
                (Scalar_mul_zero_l y Hy)) Hz).
  exact (Scalar_add_zero_r z _ (Scalar_mul_zero_l w Hw) Hz).
Qed.

Lemma dot_e3 : Mat.dot 0%S 0%S 0%S 1%S x y z w = w.
Proof.
  unfold Mat.dot. rewrite (Scalar_mul_one_l w Hw).
  apply Scalar_add_zero_l; [|exact Hw].
  apply Scalar_add_zero_zero; [|exact (Scalar_mul_zero_l z Hz)].
  apply Scalar_add_zero_zero;
    [exact (Scalar_mul_zero_l x Hx)|exact (Scalar_mul_zero_l y Hy)].
Qed.

End IdentityRow.

(** The identity is a left unit of the product on matrices of regular
    entries. *)
Lemma Multiply_Identity_l (m : Matrix) :
  Mat.regular m = true -> Mat.Multiply Mat.Identity m = m.
Proof.
  destruct m. unfold Mat.regular. cbn [m0 m1 m2 m3 m4 m5 m6 m7 m8 m9 m10
    m11 m12 m13 m14 m15].
  intros Hreg. repeat (apply andb_true_iff in Hreg; destruct Hreg as [Hreg ?]).
  unfold Mat.Multiply, Mat.Identity. cbn [m0 m1 m2 m3 m4 m5 m6 m7 m8 m9 m10
    m11 m12 m13 m14 m15].
  rewrite !dot_e0, !dot_e1, !dot_e2, !dot_e3 by assumption.
  reflexivity.
Qed.

(** ** The transform baseline *)

Section Baseline.

Context `{CanvasKernels}.

Ltac split_matches :=
  repeat match goal with
         | |- context [match ?x with _ => _ end] => destruct x
         end.

Lemma initial_matrix_setColorSource source d :
  initial_matrix_ (setColorSource source d) = initial_matrix_ d.
Proof.
  unfold setColorSource.
  destruct source as [source|]; [|reflexivity].
  destruct (ToColorSourceType (DlColorSource_type source)); [|reflexivity].
  destruct source; try reflexivity;
    try (destruct (ConvertStops _ _ _); reflexivity).
  destruct (runtime_effect_texture_inputs _ _ _) as [logged [texture_inputs|]]; reflexivity.
Qed.

(** Only [drawDisplayList] writes the initial matrix, and it puts the old
    one back: no directive changes the baseline of the scope it is
    delivered in. *)
Lemma dispatch_keeps_initial_matrix (op : DlOp) (d : DlDispatcher) :
  initial_matrix_ (dispatch op d) = initial_matrix_ d.
Proof.
  destruct op; cbn [dispatch];
    try apply initial_matrix_setColorSource;
    try reflexivity.
  all: try (unfold setDrawStyle; destruct (ToStyle _); reflexivity).
  all: try (unfold setStrokeCap; destruct cap; reflexivity).
  all: try (unfold setStrokeJoin; destruct join; reflexivity).
  all: try (unfold setMaskFilter; destruct filter as [[]|]; reflexivity).
  all: try (unfold clipRRect; destruct (rrect_isSimple _); reflexivity).
  all: try (unfold drawOval; destruct (Scalar.eqb _ _); reflexivity).
  all: try (unfold drawRRect; destruct (rrect_isSimple _); reflexivity).
  - unfold drawPath. split_matches; reflexivity.
  - unfold drawPoints. split_matches; reflexivity.
  - unfold drawImage. split_matches; reflexivity.
  - destruct display_list. reflexivity.
  - unfold drawTextBlob. split_matches; reflexivity.
  - unfold drawShadow. cbv zeta. split_matches; reflexivity.
Qed.

Lemma Dispatch_from_keeps_initial_matrix rtree cull_rect :
  forall ops i d,
    initial_matrix_ (Dispatch_from rtree cull_rect ops i d)
    = initial_matrix_ d.
Proof.
  induction ops as [|op rest IH]; intros i d; [reflexivity|].
  cbn [Dispatch_from]. fold (Dispatch_from rtree cull_rect).
  rewrite IH.
  destruct (delivered rtree cull_rect i);
    [apply dispatch_keeps_initial_matrix|reflexivity].
Qed.

Lemma initial_matrix_drawDisplayList_enter opacity d :
  initial_matrix_ (drawDisplayList_enter opacity d)
  = Canvas.GetCurrentTransformation (canvas_ d).
Proof.
  unfold drawDisplayList_enter. cbv zeta.
  destruct (Scalar.ltb opacity 1%S); reflexivity.
Qed.

(** C10. [transformReset] resets the canvas transform and re-applies the
    initial matrix: the canvas transform becomes the product of the
    identity and the initial matrix, which is the initial matrix itself
    when its entries are regular numbers - not the identity. Inside a
    nested replay the initial matrix is, at every directive of the nested
    list, the transform the canvas had when [drawDisplayList] was called,
    so there [transformReset] goes back to that transform. *)
Theorem transformReset_returns_to_baseline (d : DlDispatcher) :
  Mat.regular (initial_matrix_ d) = true ->
  Canvas.GetCurrentTransformation (canvas_ (transformReset d))
  = Mat.Multiply Mat.Identity (initial_matrix_ d)
  /\ Canvas.GetCurrentTransformation (canvas_ (transformReset d))
     = initial_matrix_ d
  /\ (initial_matrix_ d <> Mat.Identity ->
      Canvas.GetCurrentTransformation (canvas_ (transformReset d))
      <> Mat.Identity)
  /\ forall caller opacity rtree cull_rect ops i,
       d = Dispatch_from rtree cull_rect ops i
             (drawDisplayList_enter opacity caller) ->
       Canvas.GetCurrentTransformation (canvas_ (transformReset d))
       = Canvas.GetCurrentTransformation (canvas_ caller).
Proof.
  intros Hreg.
  assert (Hprod :
    Canvas.GetCurrentTransformation (canvas_ (transformReset d))
    = Mat.Multiply Mat.Identity (initial_matrix_ d)) by reflexivity.
  assert (Hbase :
    Canvas.GetCurrentTransformation (canvas_ (transformReset d))
    = initial_matrix_ d).
  { rewrite Hprod. apply Multiply_Identity_l. exact Hreg. }
  split; [exact Hprod|]. split; [exact Hbase|]. split.
  - intros Hne. rewrite Hbase. exact Hne.
  - intros caller opacity rtree cull_rect ops i Hd.
    rewrite Hbase, Hd, Dispatch_from_keeps_initial_matrix.
    apply initial_matrix_drawDisplayList_enter.
Qed.

End Baseline.

Lemma transformReset_returns_to_baseline_witness :
  let d := with_initial_matrix translation_5_7 (DlDispatcher_new None) in
  Mat.regular (initial_matrix_ d) = true
  /\ Canvas.GetCurrentTransformation (canvas_ (transformReset d))
     = translation_5_7.
Proof.
  cbv zeta.
  assert (Hreg :
    Mat.regular
      (initial_matrix_
         (with_initial_matrix translation_5_7 (DlDispatcher_new None)))
    = true) by (vm_compute; reflexivity).
  split; [exact Hreg|].
  exact (proj1 (proj2
           (@transformReset_returns_to_baseline plain_kernels
              (with_initial_matrix translation_5_7 (DlDispatcher_new None))
              Hreg))).
Defined.

(** C10 as stated fails, for a baseline that is not made of regular
    numbers. Two scales by ten to the thirtieth take the transform of the
    caller out of the range of binary32: its two scale entries are
    infinite. A nested list starts with this transform as its initial
    matrix, and [transformReset] there multiplies the identity with it:
    zero times infinity is not a number, and the canvas transform it
    arrives at is not the initial matrix. *)
Lemma transformReset_misses_an_infinite_baseline :
  let big := Scalar.of_Z (10 ^ 30) in
  let caller := scale big big (scale big big (DlDispatcher_new None)) in
  let d := drawDisplayList_enter 1%S caller in
  initial_matrix_ d = Canvas.GetCurrentTransformation (canvas_ caller)
  /\ m0 (initial_matrix_ d) = S754_infinity false
  /\ m1 (initial_matrix_ d) = 0%S
  /\ Mat.regular (initial_matrix_ d) = false
  /\ Canvas.GetCurrentTransformation (canvas_ (transformReset d))
     = Mat.Multiply Mat.Identity (initial_matrix_ d)
  /\ m1 (Canvas.GetCurrentTransformation (canvas_ (transformReset d)))
     = S754_nan
  /\ Canvas.GetCurrentTransformation (canvas_ (transformReset d))
     <> initial_matrix_ d.
Proof.
  cbv zeta.
  split; [reflexivity|]. split; [vm_compute; reflexivity|].
  split; [vm_compute; reflexivity|]. split; [vm_compute; reflexivity|].
  split; [reflexivity|]. split; [vm_compute; reflexivity|].
  intros E. apply (f_equal m1) in E. vm_compute in E. discriminate E.
Qed.

(** In a nested list replayed under a translation, [transformReset] after
    a scale goes back to the translation, not to the identity. *)
Example nested_transformReset_returns_to_caller_transform :
  let K := plain_kernels in
  let nested :=
    MakeDisplayList
      [Op_scale (Scalar.of_Z 2) (Scalar.of_Z 2); Op_transformReset] None in
  let caller := translate (Scalar.of_Z 5) (Scalar.of_Z 7) (DlDispatcher_new None) in
  Canvas.GetCurrentTransformation
    (canvas_ (after_nested_replay nested 1%S caller))
  = translation_5_7.
Proof. vm_compute. reflexivity. Qed.

(** ** Shadows *)

Lemma Scalar_one_bits : Scalar.one = S754_finite false 8388608 (-23).
Proof. reflexivity. Qed.

(** What [drawShadow] computes, as written: the occluder height, the radius
    of the mask blur from [kLightRadius], and the translation along the
    light's [y]. *)
Lemma drawShadow_geometry (path : SkPath) (color : DlColor)
  (elevation dpr : Scalar) (c : Canvas) :
  occluder_z elevation dpr = (dpr * elevation)%S
  /\ light_position = {| vx := 0%S; vy := Scalar.opp 1%S; vz := 1%S |}
  /\ style (shadow_paint color elevation dpr c) = kFill
  /\ mask_blur_descriptor (shadow_paint color elevation dpr c)
     = Some {| blur_style := Blur_kNormal;
               blur_sigma :=
                 Sigma_of_Radius
                   {| radius :=
                        (kLightRadius * (dpr * elevation)
                         / vy (Mat.GetScale
                                 (Canvas.GetCurrentTransformation c)))%S |} |}
  /\ shadow_offset elevation dpr
     = {| vx := 0%S;
          vy := (Scalar.opp (dpr * elevation) * Scalar.opp 1%S)%S;
          vz := 0%S |}.
Proof. repeat split. Qed.

(** At elevation zero, for a finite device pixel ratio, the occluder
    height and the offset are zero, and so is the blur radius unless the
    vertical scale is itself zero or not a number. *)
Lemma drawShadow_at_zero_elevation (elevation dpr : Scalar) (c : Canvas) :
  Scalar.is_zero elevation = true ->
  Scalar_is_finite dpr = true ->
  Scalar.is_zero (occluder_z elevation dpr) = true
  /\ vx (shadow_offset elevation dpr) = 0%S
  /\ Scalar.is_zero (vy (shadow_offset elevation dpr)) = true
  /\ (let scale_y :=
        vy (Mat.GetScale (Canvas.GetCurrentTransformation c)) in
      Scalar.is_zero scale_y = false ->
      Scalar.is_nan scale_y = false ->
      Scalar.is_zero (radius (shadow_blur_radius elevation dpr c)) = true).
Proof.
  intros Hz Hf.
  assert (Hocc : exists s, occluder_z elevation dpr = S754_zero s).
  { unfold occluder_z.
    destruct elevation as [se| | |]; try discriminate.
    destruct dpr as [sd| | |sd md ed]; try discriminate; eexists;
      reflexivity. }
  destruct Hocc as (s & Hocc).
  split; [now rewrite Hocc|]. split; [reflexivity|]. split.
  - unfold shadow_offset. cbn [vy]. rewrite Hocc. reflexivity.
  - cbv zeta. unfold shadow_blur_radius. cbn [radius]. rewrite Hocc.
    destruct (vy (Mat.GetScale (Canvas.GetCurrentTransformation c)));
      intros Hnz Hnn; try discriminate; reflexivity.
Qed.

(** With [kLightRadius] at 1.0 the blur radius is the occluder height over
    the vertical scale, without the factor 800/600. *)
Lemma shadow_blur_radius_unscaled (elevation dpr : Scalar) (c : Canvas) :
  Scalar.regular (occluder_z elevation dpr) = true ->
  radius (shadow_blur_radius elevation dpr c)
  = (occluder_z elevation dpr
     / vy (Mat.GetScale (Canvas.GetCurrentTransformation c)))%S.
Proof.
  intros Hreg. unfold shadow_blur_radius. cbn [radius].
  change kLightRadius with 1%S.
  now rewrite (Scalar_mul_one_l _ Hreg).
Qed.

(** C6 at a failing input. [kLightRadius] is the integer quotient of 800 by
    600, that is 1.0, and not the ratio 800/600: for elevation 3 at device
    pixel ratio 1 under the identity transform the blur radius of the
    shadow paint is 3.0, where the ratio 800/600 gives 4.0. *)
Theorem kLightRadius_is_integer_quotient :
  kLightRadius = 1%S
  /\ Scalar.ratio 800 600 = S754_finite false 11184811 (-23)
  /\ kLightRadius <> Scalar.ratio 800 600
  /\ (let c := canvas_ (DlDispatcher_new None) in
      let elevation := Scalar.of_Z 3 in
      let dpr := 1%S in
      let scale_y := vy (Mat.GetScale (Canvas.GetCurrentTransformation c)) in
      scale_y = 1%S
      /\ mask_blur_descriptor (shadow_paint DlColor_none elevation dpr c)
         = Some {| blur_style := Blur_kNormal;
                   blur_sigma :=
                     Sigma_of_Radius {| radius := Scalar.of_Z 3 |} |}
      /\ (Scalar.ratio 800 600 * occluder_z elevation dpr / scale_y)%S
         = Scalar.of_Z 4).
Proof.
  split; [reflexivity|]. split; [reflexivity|]. split; [discriminate|].
  cbv zeta. repeat split; vm_compute; reflexivity.
Qed.

(* ===================================================================== *)
(** * Further properties of the dispatcher *)
(* ===================================================================== *)

(** ** Mappers *)

(** X1. [ToBlendMode] is one-to-one and onto: the twenty-nine display-list
    blend modes and the twenty-nine Impeller blend modes correspond, each
    to the mode of the same meaning, and no two modes are merged. *)
Theorem ToBlendMode_is_a_bijection :
  (forall mode, FromBlendMode (ToBlendMode mode) = mode)
  /\ (forall mode, ToBlendMode (FromBlendMode mode) = mode).
Proof. split; intros mode; destruct mode; reflexivity. Qed.

(** X2. The sampler descriptor of a sampling option: minification and
    magnification always filter alike; they are nearest only for
    nearest-neighbour sampling; the mip filter is linear only for
    mipmap-linear sampling; cubic sampling is served by the linear sampler;
    and the descriptor of a filter mode is the one of the sampling option
    of the same name. *)
Theorem ToSamplerDescriptor_filters (options : DlImageSampling) :
  let desc := ToSamplerDescriptor options in
  mag_filter desc = min_filter desc
  /\ (min_filter desc = MinMag_kNearest <-> options = kNearestNeighbor)
  /\ (mip_filter desc = Mip_kLinear <-> options = kMipmapLinear)
  /\ ToSamplerDescriptor kCubic = ToSamplerDescriptor Sampling_kLinear
  /\ ToSamplerDescriptor_FilterMode Filter_kNearest
     = ToSamplerDescriptor kNearestNeighbor
  /\ ToSamplerDescriptor_FilterMode Filter_kLinear
     = ToSamplerDescriptor Sampling_kLinear.
Proof.
  cbv zeta.
  destruct options; cbn; repeat split; intros; congruence.
Qed.

(** ** Attribute directives *)

Section Attributes.

Context `{CanvasKernels}.

Ltac split_matches :=
  repeat match goal with
         | |- context [match ?x with _ => _ end] => destruct x
         end.

Lemma canvas_setColorSource source d :
  canvas_ (setColorSource source d) = canvas_ d
  /\ initial_matrix_ (setColorSource source d) = initial_matrix_ d.
Proof.
  unfold setColorSource.
  destruct source as [source|]; [|split; reflexivity].
  destruct (ToColorSourceType (DlColorSource_type source)); [|split; reflexivity].
  destruct source; try (split; reflexivity);
    try (destruct (ConvertStops _ _ _); split; reflexivity).
  destruct (runtime_effect_texture_inputs _ _ _) as [logged [texture_inputs|]]; split; reflexivity.
Qed.

Lemma canvas_attribute_op (op : DlOp) (d : DlDispatcher) :
  is_attribute_op op = true ->
  canvas_ (dispatch op d) = canvas_ d
  /\ initial_matrix_ (dispatch op d) = initial_matrix_ d.
Proof.
  intros Hop.
  destruct op; try discriminate Hop; cbn [dispatch];
    try apply canvas_setColorSource;
    try (split; reflexivity).
  - unfold setDrawStyle. destruct (ToStyle _). split; reflexivity.
  - unfold setStrokeCap. destruct cap; split; reflexivity.
  - unfold setStrokeJoin. destruct join; split; reflexivity.
  - unfold setMaskFilter. destruct filter as [[]|]; split; reflexivity.
Qed.

(** X3. No attribute directive reaches the canvas: after any [set...]
    directive the canvas - its recorded calls, its save stack and its
    transform - and the initial matrix are what they were. *)
Theorem attribute_directives_leave_the_canvas (op : DlOp) (d : DlDispatcher) :
  is_attribute_op op = true ->
  canvas_ (dispatch op d) = canvas_ d
  /\ initial_matrix_ (dispatch op d) = initial_matrix_ d.
Proof. apply canvas_attribute_op. Qed.

Lemma paint_other_op (op : DlOp) (d : DlDispatcher) :
  is_attribute_op op = false ->
  paint_ (dispatch op d) = paint_ d.
Proof.
  intros Hop.
  destruct op; try discriminate Hop; cbn [dispatch]; try reflexivity.
  - unfold clipRRect. destruct (rrect_isSimple _); reflexivity.
  - unfold drawOval. destruct (Scalar.eqb _ _); reflexivity.
  - unfold drawRRect. destruct (rrect_isSimple _); reflexivity.
  - unfold drawPath. split_matches; reflexivity.
  - unfold drawPoints. cbv zeta. split_matches; reflexivity.
  - unfold drawImage. split_matches; reflexivity.
  - destruct display_list. reflexivity.
  - unfold drawTextBlob. split_matches; reflexivity.
  - unfold drawShadow. cbv zeta. split_matches; reflexivity.
Qed.

(** X4. Only attribute directives change the paint: a save, a transform, a
    clip or a draw directive - [drawLine], [drawPoints] and [drawShadow],
    which draw with a paint of their own, and nested display lists
    included - leaves the current paint as it was. *)
Theorem only_attribute_directives_change_the_paint
  (op : DlOp) (d : DlDispatcher) :
  is_attribute_op op = false ->
  paint_ (dispatch op d) = paint_ d.
Proof. apply paint_other_op. Qed.

Lemma paint_attribute_op (op : DlOp) (d d' : DlDispatcher) :
  is_attribute_op op = true ->
  paint_ d = paint_ d' ->
  paint_ (dispatch op d) = paint_ (dispatch op d').
Proof.
  intros Hop Hpaint.
  destruct op; try discriminate Hop; cbn [dispatch].
  - exact Hpaint.
  - unfold setDither. cbn. now rewrite Hpaint.
  - unfold setDrawStyle. destruct (ToStyle _). cbn. now rewrite Hpaint.
  - unfold setColor. cbn. now rewrite Hpaint.
  - unfold setStrokeWidth. cbn. now rewrite Hpaint.
  - unfold setStrokeMiter. cbn. now rewrite Hpaint.
  - unfold setStrokeCap. destruct cap; cbn; now rewrite Hpaint.
  - unfold setStrokeJoin. destruct join; cbn; now rewrite Hpaint.
  - unfold setColorSource.
    destruct source as [source|]; [|cbn; now rewrite Hpaint].
    destruct source; cbn [ToColorSourceType DlColorSource_type];
      try (destruct (ConvertStops _ _ _));
      try (destruct (runtime_effect_texture_inputs _ _ _) as [logged [texture_inputs|]]);
      cbn; now rewrite Hpaint.
  - unfold setColorFilter. cbn. now rewrite Hpaint.
  - unfold setInvertColors. cbn. now rewrite Hpaint.
  - unfold setBlendMode. cbn. now rewrite Hpaint.
  - exact Hpaint.
  - unfold setMaskFilter. destruct filter as [[]|]; cbn; now rewrite Hpaint.
  - unfold setImageFilter. cbn. now rewrite Hpaint.
Qed.

Lemma paint_replay_attribute_ops : forall ops d d',
  paint_ d = paint_ d' ->
  paint_ (replay ops d) = paint_ (replay (filter is_attribute_op ops) d').
Proof.
  unfold replay.
  induction ops as [|op rest IH]; intros d d' Hpaint; [exact Hpaint|].
  cbn [fold_left filter].
  destruct (is_attribute_op op) eqn:Hop.
  - cbn [fold_left]. apply IH. apply paint_attribute_op; assumption.
  - apply IH. rewrite paint_other_op by exact Hop. exact Hpaint.
Qed.

(** X5. The paint is the work of the attribute directives alone. After
    any stream the current paint is the paint that the attribute
    directives of the stream, replayed by themselves in the same order on
    a dispatcher that starts with the same paint, arrive at: no transform,
    clip, save, restore or draw directive and no nested display list has a
    part in it, and neither has the canvas. *)
Theorem paint_is_determined_by_attribute_directives
  (ops : list DlOp) (d : DlDispatcher) (other_canvas : Canvas) :
  paint_ (replay ops d)
  = paint_ (replay (filter is_attribute_op ops) (with_canvas other_canvas d)).
Proof. apply paint_replay_attribute_ops. reflexivity. Qed.

(** X6. [setColorSource] writes the color source and, for a solid color
    only, the color: every other member of the paint stays; a source that
    is not a solid color - and a null one - leaves the paint's color as it
    was; a solid color source is a reset of the source followed by
    [setColor]. *)
Theorem setColorSource_writes_source_and_color
  (source : option DlColorSource) (d : DlDispatcher) :
  let d' := setColorSource source d in
  Paint_stroke_and_filters (paint_ d') = Paint_stroke_and_filters (paint_ d)
  /\ match source with
     | Some (DlColorColorSource dl_color) =>
         d' = setColor dl_color (setColorSource None d)
         /\ color (paint_ d') = ToColor dl_color
         /\ color_source (paint_ d') = MakeColor
     | _ => color (paint_ d') = color (paint_ d)
     end.
Proof.
  cbv zeta. unfold setColorSource.
  destruct source as [source|]; [|split; reflexivity].
  destruct source; cbn [ToColorSourceType DlColorSource_type];
    try (split; [|split; [|split]]; reflexivity);
    try (destruct (ConvertStops _ _ _); split; reflexivity);
    try (split; reflexivity).
  destruct (runtime_effect_texture_inputs _ _ _) as [logged [texture_inputs|]]; split; reflexivity.
Qed.

(** X7. A color source that is assigned has the kind of its descriptor:
    whenever the descriptor is not a runtime effect with a sampler that is
    null or not an image, the paint's color source answers [GetType] with
    the type [ToColorSourceType] gives for the descriptor. *)
Theorem setColorSource_keeps_the_kind
  (source : DlColorSource) (d : DlDispatcher) :
  (forall runtime_effect uniform_data samplers,
     source = DlRuntimeEffectColorSource runtime_effect uniform_data samplers ->
     first_offender samplers = None) ->
  Some (ColorSource_GetType
          (color_source (paint_ (setColorSource (Some source) d))))
  = ToColorSourceType (DlColorSource_type source).
Proof.
  intros Hsamplers.
  destruct source;
    try (unfold setColorSource; cbn [ToColorSourceType DlColorSource_type];
         try reflexivity; destruct (ConvertStops _ _ _); reflexivity).
  rewrite setColorSource_runtime_effect, (Hsamplers _ _ _ eq_refl).
  reflexivity.
Qed.

End Attributes.

(** An attribute directive on a dispatcher that has drawn already. *)
Lemma attribute_directives_leave_the_canvas_witness :
  let d := @drawPaint (DlDispatcher_new None) in
  let op := Op_setStrokeCap DlCap_kRound in
  canvas_ (@dispatch plain_kernels op d) = canvas_ d
  /\ initial_matrix_ (@dispatch plain_kernels op d) = initial_matrix_ d.
Proof.
  cbv zeta.
  exact (@attribute_directives_leave_the_canvas plain_kernels
           (Op_setStrokeCap DlCap_kRound) (drawPaint (DlDispatcher_new None))
           eq_refl).
Defined.

(** A line drawn with a fill paint leaves the paint a fill paint. *)
Lemma only_attribute_directives_change_the_paint_witness :
  let d := DlDispatcher_new None in
  let op :=
    Op_drawLine {| fX := 0%S; fY := 0%S |} {| fX := 1%S; fY := 1%S |} in
  paint_ (@dispatch plain_kernels op d) = paint_ d.
Proof.
  cbv zeta.
  exact (@only_attribute_directives_change_the_paint plain_kernels
           (Op_drawLine {| fX := 0%S; fY := 0%S |} {| fX := 1%S; fY := 1%S |})
           (DlDispatcher_new None) eq_refl).
Defined.

(** A runtime effect with one image sampler. *)
Lemma setColorSource_keeps_the_kind_witness :
  let image := {| impeller_texture := None |} in
  let sampler :=
    DlImageColorSource image DlTile_kClamp DlTile_kClamp kNearestNeighbor
      {| sk0 := 1%S; sk1 := 0%S; sk2 := 0%S; sk3 := 0%S; sk4 := 1%S;
         sk5 := 0%S; sk6 := 0%S; sk7 := 0%S; sk8 := 1%S |} in
  let source :=
    DlRuntimeEffectColorSource {| runtime_stage := 0%nat |} []
      [Some sampler] in
  Some (ColorSource_GetType
          (color_source
             (paint_ (setColorSource (Some source) (DlDispatcher_new None)))))
  = Some Type_kRuntimeEffect.
Proof.
  cbv zeta.
  refine (@setColorSource_keeps_the_kind _ (DlDispatcher_new None) _).
  intros runtime_effect uniform_data samplers Heq.
  injection Heq as _ _ <-. reflexivity.
Defined.

(** ** Gradient vectors *)

Lemma ConvertStops_loop_lengths (dl_colors : list DlColor)
  (dl_stops : list Scalar) :
  forall (l : list nat) (colors : list Color) (stops : list Scalar),
    let r :=
      fold_left
        (fun '(colors, stops) i =>
           (colors ++ [ToColor (nth i dl_colors DlColor_none)],
            stops ++ [nth i dl_stops S754_nan]))
        l (colors, stops) in
    List.length (fst r) = (List.length colors + List.length l)%nat
    /\ List.length (snd r) = (List.length stops + List.length l)%nat.
Proof.
  induction l as [|i l IH]; intros colors stops; cbv zeta.
  - cbn. lia.
  - cbn [fold_left].
    destruct (IH (colors ++ [ToColor (nth i dl_colors DlColor_none)])
                (stops ++ [nth i dl_stops S754_nan])) as [Hc Hs].
    rewrite Hc, Hs, !length_app. cbn. lia.
Qed.

(** X8. [ConvertStops] keeps the two vectors aligned: it appends to the
    color vector and to the stop vector the same number of entries - one
    per stop of the gradient, and at most one synthetic entry at either
    end - so colors and stops that are index-aligned when it is called are
    index-aligned when it returns. *)
Theorem ConvertStops_keeps_the_vectors_aligned
  (gradient : DlGradient) (colors : list Color) (stops : list Scalar) :
  let r := ConvertStops gradient colors stops in
  exists n,
    List.length (fst r) = (List.length colors + n)%nat
    /\ List.length (snd r) = (List.length stops + n)%nat
    /\ (stop_count gradient <= n <= stop_count gradient + 2)%nat.
Proof.
  cbv zeta. unfold ConvertStops. cbv zeta.
  destruct (Scalar.neqb (nth 0 (dl_stops gradient) S754_nan) 0%S).
  - pose proof (ConvertStops_loop_lengths (dl_colors gradient)
                  (dl_stops gradient) (seq 0 (stop_count gradient))
                  (colors ++ [ToColor (nth 0 (dl_colors gradient) DlColor_none)])
                  (stops ++ [0%S])) as Hloop.
    cbv zeta in Hloop.
    destruct (fold_left _ _ _) as [colors' stops'].
    cbn [fst snd] in Hloop. destruct Hloop as [Hc Hs].
    rewrite length_seq, length_app in Hc, Hs. cbn [List.length] in Hc, Hs.
    destruct (Scalar.neqb (back S754_nan stops') 1%S); cbn [fst snd].
    + exists (stop_count gradient + 2)%nat. rewrite !length_app. cbn. lia.
    + exists (stop_count gradient + 1)%nat. lia.
  - pose proof (ConvertStops_loop_lengths (dl_colors gradient)
                  (dl_stops gradient) (seq 0 (stop_count gradient))
                  colors stops) as Hloop.
    cbv zeta in Hloop.
    destruct (fold_left _ _ _) as [colors' stops'].
    cbn [fst snd] in Hloop. destruct Hloop as [Hc Hs].
    rewrite length_seq in Hc, Hs.
    destruct (Scalar.neqb (back S754_nan stops') 1%S); cbn [fst snd].
    + exists (stop_count gradient + 1)%nat. rewrite !length_app. cbn. lia.
    + exists (stop_count gradient). lia.
Qed.

(** ** Image filter descriptors *)

(** X9. When an image filter descriptor yields no procedure.
    [ToImageFilterProc] answers with a procedure exactly for the
    descriptors that [yields_procedure] accepts: a blur and a matrix
    always, a morphology unless a radius is negative, a color filter unless
    its filter is null, a local matrix when its inner filter is there and
    yields one, a composition when one of its sides does. *)
Theorem ToImageFilterProc_yields (filter : DlImageFilter) :
  match ToImageFilterProc (Some filter) with
  | Some _ => true
  | None => false
  end = yields_procedure filter.
Proof.
  cbn [ToImageFilterProc]. revert filter.
  fix IH 1. intros filter.
  destruct filter as [sx sy tm|rx ry|rx ry|m s|outer inner|cf|m inner];
    cbn [ToImageFilterProc_at yields_procedure].
  - reflexivity.
  - destruct (Scalar.ltb rx 0%S || Scalar.ltb ry 0%S); reflexivity.
  - destruct (Scalar.ltb rx 0%S || Scalar.ltb ry 0%S); reflexivity.
  - reflexivity.
  - destruct outer as [outer|], inner as [inner|];
      try rewrite <- (IH outer); try rewrite <- (IH inner);
      try destruct (ToImageFilterProc_at outer);
      try destruct (ToImageFilterProc_at inner); reflexivity.
  - destruct cf as [[]|]; reflexivity.
  - destruct inner as [inner|]; [|reflexivity].
    rewrite <- (IH inner). destruct (ToImageFilterProc_at inner); reflexivity.
Qed.

(** X10. Composition of image filters is associative: composing [a] over
    the composition of [b] over [c], and composing the composition of [a]
    over [b] over [c], yield procedures that build the same filter node on
    every input - or both yield none. Null and absent sides are allowed. *)
Theorem compose_is_associative (a b c : option DlImageFilter) :
  same_procedure
    (ToImageFilterProc
       (Some (DlComposeImageFilter a
                (Some (DlComposeImageFilter b c)))))
    (ToImageFilterProc
       (Some (DlComposeImageFilter
                (Some (DlComposeImageFilter a b)) c))).
Proof.
  cbn [ToImageFilterProc ToImageFilterProc_at].
  destruct (match a with Some f => ToImageFilterProc_at f | None => None end);
    destruct (match b with Some f => ToImageFilterProc_at f | None => None end);
    destruct (match c with Some f => ToImageFilterProc_at f | None => None end);
    cbn; auto.
Qed.

(** X11. Only a matrix filter looks at the subpass flag: the procedure of
    a descriptor in which no matrix filter occurs builds the same node
    whether it runs in a subpass or not. *)
Theorem subpass_flag_reaches_matrix_filters_only
  (filter : DlImageFilter) (proc : ImageFilterProc) :
  mentions_matrix_filter filter = false ->
  ToImageFilterProc (Some filter) = Some proc ->
  forall input effect_transform,
    proc input effect_transform true = proc input effect_transform false.
Proof.
  cbn [ToImageFilterProc]. revert filter proc.
  fix IH 1. intros filter proc Hmat Hproc.
  destruct filter as [sx sy tm|rx ry|rx ry|m s|outer inner|cf|m inner];
    cbn [ToImageFilterProc_at mentions_matrix_filter] in Hmat, Hproc.
  - injection Hproc as <-. reflexivity.
  - destruct (Scalar.ltb rx 0%S || Scalar.ltb ry 0%S); [discriminate|].
    injection Hproc as <-. reflexivity.
  - destruct (Scalar.ltb rx 0%S || Scalar.ltb ry 0%S); [discriminate|].
    injection Hproc as <-. reflexivity.
  - discriminate.
  - apply orb_false_elim in Hmat. destruct Hmat as [Ho Hi].
    destruct outer as [outer|], inner as [inner|].
    + pose proof (IH outer) as IHo. pose proof (IH inner) as IHi.
      destruct (ToImageFilterProc_at outer) as [po|],
               (ToImageFilterProc_at inner) as [pi|].
      * injection Hproc as <-. intros input effect_transform. cbv zeta.
        rewrite (IHi pi Hi eq_refl). apply (IHo po Ho eq_refl).
      * injection Hproc as <-. apply (IHo po Ho eq_refl).
      * injection Hproc as <-. apply (IHi pi Hi eq_refl).
      * discriminate.
    + pose proof (IH outer) as IHo.
      destruct (ToImageFilterProc_at outer) as [po|]; [|discriminate].
      injection Hproc as <-. apply (IHo po Ho eq_refl).
    + pose proof (IH inner) as IHi.
      destruct (ToImageFilterProc_at inner) as [pi|]; [|discriminate].
      injection Hproc as <-. apply (IHi pi Hi eq_refl).
    + discriminate.
  - destruct cf as [[]|]; cbn in Hproc; try discriminate;
      injection Hproc as <-; reflexivity.
  - destruct inner as [inner|]; [|discriminate].
    pose proof (IH inner) as IHi.
    destruct (ToImageFilterProc_at inner) as [pi|]; [|discriminate].
    injection Hproc as <-. intros input effect_transform. cbv zeta.
    now rewrite (IHi pi Hmat eq_refl).
Qed.

(** A blur composed over a dilation. *)
Lemma subpass_flag_reaches_matrix_filters_only_witness :
  let filter :=
    DlComposeImageFilter
      (Some (DlBlurImageFilter 1%S 1%S DlTile_kClamp))
      (Some (DlDilateImageFilter 1%S 1%S)) in
  exists proc,
    ToImageFilterProc (Some filter) = Some proc
    /\ forall input effect_transform,
         proc input effect_transform true = proc input effect_transform false.
Proof.
  cbv zeta. eexists. split; [reflexivity|].
  exact (@subpass_flag_reaches_matrix_filters_only
           (DlComposeImageFilter
              (Some (DlBlurImageFilter 1%S 1%S DlTile_kClamp))
              (Some (DlDilateImageFilter 1%S 1%S))) _ eq_refl eq_refl).
Defined.

(** ** Transform directives *)

(** X12. The two matrix directives hand the canvas the matrix they are
    given. [transformFullPerspective] takes its sixteen arguments row by
    row and builds the column-major matrix with these rows: called with the
    rows of a matrix [m] it concatenates [m]. [transform2DAffine] is the
    conversion [ToMatrix] of the 3x3 matrix with the same two rows and
    [0 0 1] below them, and the bottom row of that matrix is [0 0 0 1]. *)
Theorem matrix_directives_concatenate_their_matrix :
  (forall (m : Matrix) (d : DlDispatcher),
     transformFullPerspective
       (m0 m) (m4 m) (m8 m) (m12 m)
       (m1 m) (m5 m) (m9 m) (m13 m)
       (m2 m) (m6 m) (m10 m) (m14 m)
       (m3 m) (m7 m) (m11 m) (m15 m) d
     = on_canvas (Canvas.Transform m) d)
  /\ (forall (mxx mxy mxt myx myy myt : Scalar) (d : DlDispatcher),
        let affine :=
          ToMatrix {| sk0 := mxx; sk1 := mxy; sk2 := mxt;
                      sk3 := myx; sk4 := myy; sk5 := myt;
                      sk6 := 0%S; sk7 := 0%S; sk8 := 1%S |} in
        transform2DAffine mxx mxy mxt myx myy myt d
        = on_canvas (Canvas.Transform affine) d
        /\ (m3 affine, m7 affine, m11 affine, m15 affine)
           = (0%S, 0%S, 0%S, 1%S)).
Proof.
  split.
  - intros [] d. reflexivity.
  - intros. split; reflexivity.
Qed.

(** ** Shadows *)

(** X13. [drawShadow] is scoped: the translation it concatenates before it
    draws is undone by its [Restore]. After it the save stack - the current
    transform and every saved scope - the paint, the initial matrix and the
    diagnostics are what they were. *)
Theorem drawShadow_is_scoped
  (path : SkPath) (dl_color : DlColor) (elevation : Scalar)
  (transparent_occluder : bool) (dpr : Scalar) (d : DlDispatcher) :
  let d' := drawShadow path dl_color elevation transparent_occluder dpr d in
  save_stack (canvas_ d') = save_stack (canvas_ d)
  /\ initial_cull_rect (canvas_ d') = initial_cull_rect (canvas_ d)
  /\ paint_ d' = paint_ d
  /\ initial_matrix_ d' = initial_matrix_ d
  /\ diagnostics d' = diagnostics d.
Proof.
  cbv zeta. unfold drawShadow. cbv zeta.
  destruct (path_isRect path) as [rect|];
    [|destruct (and_then (path_isRRect path) rrect_isSimple) as [rrect|];
      [|destruct (and_then (path_isOval path) _) as [oval|]]];
    repeat split.
Qed.

(** ** Points *)

Lemma recorded_draw_lines paint : forall n points c,
  (List.length points <= n)%nat ->
  exists calls,
    recorded (draw_lines points paint c) = recorded c ++ calls
    /\ List.length calls = Nat.div2 (List.length points)
    /\ Forall (fun call =>
                 is_draw_call call = true /\ call_paint call = Some paint)
         calls.
Proof.
  induction n as [|n IH]; intros points c Hn.
  - destruct points; [|cbn in Hn; lia].
    exists []. cbn. rewrite app_nil_r. auto.
  - destruct points as [|p0 [|p1 rest]].
    + exists []. cbn. rewrite app_nil_r. auto.
    + exists []. cbn. rewrite app_nil_r. auto.
    + cbn [draw_lines].
      destruct (IH rest
                  (Canvas.DrawPath
                     (TakePath [AddLine (ToPoint p0) (ToPoint p1)] kUnknown
                        kNonZero) paint c)
                  ltac:(cbn in Hn; lia)) as (calls & Hrec & Hlen & Hall).
      eexists (_ :: calls). rewrite Hrec. cbn [Canvas.DrawPath Canvas.record
        recorded]. rewrite <- app_assoc. split; [reflexivity|].
      split; [cbn; now rewrite Hlen|].
      constructor; [split; reflexivity|exact Hall].
Qed.

Lemma recorded_draw_polygon paint : forall points p0 c,
  exists calls,
    recorded (draw_polygon p0 points paint c) = recorded c ++ calls
    /\ List.length calls = List.length points
    /\ Forall (fun call =>
                 is_draw_call call = true /\ call_paint call = Some paint)
         calls.
Proof.
  induction points as [|p1 rest IH]; intros p0 c.
  - exists []. cbn. rewrite app_nil_r. auto.
  - cbn [draw_polygon].
    destruct (IH (ToPoint p1)
                (Canvas.DrawPath
                   (TakePath [AddLine p0 (ToPoint p1)] kUnknown kNonZero)
                   paint c)) as (calls & Hrec & Hlen & Hall).
    eexists (_ :: calls). rewrite Hrec. cbn [Canvas.DrawPath Canvas.record
      recorded]. rewrite <- app_assoc. split; [reflexivity|].
    split; [cbn; now rewrite Hlen|].
    constructor; [split; reflexivity|exact Hall].
Qed.

Lemma calls_since_app (c c' : Canvas) (calls : list CanvasCall) :
  recorded c' = recorded c ++ calls -> calls_since c c' = calls.
Proof.
  intros Hrec. unfold calls_since. rewrite Hrec.
  rewrite skipn_app, Nat.sub_diag, skipn_all. reflexivity.
Qed.

(** X14. The calls of [drawPoints] on an array that holds [count] points:
    one call for the points mode, one per pair of points for the lines
    mode - [count / 2], a last point without partner is dropped - and one
    per segment for the polygon mode - [count - 1], none for fewer than two
    points. Each is a draw call with the current paint turned to stroke
    style, whatever the style of the current paint, which itself stays. *)
Theorem drawPoints_calls
  (mode : PointMode) (count : nat) (points : list SkPoint)
  (d : DlDispatcher) :
  (count <= List.length points)%nat ->
  let d' := drawPoints mode count points d in
  let calls := calls_since (canvas_ d) (canvas_ d') in
  recorded (canvas_ d') = recorded (canvas_ d) ++ calls
  /\ List.length calls
     = match mode with
       | kPoints => 1%nat
       | kLines => Nat.div2 count
       | kPolygon => (count - 1)%nat
       end
  /\ Forall (fun call =>
               is_draw_call call = true
               /\ call_paint call = Some (Paint_with_style kStroke (paint_ d)))
       calls
  /\ paint_ d' = paint_ d.
Proof.
  intros Hcount. cbv zeta.
  assert (Hfirstn : List.length (firstn count points) = count)
    by (rewrite length_firstn; lia).
  assert (Hgoal :
    exists calls,
      recorded (canvas_ (drawPoints mode count points d))
      = recorded (canvas_ d) ++ calls
      /\ List.length calls
         = match mode with
           | kPoints => 1%nat
           | kLines => Nat.div2 count
           | kPolygon => (count - 1)%nat
           end
      /\ Forall (fun call =>
                   is_draw_call call = true
                   /\ call_paint call
                      = Some (Paint_with_style kStroke (paint_ d))) calls
      /\ paint_ (drawPoints mode count points d) = paint_ d).
  { unfold drawPoints. cbv zeta. destruct mode.
    - eexists [_]. cbn. split; [reflexivity|]. split; [reflexivity|].
      split; [|reflexivity]. constructor; [split; reflexivity|constructor].
    - destruct (@recorded_draw_lines (Paint_with_style kStroke (paint_ d))
                  (List.length (firstn count points)) (firstn count points)
                  (canvas_ d) (le_n _)) as (calls & Hrec & Hlen & Hall).
      exists calls. cbn [on_canvas with_canvas canvas_ paint_].
      rewrite Hfirstn in Hlen. auto.
    - destruct (Nat.ltb 1 count) eqn:Hlt.
      + apply Nat.ltb_lt in Hlt.
        destruct (firstn count points) as [|sp0 rest] eqn:Hpts;
          [cbn in Hfirstn; lia|].
        destruct (@recorded_draw_polygon (Paint_with_style kStroke (paint_ d))
                    rest (ToPoint sp0) (canvas_ d))
          as (calls & Hrec & Hlen & Hall).
        exists calls. cbn [on_canvas with_canvas canvas_ paint_].
        cbn in Hfirstn.
        split; [exact Hrec|]. split; [lia|]. split; [exact Hall|reflexivity].
      + apply Nat.ltb_ge in Hlt. exists []. rewrite app_nil_r.
        split; [reflexivity|]. split; [cbn; lia|].
        split; [constructor|reflexivity]. }
  destruct Hgoal as (calls & Hrec & Hlen & Hall & Hpaint).
  rewrite (@calls_since_app _ _ _ Hrec). auto.
Qed.

(** Five points in the lines mode: two segments, the fifth point is
    dropped. *)
Lemma drawPoints_calls_witness :
  let p (n : Z) := {| fX := Scalar.of_Z n; fY := Scalar.of_Z n |} in
  let points := [p 0; p 1; p 2; p 3; p 4] in
  let d := DlDispatcher_new None in
  let d' := drawPoints kLines 5 points d in
  List.length (calls_since (canvas_ d) (canvas_ d')) = 2%nat.
Proof.
  cbv zeta.
  exact (proj1 (proj2
    (@drawPoints_calls kLines 5
       [ {| fX := Scalar.of_Z 0; fY := Scalar.of_Z 0 |};
         {| fX := Scalar.of_Z 1; fY := Scalar.of_Z 1 |};
         {| fX := Scalar.of_Z 2; fY := Scalar.of_Z 2 |};
         {| fX := Scalar.of_Z 3; fY := Scalar.of_Z 3 |};
         {| fX := Scalar.of_Z 4; fY := Scalar.of_Z 4 |} ]
       (DlDispatcher_new None) (le_n 5)))).
Defined.

(** ** Atlases *)

(** X15. [drawAtlas] on arrays that hold [count] sprites hands the canvas
    one call with [count] transforms and [count] texture rectangles, and
    with [count] colors - or with no color at all when the color array is
    null. *)
Theorem drawAtlas_forwards_count_sprites
  (atlas : DlImage) (xform : list SkRSXform) (tex : list SkRect)
  (colors : option (list DlColor)) (count : nat) (mode : DlBlendMode)
  (sampling : DlImageSampling) (cull_rect : option SkRect)
  (render_with_attributes : bool) (d : DlDispatcher) :
  (count <= List.length xform)%nat ->
  (count <= List.length tex)%nat ->
  (forall dl_colors, colors = Some dl_colors ->
                     (count <= List.length dl_colors)%nat) ->
  exists image transforms texture_coordinates call_colors blend desc cull paint,
    recorded
      (canvas_ (drawAtlas atlas xform tex colors count mode sampling cull_rect
                  render_with_attributes d))
    = recorded (canvas_ d)
      ++ [Call_DrawAtlas image transforms texture_coordinates call_colors
            blend desc cull paint]
    /\ List.length transforms = count
    /\ List.length texture_coordinates = count
    /\ List.length call_colors
       = match colors with Some _ => count | None => O end.
Proof.
  intros Hxform Htex Hcolors.
  unfold drawAtlas. cbn [on_canvas with_canvas canvas_ Canvas.DrawAtlas
    Canvas.record recorded].
  do 8 eexists. split; [reflexivity|].
  unfold ToRSXForms, ToRects, ToColors.
  rewrite !length_map, !length_firstn.
  split; [lia|]. split; [lia|].
  destruct colors as [dl_colors|]; [|reflexivity].
  rewrite length_map, length_firstn.
  specialize (Hcolors dl_colors eq_refl). lia.
Qed.

(** Two sprites out of three, without colors. *)
Lemma drawAtlas_forwards_count_sprites_witness :
  let x := {| fSCos := 1%S; fSSin := 0%S; fTx := 0%S; fTy := 0%S |} in
  let r := SkRect_MakeWH 1%S 1%S in
  let d :=
    drawAtlas {| impeller_texture := None |} [x; x; x] [r; r; r] None 2
      Dl_kSrcOver kNearestNeighbor None true (DlDispatcher_new None) in
  exists image transforms texture_coordinates call_colors blend desc cull paint,
    recorded (canvas_ d)
    = recorded (canvas_ (DlDispatcher_new None))
      ++ [Call_DrawAtlas image transforms texture_coordinates call_colors
            blend desc cull paint]
    /\ List.length transforms = 2%nat
    /\ List.length texture_coordinates = 2%nat
    /\ List.length call_colors = O.
Proof.
  cbv zeta.
  refine (@drawAtlas_forwards_count_sprites
            {| impeller_texture := None |} _ _ None 2 Dl_kSrcOver
            kNearestNeighbor None true (DlDispatcher_new None) _ _ _).
  - cbn. lia.
  - cbn. lia.
  - intros dl_colors Heq. discriminate Heq.
Defined.

(** ** Which directives draw *)

Section DrawCalls.

Context `{CanvasKernels}.

Ltac split_matches :=
  repeat match goal with
         | |- context [match ?x with _ => _ end] => destruct x
         end.

Ltac no_draw :=
  unfold Canvas.draw_calls; cbn; rewrite ?filter_app; cbn;
  rewrite ?app_nil_r; reflexivity.

(** X16. Attribute, save, restore, transform and clip directives never
    draw: after any of them the draw calls the canvas has recorded are the
    ones it had recorded before. *)
Theorem state_directives_never_draw (op : DlOp) (d : DlDispatcher) :
  is_attribute_op op || is_canvas_state_op op = true ->
  Canvas.draw_calls (canvas_ (dispatch op d)) = Canvas.draw_calls (canvas_ d).
Proof.
  intros Hop.
  destruct (is_attribute_op op) eqn:Hattr.
  - now rewrite (proj1 (canvas_attribute_op op d Hattr)).
  - cbn [orb] in Hop. clear Hattr.
    destruct op; try discriminate Hop; cbn [dispatch]; try no_draw.
    + unfold restore, Canvas.Restore. cbv zeta. cbn [canvas_ with_canvas].
      destruct (canvas_ d) as [cur bel cull rec]. destruct bel; no_draw.
    + unfold clipRRect. destruct (rrect_isSimple rrect); no_draw.
Qed.

Ltac one_draw :=
  eexists; split;
  [ unfold Canvas.draw_calls; cbn; rewrite ?filter_app; cbn;
    rewrite ?app_nil_r; reflexivity
  | reflexivity ].

(** X17. A shape, image or mesh directive that calls the canvas itself
    draws once: [drawColor], [drawPaint], [drawLine], [drawRect],
    [drawOval], [drawCircle], [drawRRect], [drawDRRect], [drawPath],
    [drawArc], [drawVertices], [drawImageRect], [drawAtlas] and
    [drawShadow] each add exactly one draw call to the ones the canvas had
    recorded. [drawImageNine] is not one of them: it makes no call of its
    own and leaves the drawing to the nine-patch converter. *)
Theorem shape_directives_draw_once (op : DlOp) (d : DlDispatcher) :
  is_single_draw_op op = true ->
  exists call,
    Canvas.draw_calls (canvas_ (dispatch op d))
    = Canvas.draw_calls (canvas_ d) ++ [call]
    /\ is_draw_call call = true.
Proof.
  intros Hop.
  destruct op; try discriminate Hop; cbn [dispatch]; try one_draw.
  - unfold drawOval. destruct (Scalar.eqb _ _); one_draw.
  - unfold drawRRect. destruct (rrect_isSimple rrect); one_draw.
  - unfold drawPath. split_matches; one_draw.
  - unfold drawShadow. cbv zeta. split_matches; one_draw.
Qed.

(** X18. Directives that draw without the current paint. [drawColor]
    draws with a paint of its own, [drawShadow] with the shadow paint, and
    [drawImageRect], [drawImage] and [saveLayer] with a default paint when
    they are told not to render with attributes: what each of them hands
    to the canvas is the same whatever the current paint is. *)
Theorem directives_that_ignore_the_paint (p : Paint) (d : DlDispatcher) :
  (forall dl_color dl_mode,
     canvas_ (drawColor dl_color dl_mode (with_paint p d))
     = canvas_ (drawColor dl_color dl_mode d))
  /\ (forall path dl_color elevation transparent_occluder dpr,
        canvas_ (drawShadow path dl_color elevation transparent_occluder dpr
                   (with_paint p d))
        = canvas_ (drawShadow path dl_color elevation transparent_occluder
                     dpr d))
  /\ (forall image src dst sampling constraint,
        canvas_ (drawImageRect image src dst sampling false constraint
                   (with_paint p d))
        = canvas_ (drawImageRect image src dst sampling false constraint d))
  /\ (forall image point sampling,
        canvas_ (drawImage image point sampling false (with_paint p d))
        = canvas_ (drawImage image point sampling false d))
  /\ (forall bounds backdrop,
        canvas_ (saveLayer bounds {| renders_with_attributes := false |}
                   backdrop (with_paint p d))
        = canvas_ (saveLayer bounds {| renders_with_attributes := false |}
                     backdrop d)).
Proof.
  split; [reflexivity|]. split.
  - intros. unfold drawShadow. cbv zeta. split_matches; reflexivity.
  - split; [reflexivity|]. split; [|reflexivity].
    intros. unfold drawImage. split_matches; reflexivity.
Qed.

(** X19. [drawImageNine] and [drawAtlas] do not look at their
    [render_with_attributes] argument: what they do is the same whether
    they are told to render with attributes or not, and [drawAtlas] draws
    with the current paint either way, where [drawImageRect] draws with a
    default paint when it is told not to. *)
Theorem nine_patch_and_atlas_always_use_the_paint
  (flag : bool) (d : DlDispatcher) :
  (forall image center dst filter,
     drawImageNine image center dst filter flag d
     = drawImageNine image center dst filter true d)
  /\ (forall atlas xform tex colors count mode sampling cull_rect,
        drawAtlas atlas xform tex colors count mode sampling cull_rect flag d
        = drawAtlas atlas xform tex colors count mode sampling cull_rect
            true d
        /\ exists call,
             recorded
               (canvas_ (drawAtlas atlas xform tex colors count mode sampling
                           cull_rect flag d))
             = recorded (canvas_ d) ++ [call]
             /\ call_paint call = Some (paint_ d))
  /\ (forall image src dst sampling constraint,
      exists call,
        recorded
          (canvas_ (drawImageRect image src dst sampling flag constraint d))
        = recorded (canvas_ d) ++ [call]
        /\ call_paint call
           = Some (if flag then paint_ d else Paint_default)).
Proof.
  split; [|split]; intros.
  - reflexivity.
  - split; [reflexivity|]. eexists. split; reflexivity.
  - eexists. split; reflexivity.
Qed.

End DrawCalls.

(** A clip of a rounded rect that is not simple, after a draw. *)
Lemma state_directives_never_draw_witness :
  let d := drawPaint (DlDispatcher_new None) in
  let rrect :=
    {| rrect_rect := SkRect_MakeWH 1%S 1%S; rrect_isSimple := false;
       rrect_getSimpleRadii := {| fX := 0%S; fY := 0%S |};
       rrect_id := 0%nat |} in
  let op := Op_clipRRect rrect ClipOp_kIntersect true in
  Canvas.draw_calls (canvas_ (@dispatch plain_kernels op d))
  = Canvas.draw_calls (canvas_ d).
Proof.
  cbv zeta.
  exact (@state_directives_never_draw plain_kernels
           (Op_clipRRect
              {| rrect_rect := SkRect_MakeWH 1%S 1%S; rrect_isSimple := false;
                 rrect_getSimpleRadii := {| fX := 0%S; fY := 0%S |};
                 rrect_id := 0%nat |} ClipOp_kIntersect true)
           (drawPaint (DlDispatcher_new None)) eq_refl).
Defined.

(** An oval that is not a circle. *)
Lemma shape_directives_draw_once_witness :
  let d := DlDispatcher_new None in
  let op := Op_drawOval (SkRect_MakeWH (Scalar.of_Z 2) 1%S) in
  exists call,
    Canvas.draw_calls (canvas_ (@dispatch plain_kernels op d))
    = Canvas.draw_calls (canvas_ d) ++ [call]
    /\ is_draw_call call = true.
Proof.
  cbv zeta.
  exact (@shape_directives_draw_once plain_kernels
           (Op_drawOval (SkRect_MakeWH (Scalar.of_Z 2) 1%S))
           (DlDispatcher_new None) eq_refl).
Defined.

(** ** Induction over directives and their nested lists *)

Lemma DlOp_nested_ind (P : DlOp -> Prop) :
  (forall op, (forall dl o, op <> Op_drawDisplayList dl o) -> P op) ->
  (forall ops rtree opacity,
     Forall P ops ->
     P (Op_drawDisplayList (MakeDisplayList ops rtree) opacity)) ->
  forall op, P op.
Proof.
  intros Hflat Hnested. fix IH 1. intros op.
  destruct op; try (apply Hflat; intros dl o; discriminate).
  destruct display_list as [ops rtree]. apply Hnested.
  revert ops. fix IHops 1. intros [|op ops]; constructor.
  - apply IH.
  - apply IHops.
Qed.

(** ** What a directive adds to the picture *)

Lemma extends_refl {A} (l : list A) : extends l l.
Proof. exists []. now rewrite app_nil_r. Qed.

Lemma extends_trans {A} (l1 l2 l3 : list A) :
  extends l1 l2 -> extends l2 l3 -> extends l1 l3.
Proof.
  intros [t1 ->] [t2 ->]. exists (t1 ++ t2). now rewrite app_assoc.
Qed.

Lemma extends_app {A} (l t : list A) : extends l (l ++ t).
Proof. exists t. reflexivity. Qed.

Lemma continues_refl (d : DlDispatcher) : continues d d.
Proof. repeat split; apply extends_refl. Qed.

Lemma continues_trans (d1 d2 d3 : DlDispatcher) :
  continues d1 d2 -> continues d2 d3 -> continues d1 d3.
Proof.
  intros (Hr1 & Hd1 & Hc1) (Hr2 & Hd2 & Hc2).
  split; [eapply extends_trans; eassumption|].
  split; [eapply extends_trans; eassumption|congruence].
Qed.

Lemma grows_draw_lines paint : forall n points c,
  (List.length points <= n)%nat ->
  extends (recorded c) (recorded (draw_lines points paint c))
  /\ initial_cull_rect (draw_lines points paint c) = initial_cull_rect c.
Proof.
  induction n as [|n IH]; intros points c Hn.
  - destruct points; [|cbn in Hn; lia]. split; [apply extends_refl|reflexivity].
  - destruct points as [|p0 [|p1 rest]];
      try (split; [apply extends_refl|reflexivity]).
    cbn [draw_lines].
    destruct (IH rest
                (Canvas.DrawPath
                   (TakePath [AddLine (ToPoint p0) (ToPoint p1)] kUnknown
                      kNonZero) paint c)
                ltac:(cbn in Hn; lia)) as [Hrec Hcull].
    split; [|rewrite Hcull; reflexivity].
    eapply extends_trans; [|exact Hrec]. apply extends_app.
Qed.

Lemma grows_draw_polygon paint : forall points p0 c,
  extends (recorded c) (recorded (draw_polygon p0 points paint c))
  /\ initial_cull_rect (draw_polygon p0 points paint c) = initial_cull_rect c.
Proof.
  induction points as [|p1 rest IH]; intros p0 c.
  - split; [apply extends_refl|reflexivity].
  - cbn [draw_polygon].
    destruct (IH (ToPoint p1)
                (Canvas.DrawPath
                   (TakePath [AddLine p0 (ToPoint p1)] kUnknown kNonZero)
                   paint c)) as [Hrec Hcull].
    split; [|rewrite Hcull; reflexivity].
    eapply extends_trans; [|exact Hrec]. apply extends_app.
Qed.

Lemma grows_RestoreToCount_loop (count : nat) : forall fuel c,
  extends (recorded c) (recorded (Canvas.RestoreToCount_loop fuel count c))
  /\ initial_cull_rect (Canvas.RestoreToCount_loop fuel count c)
     = initial_cull_rect c.
Proof.
  induction fuel as [|fuel IH]; intros c.
  - split; [apply extends_refl|reflexivity].
  - cbn [Canvas.RestoreToCount_loop].
    destruct (Nat.ltb count (Canvas.GetSaveCount c));
      [|split; [apply extends_refl|reflexivity]].
    destruct c as [cur bel cull rec]. destruct bel as [|e rest].
    + split; [apply extends_app|reflexivity].
    + change (Canvas.Restore
                {| current := cur; below := e :: rest;
                   initial_cull_rect := cull; recorded := rec |})
        with (true,
              {| current := e; below := rest; initial_cull_rect := cull;
                 recorded := rec ++ [Call_Restore] |}).
      cbv iota beta.
      destruct (IH {| current := e; below := rest; initial_cull_rect := cull;
                      recorded := rec ++ [Call_Restore] |}) as [Hrec Hcull].
      split; [|exact Hcull].
      eapply extends_trans; [|exact Hrec]. apply extends_app.
Qed.

Section Growth.

Context `{CanvasKernels}.

Ltac split_matches :=
  repeat match goal with
         | |- context [match ?x with _ => _ end] => destruct x
         end.

Ltac appended :=
  unfold extends; cbn; rewrite <- ?app_assoc;
  first [ exists []; now rewrite app_nil_r | eexists; reflexivity ].

Ltac only_appends := split; [appended|split; [appended|reflexivity]].

Lemma grows_DrawNinePatch image center dst sampler paint c :
  extends (recorded c)
    (recorded
       (NinePatchConverter.DrawNinePatch image center dst sampler c paint)).
Proof.
  unfold NinePatchConverter.DrawNinePatch.
  generalize (NinePatchPatches image center dst). intros patches.
  revert c. induction patches as [|[source dest] rest IH]; intros c.
  - apply extends_refl.
  - cbn [fold_left]. eapply extends_trans; [|apply IH]. apply extends_app.
Qed.

Lemma continues_flat (op : DlOp) (d : DlDispatcher) :
  (forall dl o, op <> Op_drawDisplayList dl o) ->
  continues d (dispatch op d).
Proof.
  intros Hflat. unfold continues.
  destruct op; cbn [dispatch];
    try (exfalso; eapply Hflat; reflexivity);
    try only_appends.
  all: try (unfold setDrawStyle; destruct (ToStyle _);
            only_appends).
  all: try (unfold setStrokeCap; destruct cap;
            only_appends).
  all: try (unfold setStrokeJoin; destruct join;
            only_appends).
  all: try (unfold setMaskFilter; destruct filter as [[]|];
            only_appends).
  all: try (unfold clipRRect; destruct (rrect_isSimple _);
            only_appends).
  all: try (unfold drawOval; destruct (Scalar.eqb _ _);
            only_appends).
  all: try (unfold drawRRect; destruct (rrect_isSimple _);
            only_appends).
  - unfold setColorSource.
    destruct source as [source|];
      [|only_appends].
    destruct source; cbn [ToColorSourceType DlColorSource_type];
      try (destruct (ConvertStops _ _ _));
      try (destruct (runtime_effect_texture_inputs _ _ _) as [logged [texture_inputs|]]);
      only_appends.
  - unfold restore, Canvas.Restore. cbv zeta.
    cbn [canvas_ with_canvas diagnostics].
    destruct (below (Canvas.record Call_Restore (canvas_ d))); only_appends.
  - unfold drawPath. split_matches;
      only_appends.
  - unfold drawPoints. cbv zeta. destruct mode.
    + only_appends.
    + cbn [on_canvas with_canvas canvas_ diagnostics].
      destruct (@grows_draw_lines (Paint_with_style kStroke (paint_ d))
                  (List.length (firstn count points)) (firstn count points)
                  (canvas_ d) (le_n _)) as [Hrec Hcull].
      split; [exact Hrec|split; [apply extends_refl|exact Hcull]].
    + destruct (Nat.ltb 1 count); [|apply continues_refl].
      destruct (firstn count points) as [|sp0 rest]; [apply continues_refl|].
      cbn [on_canvas with_canvas canvas_ diagnostics].
      destruct (@grows_draw_polygon (Paint_with_style kStroke (paint_ d))
                  rest (ToPoint sp0) (canvas_ d)) as [Hrec Hcull].
      split; [exact Hrec|split; [apply extends_refl|exact Hcull]].
  - unfold drawImage. split_matches;
      only_appends.
  - unfold drawImageNine. cbn [on_canvas with_canvas canvas_ diagnostics].
    split; [apply grows_DrawNinePatch|].
    split; [apply extends_refl|].
    apply (DrawNinePatch_keeps_the_stack _ _ _ _ _ _).
  - unfold drawTextBlob. split_matches;
      only_appends.
  - unfold drawShadow. cbv zeta. split_matches;
      only_appends.
Qed.

Lemma continues_Dispatch_from rtree cull_rect :
  forall ops i d,
    Forall (fun op => forall d, continues d (dispatch op d)) ops ->
    continues d (Dispatch_from rtree cull_rect ops i d).
Proof.
  induction ops as [|op rest IH]; intros i d Hall.
  - apply continues_refl.
  - cbn [Dispatch_from]. fold (Dispatch_from rtree cull_rect).
    inversion Hall as [|? ? Hop Hrest]; subst.
    eapply continues_trans; [|apply IH; exact Hrest].
    destruct (delivered rtree cull_rect i); [apply Hop|apply continues_refl].
Qed.

Lemma continues_drawDisplayList_enter opacity d :
  recorded (canvas_ (drawDisplayList_enter opacity d))
  = recorded (canvas_ d) ++ Call_Save :: opacity_layer opacity
  /\ diagnostics (drawDisplayList_enter opacity d) = diagnostics d
  /\ initial_cull_rect (canvas_ (drawDisplayList_enter opacity d))
     = initial_cull_rect (canvas_ d)
  /\ paint_ (drawDisplayList_enter opacity d) = Paint_default
  /\ initial_matrix_ (drawDisplayList_enter opacity d)
     = Canvas.GetCurrentTransformation (canvas_ d).
Proof.
  unfold drawDisplayList_enter, opacity_layer. cbv zeta.
  destruct (Scalar.ltb opacity 1%S); cbn; rewrite <- ?app_assoc;
    repeat split.
Qed.

Lemma continues_after_nested_replay ops rtree opacity d :
  Forall (fun op => forall d, continues d (dispatch op d)) ops ->
  continues (drawDisplayList_enter opacity d)
    (after_nested_replay (MakeDisplayList ops rtree) opacity d).
Proof.
  intros Hall.
  unfold after_nested_replay, drawDisplayList_replay, Dispatch.
  cbn [DisplayList_rtree DisplayList_ops].
  split_matches; apply continues_Dispatch_from; exact Hall.
Qed.

Lemma continues_dispatch : forall op d, continues d (dispatch op d).
Proof.
  apply (@DlOp_nested_ind
           (fun op => forall d, continues d (dispatch op d))).
  - intros op Hflat d. apply continues_flat. exact Hflat.
  - intros ops rtree opacity Hall d.
    change (dispatch (Op_drawDisplayList (MakeDisplayList ops rtree) opacity) d)
      with (drawDisplayList (MakeDisplayList ops rtree) opacity d).
    destruct (continues_drawDisplayList_enter opacity d)
      as (Hrec & Hdiag & Hcull & _).
    pose proof (@continues_after_nested_replay ops rtree opacity d Hall)
      as (Hrec' & Hdiag' & Hcull').
    destruct (grows_RestoreToCount_loop
                (Canvas.GetSaveCount (canvas_ d))
                (Canvas.GetSaveCount
                   (canvas_ (after_nested_replay (MakeDisplayList ops rtree)
                               opacity d)))
                (canvas_ (after_nested_replay (MakeDisplayList ops rtree)
                            opacity d))) as [Hrec'' Hcull''].
    split; [|split].
    + eapply extends_trans; [|exact Hrec''].
      eapply extends_trans; [|exact Hrec'].
      rewrite Hrec. apply extends_app.
    + change (diagnostics
                (drawDisplayList (MakeDisplayList ops rtree) opacity d))
        with (diagnostics
                (after_nested_replay (MakeDisplayList ops rtree) opacity d)).
      rewrite <- Hdiag. exact Hdiag'.
    + change (initial_cull_rect
                (canvas_ (drawDisplayList (MakeDisplayList ops rtree)
                            opacity d)))
        with (initial_cull_rect
                (Canvas.RestoreToCount_loop
                   (Canvas.GetSaveCount
                      (canvas_ (after_nested_replay
                                  (MakeDisplayList ops rtree) opacity d)))
                   (Canvas.GetSaveCount (canvas_ d))
                   (canvas_ (after_nested_replay (MakeDisplayList ops rtree)
                               opacity d)))).
      rewrite Hcull'', Hcull', Hcull. reflexivity.
Qed.

(** X21. How a nested list is wrapped. Whatever the nested list holds, the
    calls [drawDisplayList] adds begin with a [Save], followed by a
    [SaveLayer] exactly when the opacity is below one - with a default
    paint whose color is transparent black at that alpha, without bounds
    and without backdrop; an opacity of one or more, or one that is not a
    number, opens no layer. The calls of the nested directives come after
    these. *)
Theorem drawDisplayList_opens_a_scope
  (display_list : DisplayList) (opacity : Scalar) (d : DlDispatcher) :
  extends
    (recorded (canvas_ d) ++ Call_Save :: opacity_layer opacity)
    (recorded (canvas_ (drawDisplayList display_list opacity d)))
  /\ (opacity_layer opacity = [] <-> Scalar.ltb opacity 1%S = false).
Proof.
  split.
  - destruct display_list as [ops rtree].
    destruct (continues_drawDisplayList_enter opacity d) as (Hrec & _).
    rewrite <- Hrec.
    assert (Hall : Forall (fun op => forall d, continues d (dispatch op d)) ops)
      by (apply Forall_forall; intros op _; apply continues_dispatch).
    pose proof (@continues_after_nested_replay ops rtree opacity d Hall)
      as (Hrec' & _).
    eapply extends_trans; [exact Hrec'|].
    apply (grows_RestoreToCount_loop
             (Canvas.GetSaveCount (canvas_ d))
             (Canvas.GetSaveCount
                (canvas_ (after_nested_replay (MakeDisplayList ops rtree)
                            opacity d)))
             (canvas_ (after_nested_replay (MakeDisplayList ops rtree)
                         opacity d))).
  - unfold opacity_layer. destruct (Scalar.ltb opacity 1%S); split;
      intros; congruence.
Qed.

(** X22. A nested list does not inherit the attributes of its caller: the
    nested replay starts from the default paint and takes the caller's
    current transform as its baseline, so what [drawDisplayList] draws and
    logs is the same whatever paint and whatever initial matrix the caller
    has when it is called. *)
Theorem drawDisplayList_does_not_inherit_attributes
  (display_list : DisplayList) (opacity : Scalar) (d : DlDispatcher)
  (caller_paint : Paint) (caller_baseline : Matrix) :
  let d0 := with_paint caller_paint (with_initial_matrix caller_baseline d) in
  paint_ (drawDisplayList_enter opacity d0) = Paint_default
  /\ initial_matrix_ (drawDisplayList_enter opacity d0)
     = Canvas.GetCurrentTransformation (canvas_ d)
  /\ canvas_ (drawDisplayList display_list opacity d0)
     = canvas_ (drawDisplayList display_list opacity d)
  /\ diagnostics (drawDisplayList display_list opacity d0)
     = diagnostics (drawDisplayList display_list opacity d).
Proof.
  cbv zeta.
  assert (Henter :
    drawDisplayList_enter opacity
      (with_paint caller_paint (with_initial_matrix caller_baseline d))
    = drawDisplayList_enter opacity d).
  { unfold drawDisplayList_enter. cbv zeta.
    destruct (Scalar.ltb opacity 1%S); reflexivity. }
  destruct (continues_drawDisplayList_enter opacity d)
    as (_ & _ & _ & Hpaint & Hmatrix).
  rewrite Henter.
  split; [exact Hpaint|]. split; [exact Hmatrix|].
  unfold drawDisplayList, drawDisplayList_with. cbv zeta.
  rewrite Henter. split; reflexivity.
Qed.

Lemma Dispatch_from_without_cull_rect rtree :
  forall ops i d,
    Dispatch_from rtree None ops i d = Dispatch_from None None ops i d.
Proof.
  induction ops as [|op rest IH]; intros i d; [reflexivity|].
  cbn [Dispatch_from]. fold (Dispatch_from rtree None).
  fold (Dispatch_from None None). rewrite IH.
  destruct rtree; reflexivity.
Qed.

(** X23. Culling is switched off under perspective. When the canvas's
    current transform has perspective, [drawDisplayList] replays a nested
    list that carries a culling index exactly as it replays the same list
    without the index: every directive is delivered. *)
Theorem perspective_disables_culling
  (ops : list DlOp) (rtree : option RTree) (opacity : Scalar)
  (d : DlDispatcher) :
  Mat.HasPerspective (Canvas.GetCurrentTransformation (canvas_ d)) = true ->
  drawDisplayList (MakeDisplayList ops rtree) opacity d
  = drawDisplayList (MakeDisplayList ops None) opacity d.
Proof.
  intros Hpersp.
  destruct (continues_drawDisplayList_enter opacity d)
    as (_ & _ & _ & _ & Hmatrix).
  unfold drawDisplayList, drawDisplayList_with. cbv zeta.
  f_equal. unfold drawDisplayList_replay.
  rewrite Hmatrix, Hpersp. rewrite andb_false_r.
  cbn [has_rtree DisplayList_rtree andb]. unfold Dispatch.
  cbn [DisplayList_rtree DisplayList_ops].
  apply Dispatch_from_without_cull_rect.
Qed.

End Growth.

(** A list with a culling index that delivers nothing, on a canvas with
    culling bounds, under a transform with perspective. *)
Lemma perspective_disables_culling_witness :
  let d :=
    transformFullPerspective
      1%S 0%S 0%S 0%S
      0%S 1%S 0%S 0%S
      0%S 0%S 1%S 0%S
      1%S 0%S 0%S 1%S
      (DlDispatcher_new (Some (Rect_MakeLTRB 0%S 0%S 1%S 1%S))) in
  let rtree : option RTree := Some (fun _ _ => false) in
  Mat.HasPerspective (Canvas.GetCurrentTransformation (canvas_ d)) = true
  /\ @drawDisplayList plain_kernels (MakeDisplayList [Op_drawPaint] rtree)
       1%S d
     = @drawDisplayList plain_kernels (MakeDisplayList [Op_drawPaint] None)
         1%S d.
Proof.
  cbv zeta. split; [vm_compute; reflexivity|].
  apply (@perspective_disables_culling plain_kernels).
  vm_compute. reflexivity.
Defined.

(** ** The save stack across a nested list *)

Lemma RestoreToCount_loop_pops (e : CanvasStackEntry)
  (B : list CanvasStackEntry) :
  forall pre c fuel,
    below c = pre ++ e :: B ->
    (List.length pre < fuel)%nat ->
    save_stack (Canvas.RestoreToCount_loop fuel (S (List.length B)) c)
    = e :: B.
Proof.
  induction pre as [|p pre IH]; intros c fuel Hbelow Hfuel.
  - destruct fuel as [|fuel]; [lia|].
    cbn [Canvas.RestoreToCount_loop].
    destruct c as [cur bel cull rec]. cbn [below app] in Hbelow. subst bel.
    unfold Canvas.GetSaveCount at 1. cbn [below List.length].
    replace (Nat.ltb (S (List.length B)) (S (S (List.length B)))) with true
      by (symmetry; apply Nat.ltb_lt; lia).
    change (Canvas.Restore
              {| current := cur; below := e :: B;
                 initial_cull_rect := cull; recorded := rec |})
      with (true,
            {| current := e; below := B; initial_cull_rect := cull;
               recorded := rec ++ [Call_Restore] |}).
    cbv iota beta.
    destruct fuel as [|fuel]; [reflexivity|].
    cbn [Canvas.RestoreToCount_loop].
    unfold Canvas.GetSaveCount at 1. cbn [below].
    rewrite Nat.ltb_irrefl. reflexivity.
  - destruct fuel as [|fuel]; [cbn in Hfuel; lia|].
    cbn [Canvas.RestoreToCount_loop].
    destruct c as [cur bel cull rec]. cbn [below] in Hbelow. subst bel.
    unfold Canvas.GetSaveCount at 1. cbn [below].
    replace (Nat.ltb (S (List.length B))
               (S (List.length ((p :: pre) ++ e :: B)))) with true
      by (symmetry; apply Nat.ltb_lt; rewrite length_app; cbn; lia).
    change (Canvas.Restore
              {| current := cur; below := (p :: pre) ++ e :: B;
                 initial_cull_rect := cull; recorded := rec |})
      with (true,
            {| current := p; below := pre ++ e :: B;
               initial_cull_rect := cull;
               recorded := rec ++ [Call_Restore] |}).
    cbv iota beta.
    apply IH; [reflexivity|cbn in Hfuel; lia].
Qed.

Section SaveStack.

Context `{CanvasKernels}.

Ltac split_matches :=
  repeat match goal with
         | |- context [match ?x with _ => _ end] => destruct x
         end.

Lemma below_setColorSource source d :
  below (canvas_ (setColorSource source d)) = below (canvas_ d).
Proof.
  unfold setColorSource.
  destruct source as [source|]; [|reflexivity].
  destruct (ToColorSourceType (DlColorSource_type source)); [|reflexivity].
  destruct source; try reflexivity;
    try (destruct (ConvertStops _ _ _); reflexivity).
  destruct (runtime_effect_texture_inputs _ _ _) as [logged [texture_inputs|]]; reflexivity.
Qed.

Lemma below_flat (op : DlOp) (d : DlDispatcher) :
  (forall dl o, op <> Op_drawDisplayList dl o) ->
  below (canvas_ (dispatch op d)) = below_effect op (canvas_ d).
Proof.
  intros Hflat.
  destruct op; cbn [dispatch below_effect];
    try apply below_setColorSource;
    try reflexivity.
  all: try (unfold setDrawStyle; destruct (ToStyle _); reflexivity).
  all: try (unfold setStrokeCap; destruct cap; reflexivity).
  all: try (unfold setStrokeJoin; destruct join; reflexivity).
  all: try (unfold setMaskFilter; destruct filter as [[]|]; reflexivity).
  all: try (unfold clipRRect; destruct (rrect_isSimple _); reflexivity).
  all: try (unfold drawOval; destruct (Scalar.eqb _ _); reflexivity).
  all: try (unfold drawRRect; destruct (rrect_isSimple _); reflexivity).
  - unfold restore, Canvas.Restore. cbv zeta. cbn [canvas_ with_canvas].
    destruct (canvas_ d) as [cur bel cull rec]. destruct bel; reflexivity.
  - unfold drawPath. split_matches; reflexivity.
  - unfold drawPoints. cbv zeta.
    destruct mode; [reflexivity| |].
    + cbn [on_canvas canvas_ with_canvas].
      now rewrite below_draw_lines
        with (n := List.length (firstn count points)) by lia.
    + destruct (Nat.ltb 1 count); [|reflexivity].
      destruct (firstn count points); [reflexivity|].
      cbn [on_canvas canvas_ with_canvas].
      now rewrite below_draw_polygon.
  - unfold drawImage. split_matches; reflexivity.
  - unfold drawImageNine. cbn [on_canvas canvas_ with_canvas].
    apply (proj1 (proj2 (DrawNinePatch_keeps_the_stack _ _ _ _ _ _))).
  - exfalso. eapply Hflat. reflexivity.
  - unfold drawTextBlob. split_matches; reflexivity.
  - unfold drawShadow. cbv zeta. split_matches; reflexivity.
Qed.

(** Along a list without unmatched restore the scopes that were there when
    it began, below the ones it has opened itself, are not touched. *)
Lemma below_matched_list rtree cull_rect :
  forall ops i opened d,
    Forall (fun op =>
              restores_matched_op op ->
              forall d,
                below (canvas_ (dispatch op d)) = below_effect op (canvas_ d))
      ops ->
    restores_matched_from rtree cull_rect ops i opened ->
    (opened <= List.length (below (canvas_ d)))%nat ->
    exists k,
      (k <= List.length
              (below (canvas_ (Dispatch_from rtree cull_rect ops i d))))%nat
      /\ skipn k (below (canvas_ (Dispatch_from rtree cull_rect ops i d)))
         = skipn opened (below (canvas_ d)).
Proof.
  induction ops as [|op rest IH]; intros i opened d Hall Hm Hopen.
  - exists opened. cbn [Dispatch_from]. split; [exact Hopen|reflexivity].
  - cbn [Dispatch_from]. fold (Dispatch_from rtree cull_rect).
    cbn [restores_matched_from] in Hm.
    fold (restores_matched_from rtree cull_rect) in Hm.
    inversion Hall as [|? ? Hop Hrest]; subst.
    destruct (delivered rtree cull_rect i); [|apply IH; assumption].
    destruct Hm as [Hmop Hmrest].
    specialize (Hop Hmop d).
    destruct op; cbn [below_effect] in Hop;
      try (destruct (IH (S i) opened _ Hrest Hmrest
                       ltac:(rewrite Hop; exact Hopen)) as (k & Hk & Hskip);
           exists k; split; [exact Hk|]; rewrite Hskip, Hop; reflexivity).
    + destruct (IH (S i) (S opened) _ Hrest Hmrest
                  ltac:(rewrite Hop; cbn; lia)) as (k & Hk & Hskip).
      exists k. split; [exact Hk|]. rewrite Hskip, Hop. reflexivity.
    + destruct (IH (S i) (S opened) _ Hrest Hmrest
                  ltac:(rewrite Hop; cbn; lia)) as (k & Hk & Hskip).
      exists k. split; [exact Hk|]. rewrite Hskip, Hop. reflexivity.
    + destruct opened as [|opened']; [contradiction|].
      destruct (below (canvas_ d)) as [|e bel] eqn:Hbel; [cbn in Hopen; lia|].
      cbn [tl] in Hop.
      destruct (IH (S i) opened' _ Hrest Hmrest
                  ltac:(rewrite Hop; cbn in Hopen; lia)) as (k & Hk & Hskip).
      exists k. split; [exact Hk|]. rewrite Hskip, Hop. reflexivity.
Qed.

Lemma below_drawDisplayList_enter opacity d :
  exists pre,
    below (canvas_ (drawDisplayList_enter opacity d))
    = pre ++ current (canvas_ d) :: below (canvas_ d).
Proof.
  unfold drawDisplayList_enter. cbv zeta.
  destruct (Scalar.ltb opacity 1%S).
  - eexists [_]. reflexivity.
  - exists []. reflexivity.
Qed.

Lemma save_stack_nested ops rtree opacity d :
  Forall (fun op =>
            restores_matched_op op ->
            forall d,
              below (canvas_ (dispatch op d)) = below_effect op (canvas_ d))
    ops ->
  restores_matched (MakeDisplayList ops rtree) ->
  save_stack (canvas_ (drawDisplayList (MakeDisplayList ops rtree) opacity d))
  = save_stack (canvas_ d).
Proof.
  intros Hall Hm.
  destruct (below_drawDisplayList_enter opacity d) as [pre Hpre].
  assert (Hreplay : exists pre',
    below (canvas_ (after_nested_replay (MakeDisplayList ops rtree) opacity d))
    = pre' ++ current (canvas_ d) :: below (canvas_ d)).
  { assert (Hany : forall cull_rect, exists pre',
      below (canvas_ (Dispatch (MakeDisplayList ops rtree) cull_rect
                        (drawDisplayList_enter opacity d)))
      = pre' ++ current (canvas_ d) :: below (canvas_ d)).
    { intros cull_rect. unfold Dispatch.
      cbn [DisplayList_rtree DisplayList_ops].
      destruct (@below_matched_list rtree cull_rect ops O O
                  (drawDisplayList_enter opacity d) Hall (Hm cull_rect)
                  ltac:(lia)) as (k & Hk & Hskip).
      cbn [skipn] in Hskip.
      exists (firstn k
                (below (canvas_ (Dispatch_from rtree cull_rect ops 0
                                   (drawDisplayList_enter opacity d))))
              ++ pre).
      rewrite <- app_assoc, <- Hpre, <- Hskip. symmetry. apply firstn_skipn. }
    unfold after_nested_replay, drawDisplayList_replay.
    split_matches; apply Hany. }
  destruct Hreplay as [pre' Hpre'].
  change (canvas_ (drawDisplayList (MakeDisplayList ops rtree) opacity d))
    with (Canvas.RestoreToCount_loop
            (Canvas.GetSaveCount
               (canvas_ (after_nested_replay (MakeDisplayList ops rtree)
                           opacity d)))
            (S (List.length (below (canvas_ d))))
            (canvas_ (after_nested_replay (MakeDisplayList ops rtree)
                        opacity d))).
  apply RestoreToCount_loop_pops with (pre := pre'); [exact Hpre'|].
  unfold Canvas.GetSaveCount. rewrite Hpre', length_app. cbn. lia.
Qed.

Lemma below_effect_matched : forall op,
  restores_matched_op op ->
  forall d, below (canvas_ (dispatch op d)) = below_effect op (canvas_ d).
Proof.
  apply (@DlOp_nested_ind
           (fun op =>
              restores_matched_op op ->
              forall d,
                below (canvas_ (dispatch op d))
                = below_effect op (canvas_ d))).
  - intros op Hflat _ d. apply below_flat. exact Hflat.
  - intros ops rtree opacity Hall Hm d.
    change (dispatch (Op_drawDisplayList (MakeDisplayList ops rtree) opacity) d)
      with (drawDisplayList (MakeDisplayList ops rtree) opacity d).
    cbn [below_effect].
    pose proof (@save_stack_nested ops rtree opacity d Hall Hm) as Hstack.
    unfold save_stack in Hstack. now injection Hstack.
Qed.

(** X24. A nested list without unmatched restore leaves the save stack of
    its caller as it found it: after [drawDisplayList] the current scope -
    the current transform with it - and every saved scope are what they
    were at the call, whatever the nested list saved, transformed, reset,
    clipped or left open, at any depth of nesting and for any opacity.
    The transform of nested content does not leak into the caller. *)
Theorem drawDisplayList_restores_the_save_stack
  (display_list : DisplayList) (opacity : Scalar) (d : DlDispatcher) :
  restores_matched display_list ->
  save_stack (canvas_ (drawDisplayList display_list opacity d))
  = save_stack (canvas_ d)
  /\ Canvas.GetCurrentTransformation
       (canvas_ (drawDisplayList display_list opacity d))
     = Canvas.GetCurrentTransformation (canvas_ d).
Proof.
  intros Hm. destruct display_list as [ops rtree].
  assert (Hstack :
    save_stack (canvas_ (drawDisplayList (MakeDisplayList ops rtree) opacity d))
    = save_stack (canvas_ d)).
  { apply save_stack_nested; [|exact Hm].
    apply Forall_forall. intros op _. apply below_effect_matched. }
  split; [exact Hstack|].
  unfold Canvas.GetCurrentTransformation. f_equal.
  unfold save_stack in Hstack. congruence.
Qed.

End SaveStack.

(** A nested list that translates, opens two scopes and closes one of them,
    under an opacity layer, called within a scope of the caller. *)
Lemma drawDisplayList_restores_the_save_stack_witness :
  let dl :=
    MakeDisplayList
      [Op_translate (Scalar.of_Z 5) (Scalar.of_Z 7); Op_save;
       Op_scale (Scalar.of_Z 2) (Scalar.of_Z 2); Op_save; Op_restore;
       Op_transformReset] None in
  let d := translate (Scalar.of_Z 3) (Scalar.of_Z 4)
             (save (DlDispatcher_new None)) in
  restores_matched dl
  /\ Canvas.GetCurrentTransformation
       (canvas_ (@drawDisplayList plain_kernels dl (Scalar.ratio 1 2) d))
     = Canvas.GetCurrentTransformation (canvas_ d).
Proof.
  cbv zeta.
  assert (Hm :
    restores_matched
      (MakeDisplayList
         [Op_translate (Scalar.of_Z 5) (Scalar.of_Z 7); Op_save;
          Op_scale (Scalar.of_Z 2) (Scalar.of_Z 2); Op_save; Op_restore;
          Op_transformReset] None)).
  { intros cull_rect. cbn. tauto. }
  split; [exact Hm|].
  exact (proj2 (@drawDisplayList_restores_the_save_stack plain_kernels
                  _ (Scalar.ratio 1 2) _ Hm)).
Defined.

(** ** Save and restore as brackets *)

Section Brackets.

Context `{CanvasKernels}.

Lemma below_replay_keeps_scopes : forall ops d,
  Forall keeps_scopes ops ->
  below (canvas_ (replay ops d)) = below (canvas_ d).
Proof.
  unfold replay.
  induction ops as [|op rest IH]; intros d Hall; [reflexivity|].
  cbn [fold_left]. inversion Hall as [|? ? Hop Hrest]; subst.
  rewrite (IH _ Hrest).
  destruct op; cbn [keeps_scopes] in Hop; try contradiction;
    exact (below_effect_matched _ Hop d).
Qed.

(** X25. [save] and [restore] are brackets. Whatever is replayed between
    a [save] - or a [saveLayer] - and its [restore], transforms, transform
    resets, clips, attributes, draws and nested lists without unmatched
    restore, the [restore] brings back the save stack of before the
    [save]: the current transform and every saved scope. *)
Theorem restore_undoes_what_follows_a_save
  (ops : list DlOp) (d : DlDispatcher) :
  Forall keeps_scopes ops ->
  save_stack (canvas_ (restore (replay ops (save d))))
  = save_stack (canvas_ d)
  /\ forall bounds options backdrop,
       save_stack
         (canvas_ (restore (replay ops (saveLayer bounds options backdrop d))))
       = save_stack (canvas_ d).
Proof.
  intros Hall.
  assert (Hpop : forall d0 : DlDispatcher,
    below (canvas_ d0) = current (canvas_ d) :: below (canvas_ d) ->
    save_stack (canvas_ (restore (replay ops d0))) = save_stack (canvas_ d)).
  { intros d0 Hd0.
    pose proof (@below_replay_keeps_scopes ops d0 Hall) as Hbelow.
    rewrite Hd0 in Hbelow.
    unfold restore, Canvas.Restore, save_stack. cbv zeta.
    cbn [canvas_ with_canvas].
    destruct (canvas_ (replay ops d0)) as [cur bel cull rec].
    cbn [below] in Hbelow. subst bel. reflexivity. }
  split; [apply Hpop; reflexivity|].
  intros bounds options backdrop. apply Hpop. reflexivity.
Qed.

End Brackets.

(** A translation, a scale, a transform reset and a clip after a save. *)
Lemma restore_undoes_what_follows_a_save_witness :
  let ops :=
    [Op_translate (Scalar.of_Z 5) (Scalar.of_Z 7);
     Op_scale (Scalar.of_Z 2) (Scalar.of_Z 2); Op_transformReset;
     Op_clipRect (SkRect_MakeWH 1%S 1%S) ClipOp_kIntersect false] in
  let d := translate (Scalar.of_Z 3) (Scalar.of_Z 4) (DlDispatcher_new None) in
  save_stack (canvas_ (restore (@replay plain_kernels ops (save d))))
  = save_stack (canvas_ d).
Proof.
  cbv zeta.
  refine (proj1 (@restore_undoes_what_follows_a_save plain_kernels _ _ _)).
  repeat constructor.
Defined.

(** ** Transform reset along a stream *)

Section ResetAlongAStream.

Context `{CanvasKernels}.

Lemma replay_keeps_initial_matrix : forall ops d,
  initial_matrix_ (replay ops d) = initial_matrix_ d.
Proof.
  unfold replay.
  induction ops as [|op rest IH]; intros d; [reflexivity|].
  cbn [fold_left]. rewrite IH. apply dispatch_keeps_initial_matrix.
Qed.

(** X26. [transformReset] forgets every transform made before it: after
    any stream - translations, scales, rotations, matrices, saves,
    restores, matched or not, draws and nested lists - followed by
    [transformReset], the canvas transform is the one [transformReset]
    gives when it is called at once. The transform a reset arrives at
    depends on the initial matrix alone. *)
Theorem transformReset_forgets_the_transforms_before_it
  (ops : list DlOp) (d : DlDispatcher) :
  Canvas.GetCurrentTransformation (canvas_ (transformReset (replay ops d)))
  = Canvas.GetCurrentTransformation (canvas_ (transformReset d)).
Proof.
  change (Mat.Multiply Mat.Identity (initial_matrix_ (replay ops d))
          = Mat.Multiply Mat.Identity (initial_matrix_ d)).
  now rewrite replay_keeps_initial_matrix.
Qed.

End ResetAlongAStream.

(** ** Text *)

(** X27. A text frame reaches the canvas only with a paint it can be
    rendered with. [drawTextBlob] issues no call for a blob without text
    frame and one call otherwise, always with the current paint: the call
    is [DrawTextFrame] only when the paint is a fill with a solid color
    source, and [DrawPath] of the glyph outlines otherwise. *)
Theorem drawTextBlob_calls
  (blob : SkTextBlob) (x y : Scalar) (d : DlDispatcher) :
  let d' := drawTextBlob blob x y d in
  let calls := calls_since (canvas_ d) (canvas_ d') in
  recorded (canvas_ d') = recorded (canvas_ d) ++ calls
  /\ List.length calls
     = match blob_text_frame blob with Some _ => 1%nat | None => O end
  /\ Forall
       (fun call =>
          call_paint call = Some (paint_ d)
          /\ match call with
             | Call_DrawTextFrame _ _ paint =>
                 style paint = kFill
                 /\ ColorSource_GetType (color_source paint) = Type_kColor
             | Call_DrawPath _ paint =>
                 style paint = kStroke
                 \/ ColorSource_GetType (color_source paint) <> Type_kColor
             | _ => False
             end) calls.
Proof.
  cbv zeta.
  assert (Hgoal :
    exists calls,
      recorded (canvas_ (drawTextBlob blob x y d))
      = recorded (canvas_ d) ++ calls
      /\ List.length calls
         = match blob_text_frame blob with Some _ => 1%nat | None => O end
      /\ Forall
           (fun call =>
              call_paint call = Some (paint_ d)
              /\ match call with
                 | Call_DrawTextFrame _ _ paint =>
                     style paint = kFill
                     /\ ColorSource_GetType (color_source paint) = Type_kColor
                 | Call_DrawPath _ paint =>
                     style paint = kStroke
                     \/ ColorSource_GetType (color_source paint)
                        <> Type_kColor
                 | _ => False
                 end) calls).
  { unfold drawTextBlob.
    destruct (blob_text_frame blob) as [text_frame|].
    - destruct (style (paint_ d)) eqn:Hstyle; cbn [orb].
      + destruct (ColorSource_GetType (color_source (paint_ d))) eqn:Htype;
          cbn [ColorSourceType_eqb negb];
          eexists [_]; (split; [reflexivity|]); (split; [reflexivity|]);
          (apply Forall_cons; [|apply Forall_nil]);
          (split; [reflexivity|]);
          first [ split; assumption | right; rewrite Htype; discriminate ].
      + eexists [_]. split; [reflexivity|]. split; [reflexivity|].
        apply Forall_cons; [|apply Forall_nil].
        split; [reflexivity|]. left. exact Hstyle.
    - exists []. rewrite app_nil_r. split; [reflexivity|].
      split; [reflexivity|constructor]. }
  destruct Hgoal as (calls & Hrec & Hlen & Hall).
  rewrite (@calls_since_app _ _ _ Hrec). auto.
Qed.
